(** * Verification of the content-extraction and inline-formatting core

    Shallow embedding of [scripts/markdown_to_ppt.py] and
    [scripts/markdown_to_pandoc.py]: the retrying og:image fetcher, the
    markdown section extractor and the inline markdown tokenizer.

    Python [str] values are sequences of Unicode code points, so a
    character is a code point ([N]) and a string a list of them.  The
    regular expressions of the source are kept as regular expressions: a
    small syntax tree, and a backtracking matcher over it that follows the
    priority order of Python's [re] module.

    Further on come the rest of the two scripts as far as it computes:
    the selection of the files of a period, the slides of a document,
    the formatter of the focal points, the content slide of the Pandoc
    deck and the fallback that drops the background pictures.

    Of python-pptx the model keeps what the scripts can run into: a
    text assigned to a run or to a paragraph is stored, or refused with
    [ValueError] when it holds a character XML has no place for;
    [add_picture] takes the downloaded bytes or raises;
    [prs.slide_layouts[i]] raises [IndexError] out of range; and
    setting an attribute the library does not know, the strikethrough,
    changes nothing. *)

From Stdlib Require Import String Ascii.
From Stdlib Require Import List NArith Arith Lia Bool ZArith.
Import ListNotations.

Set Implicit Arguments.

(* ================================================================== *)
(** ** Python strings *)
(* ================================================================== *)

Definition char := N.
Definition str := list char.

(** A literal of the source (ASCII only; other code points are written
    as numbers). *)
Definition py (x : string) : str :=
  List.map N_of_ascii (list_ascii_of_string x).

Definition nl : char := 10%N.

Definition str_eqb (a b : str) : bool :=
  if list_eq_dec N.eq_dec a b then true else false.

(** [str.isspace] on one character, which is also the class [\s] of
    the [re] module on [str] patterns. *)
Definition isspace (c : char) : bool :=
  ((9 <=? c) && (c <=? 13) || (28 <=? c) && (c <=? 32) ||
   (c =? 133) || (c =? 160) || (c =? 5760) ||
   (8192 <=? c) && (c <=? 8202) || (c =? 8232) || (c =? 8233) ||
   (c =? 8239) || (c =? 8287) || (c =? 12288))%N.

Fixpoint lstrip (t : str) : str :=
  match t with
  | c :: t' => if isspace c then lstrip t' else t
  | [] => []
  end.

Definition rstrip (t : str) : str := rev (lstrip (rev t)).

(** [t.strip()] *)
Definition strip (t : str) : str := rstrip (lstrip t).

(** [not t.strip()] *)
Definition blank (t : str) : bool := forallb isspace t.

(** [t.startswith(p)] *)
Fixpoint startswith (p t : str) : bool :=
  match p, t with
  | [], _ => true
  | a :: p', b :: t' => (a =? b)%N && startswith p' t'
  | _ :: _, [] => false
  end.

(** [t.endswith(p)] *)
Definition endswith (p t : str) : bool := startswith (rev p) (rev t).

(** [p in t] *)
Fixpoint contains (p t : str) : bool :=
  startswith p t ||
  match t with
  | [] => false
  | _ :: t' => contains p t'
  end.

(** [t.split(sep)] for a one-character separator: never empty. *)
Fixpoint split (sep : char) (t : str) : list str :=
  match t with
  | [] => [[]]
  | c :: t' =>
      if (c =? sep)%N then [] :: split sep t'
      else match split sep t' with
           | l :: ls => (c :: l) :: ls
           | [] => [[c]]
           end
  end.

(** [t[a:b]] for [0 <= a], [0 <= b]. *)
Definition slice (t : str) (a b : nat) : str := firstn (b - a) (skipn a t).

(** [t[a:]] *)
Definition slice_from (t : str) (a : nat) : str := skipn a t.

(** [t[a:-b]] for [0 <= a], [0 < b]. *)
Definition slice_mid (t : str) (a b : nat) : str :=
  firstn (length t - b - a) (skipn a t).

(** [t.find(p, start)]: the lowest index at or after [start] where [p]
    occurs, [-1] when there is none. *)
Fixpoint find_aux (p t : str) (i : nat) : Z :=
  if startswith p t then Z.of_nat i
  else match t with
       | [] => (-1)%Z
       | _ :: t' => find_aux p t' (S i)
       end.

Definition find (p t : str) (start : nat) : Z :=
  if length t <? start then (-1)%Z else find_aux p (skipn start t) start.

(* ================================================================== *)
(** ** Regular expressions ([re]) *)
(* ================================================================== *)

(** The constructs the source's patterns use.  [Bol] and [Eol] are [^]
    and [$] under [re.MULTILINE] (every pattern of the source that has an
    anchor sets that flag); [EndZ] is [\Z]. *)
Inductive regex : Type :=
| Eps
| Cls (p : char -> bool)
| Cat (a b : regex)
| Alt (a b : regex)
| Rep (greedy : bool) (r : regex)
| Grp (n : nat) (r : regex)
| Bol
| Eol
| EndZ.

(** A matcher state: the text already passed (reversed), the text ahead,
    and the groups captured so far (latest first). *)
Record mstate : Type := MState {
  pre : str;
  post : str;
  caps : list (nat * str)
}.

Definition consumed (s s' : mstate) : str :=
  firstn (length (post s) - length (post s')) (post s).

Definition set_cap (n : nat) (s s' : mstate) : mstate :=
  MState (pre s') (post s') ((n, consumed s s') :: caps s').

(** Repetition: the iterations of [step] in the order backtracking tries
    them, longest first when greedy, shortest first when lazy.  An
    iteration has to consume something, so [fuel = length (post s)]
    iterations are enough. *)
Fixpoint rep_loop (step : mstate -> list mstate) (greedy : bool)
         (fuel : nat) (s : mstate) : list mstate :=
  match fuel with
  | O => [s]
  | S n =>
      let more :=
        flat_map (fun s' =>
                    if length (post s') <? length (post s)
                    then rep_loop step greedy n s' else [])
                 (step s) in
      if greedy then more ++ [s] else s :: more
  end.

(** All the ways [r] matches at [s], in the order the backtracking
    engine finds them: the head is the match [re] reports. *)
Fixpoint m (r : regex) (s : mstate) : list mstate :=
  match r with
  | Eps => [s]
  | Cls p =>
      match post s with
      | c :: t => if p c then [MState (c :: pre s) t (caps s)] else []
      | [] => []
      end
  | Cat a b => flat_map (m b) (m a s)
  | Alt a b => m a s ++ m b s
  | Rep g r' => rep_loop (m r') g (length (post s)) s
  | Grp n r' => List.map (set_cap n s) (m r' s)
  | Bol =>
      match pre s with
      | [] => [s]
      | c :: _ => if (c =? nl)%N then [s] else []
      end
  | Eol =>
      match post s with
      | [] => [s]
      | c :: _ => if (c =? nl)%N then [s] else []
      end
  | EndZ =>
      match post s with
      | [] => [s]
      | _ :: _ => []
      end
  end.

(** Derived forms. *)
Definition Plus (g : bool) (r : regex) : regex := Cat r (Rep g r).
Definition Opt (r : regex) : regex := Alt r Eps.
Definition chr (c : char) : regex := Cls (N.eqb c).

Fixpoint lit (w : str) : regex :=
  match w with
  | [] => Eps
  | c :: w' => Cat (chr c) (lit w')
  end.

Definition greedy := true.
Definition lazy := false.

(** Character classes. *)
Definition dot (c : char) : bool := negb (c =? nl)%N.
Definition any (c : char) : bool := true.
Definition oneof (w : str) (c : char) : bool := existsb (N.eqb c) w.
Definition noneof (w : str) (c : char) : bool := negb (oneof w c).

(** Match objects. *)
Record mobj : Type := MObj {
  m_start : nat;
  m_end : nat;
  m_text : str;
  m_caps : list (nat * str)
}.

(** [mo.group(n)] for [n >= 1]: [None] when the group took no part. *)
Fixpoint group_of (cs : list (nat * str)) (n : nat) : option str :=
  match cs with
  | [] => None
  | (k, w) :: cs' => if k =? n then Some w else group_of cs' n
  end.

Definition group (mo : mobj) (n : nat) : option str := group_of (m_caps mo) n.

Definition mk_mobj (s s' : mstate) : mobj :=
  MObj (length (pre s)) (length (pre s')) (consumed s s') (caps s').

(** [re.match(r, t)] at a given state. *)
Definition match_at (r : regex) (s : mstate) : option mobj :=
  match m r s with
  | s' :: _ => Some (mk_mobj s s')
  | [] => None
  end.

Definition re_match (r : regex) (t : str) : option mobj :=
  match_at r (MState [] t []).

(** [re.search(r, t)]: the leftmost position with a match. *)
Fixpoint search_from (r : regex) (before after : str) : option mobj :=
  match match_at r (MState before after []) with
  | Some mo => Some mo
  | None =>
      match after with
      | [] => None
      | c :: after' => search_from r (c :: before) after'
      end
  end.

Definition re_search (r : regex) (t : str) : option mobj :=
  search_from r [] t.

(** [re.finditer(r, t)].  After a match the scan resumes at its end;
    where nothing matches it moves on by one character.  (A match that
    consumes nothing is reported and the scan moves on by one character;
    no pattern given to [finditer] in the source can match the empty
    string.) *)
Fixpoint finditer_from (r : regex) (fuel : nat) (before after : str)
  : list mobj :=
  match fuel with
  | O => []
  | S n =>
      match m r (MState before after []) with
      | s' :: _ =>
          let mo := mk_mobj (MState before after []) s' in
          if length (post s') <? length after
          then mo :: finditer_from r n (pre s') (post s')
          else match after with
               | [] => [mo]
               | c :: after' => mo :: finditer_from r n (c :: before) after'
               end
      | [] =>
          match after with
          | [] => []
          | c :: after' => finditer_from r n (c :: before) after'
          end
      end
  end.

Definition finditer (r : regex) (t : str) : list mobj :=
  finditer_from r (S (length t)) [] t.

(** Sequences and ordered alternatives, written as lists. *)
Fixpoint cat (rs : list regex) : regex :=
  match rs with
  | [] => Eps
  | [r] => r
  | r :: rs' => Cat r (cat rs')
  end.

Fixpoint alt (rs : list regex) : regex :=
  match rs with
  | [] => Cls (fun _ => false)
  | [r] => r
  | r :: rs' => Alt r (alt rs')
  end.

(** [re.IGNORECASE] on a literal character of a [str] pattern: the
    subject character matches when its lower case is the pattern's; the
    Kelvin sign, the long s and the dotted and dotless i are the only
    characters outside ASCII that fold onto an ASCII letter. *)
Definition lower (c : char) : char :=
  (if (65 <=? c) && (c <=? 90) then c + 32
   else if (c =? 304) || (c =? 305) then 105
   else if c =? 383 then 115
   else if c =? 8490 then 107
   else c)%N.

Definition chri (c : char) : regex := Cls (fun x => (lower x =? lower c)%N).

Fixpoint liti (w : str) : regex :=
  match w with
  | [] => Eps
  | c :: w' => Cat (chri c) (liti w')
  end.

(* ================================================================== *)
(** ** Errors and effects *)
(* ================================================================== *)

(** The exceptions of the model; each derives from [Exception]. *)
Inductive exn : Type :=
| URLError
| TimeoutError
| AttributeError
| UnboundLocalError
| ValueError
| IndexError
| OtherError.

Inductive res (A : Type) : Type :=
| Ok (a : A)
| Raise (e : exn).
Arguments Ok {A} a.
Arguments Raise {A} e.

(** What one [urlopen(req, timeout=5)] followed by [response.read()]
    does: it raises, or it delivers the decoded body. *)
Inductive outcome : Type :=
| Fails (e : exn)
| Body (html : str).

(** The part of the outside world the core touches: how many requests
    were issued so far, and the arguments of the [time.sleep] calls, in
    order. *)
Record world : Type := World {
  requests : nat;
  slept : list N
}.

Definition world0 : world := World 0 [].

Definition M (A : Type) : Type := world -> res A * world.

Definition ret {A} (a : A) : M A := fun w => (Ok a, w).
Definition raise {A} (e : exn) : M A := fun w => (Raise e, w).
Definition bind {A B} (c : M A) (k : A -> M B) : M B :=
  fun w => match c w with
           | (Ok a, w') => k a w'
           | (Raise e, w') => (Raise e, w')
           end.

Declare Scope py_scope.
Delimit Scope py_scope with py.
Notation "x <- c ;; k" := (bind c (fun x => k))
  (at level 61, c at next level, right associativity) : py_scope.
Open Scope py_scope.

(** [time.sleep(d)] *)
Definition sleep (d : N) : M unit :=
  fun w => (Ok tt, World (requests w) (slept w ++ [d])).

(** [mo.group(n)] where a string is needed: a group that took no part
    gives [None], which is no string, and the first string operation on
    it raises. *)
Definition group_str (mo : mobj) (n : nat) : M str :=
  match group mo n with
  | Some w => ret w
  | None => raise AttributeError
  end.

(* ================================================================== *)
(** ** The retrying fetcher: [fetch_og_image_from_url] *)
(* ================================================================== *)

Definition quotes : str := [34; 39]%N.

(** [<meta\s+property=["']og:image["']\s+content=["']([^"']+)["']|
     <meta\s+content=["']([^"']+)["']\s+property=["']og:image["']]
    with [re.IGNORECASE]. *)
Definition og_image_re : regex :=
  alt [ cat [ liti (py "<meta"); Plus greedy (Cls isspace);
              liti (py "property="); Cls (oneof quotes);
              liti (py "og:image"); Cls (oneof quotes);
              Plus greedy (Cls isspace);
              liti (py "content="); Cls (oneof quotes);
              Grp 1 (Plus greedy (Cls (noneof quotes)));
              Cls (oneof quotes) ];
        cat [ liti (py "<meta"); Plus greedy (Cls isspace);
              liti (py "content="); Cls (oneof quotes);
              Grp 2 (Plus greedy (Cls (noneof quotes)));
              Cls (oneof quotes);
              Plus greedy (Cls isspace);
              liti (py "property="); Cls (oneof quotes);
              liti (py "og:image"); Cls (oneof quotes) ] ].

(** [og_image_match.group(1) or og_image_match.group(2)] *)
Definition group1_or_group2 (mo : mobj) : option str :=
  match group mo 1 with
  | Some (c :: g) => Some (c :: g)
  | _ => group mo 2
  end.

Section Fetcher.

(** The network: what the [n]-th request of the run does for a URL. *)
Variable net : str -> nat -> outcome.

(** The [try] body up to [response.read().decode(...)]. *)
Definition urlopen_read (url : str) : M str :=
  fun w =>
    let w' := World (S (requests w)) (slept w) in
    match net url (requests w) with
    | Body html => (Ok html, w')
    | Fails e => (Raise e, w')
    end.

(** [markdown_to_ppt.py]: the loop over [range(max_retries)]. *)
Fixpoint ppt_fetch_loop (url : str) (max_retries : nat) (retry_delay : N)
         (attempts : list nat) : M (option str) :=
  match attempts with
  | [] => ret None
  | attempt :: rest =>
      fun w =>
        match urlopen_read url w with
        | (Ok html_content, w1) =>
            match re_search og_image_re html_content with
            | Some og_image_match =>
                (Ok (group1_or_group2 og_image_match), w1)
            | None => (Ok None, w1)
            end
        | (Raise _, w1) =>
            (* except (URLError, Exception) *)
            if attempt <? max_retries - 1 then
              (_ <- sleep (retry_delay * 2 ^ N.of_nat attempt) ;;
               ppt_fetch_loop url max_retries retry_delay rest) w1
            else ppt_fetch_loop url max_retries retry_delay rest w1
        end
  end.

Definition ppt_fetch_og_image_from_url (url : str) (max_retries : nat)
           (retry_delay : N) : M (option str) :=
  ppt_fetch_loop url max_retries retry_delay (seq 0 max_retries).

(** [markdown_to_pandoc.py]: [max_retries = 3], [delays = [1, 2, 4]];
    a body without the tag falls out of the [try] and the loop goes
    on to the next attempt. *)
Definition delays : list N := [1; 2; 4]%N.

Fixpoint pandoc_fetch_loop (url : str) (max_retries : nat)
         (attempts : list nat) : M (option str) :=
  match attempts with
  | [] => ret None
  | attempt :: rest =>
      fun w =>
        match urlopen_read url w with
        | (Ok html_content, w1) =>
            match re_search og_image_re html_content with
            | Some og_image_match =>
                (Ok (group1_or_group2 og_image_match), w1)
            | None => pandoc_fetch_loop url max_retries rest w1
            end
        | (Raise _, w1) =>
            if attempt <? max_retries - 1 then
              match nth_error delays attempt with
              | Some delay =>
                  (_ <- sleep delay ;;
                   pandoc_fetch_loop url max_retries rest) w1
              | None => (Raise OtherError, w1)
              end
            else pandoc_fetch_loop url max_retries rest w1
        end
  end.

Definition pandoc_fetch_og_image_from_url (url : str) : M (option str) :=
  pandoc_fetch_loop url 3 (seq 0 3).

End Fetcher.

(* ================================================================== *)
(** ** The document extractor: [parse_markdown_file] *)
(* ================================================================== *)

Record ExtractedDocument : Type := Doc {
  title : str;
  date : str;
  link : str;
  image : str;
  focal_points : list str;
  speaker_notes : str
}.

Definition rest_of_line : regex := Grp 1 (Plus lazy (Cls dot)).

(** [^# (.+?)$] *)
Definition title_re : regex :=
  cat [Bol; lit (py "# "); rest_of_line; Eol].

(** [## Article Date\n(.+?)$] and its two siblings. *)
Definition heading_re (label : str) : regex :=
  cat [lit (label ++ [nl]); rest_of_line; Eol].

Definition date_re : regex := heading_re (py "## Article Date").
Definition link_re : regex := heading_re (py "## Article Url").
Definition image_re : regex := heading_re (py "## Article Image").

(** [^\*\*Image:\*\*\s*(.+?)$] *)
Definition bold_image_re : regex :=
  cat [Bol; lit (py "**Image:**"); Rep greedy (Cls isspace);
       rest_of_line; Eol].

(** [\]\(([^)]+)\)] *)
Definition paren_url_re : regex :=
  cat [lit (py "]("); Grp 1 (Plus greedy (Cls (noneof (py ")"))));
       lit (py ")")].

(** [(https?://[^\s\]]+)] *)
Definition bare_url_re : regex :=
  Grp 1 (cat [lit (py "http"); Opt (lit (py "s")); lit (py "://");
              Plus greedy
                (Cls (fun c => negb (isspace c || oneof (py "]") c)))]).

(** [## Article Content\n((?:.|\n)+?)(?:^###|\Z)] *)
Definition focal_re : regex :=
  cat [lit (py "## Article Content" ++ [nl]);
       Grp 1 (Plus lazy (Alt (Cls dot) (chr nl)));
       Alt (cat [Bol; lit (py "###")]) EndZ].

(** [### Speaker Notes\n((?:.|\n)+?)(?:^##[^#]|^##$|\Z)] *)
Definition speaker_re : regex :=
  cat [lit (py "### Speaker Notes" ++ [nl]);
       Grp 1 (Plus lazy (Alt (Cls dot) (chr nl)));
       alt [cat [Bol; lit (py "##"); Cls (noneof (py "#"))];
            cat [Bol; lit (py "##"); Eol];
            EndZ]].

(** [m.group(1).strip() if m else ""] *)
Definition group1_strip_or_empty (mt : option mobj) : M str :=
  match mt with
  | Some mo => g <- group_str mo 1 ;; ret (strip g)
  | None => ret []
  end.

(** [if t:] on a string. *)
Definition truthy (t : str) : bool := negb (str_eqb t []).

(** The bullet of [markdown_to_ppt.py] is U+2022; the literal in
    [markdown_to_pandoc.py] is the three code points U+201A U+00C4
    U+00A2. *)
Definition ppt_bullet : str := [8226; 32]%N.
Definition pandoc_bullet : str := [8218; 196; 162; 32]%N.

(** The loop over [points_text.strip().split('\n')]. *)
Fixpoint focal_loop (bullet : str) (lines : list str) (focal : list str)
  : list str :=
  match lines with
  | [] => focal
  | line0 :: rest =>
      let line := strip line0 in
      if negb (truthy line) then focal_loop bullet rest focal
      else if startswith bullet line || startswith (py "- ") line then
        let point := strip (slice_from line 2) in
        focal_loop bullet rest (focal ++ [point])
      else if startswith (py "**") line
              && contains (py "**") (slice_from line 2) then
        focal_loop bullet rest (focal ++ [line])
      else focal_loop bullet rest focal
  end.

Definition extract_focal_points (bullet : str) (content : str)
  : M (list str) :=
  match re_search focal_re content with
  | Some focal_section =>
      points_text <- group_str focal_section 1 ;;
      ret (focal_loop bullet (split nl (strip points_text)) [])
  | None => ret []
  end.

Section Extractor.

Variable net : str -> nat -> outcome.

(** The image as the document gives it, [markdown_to_ppt.py]:
    the [## Article Image] section, else a [**Image:**] line, then
    the URL taken out of markdown link or surrounding text. *)
Definition ppt_literal_image (content : str) : M str :=
  article_image <-
    match re_search image_re content with
    | Some image_match => g <- group_str image_match 1 ;; ret (strip g)
    | None => ret []
    end ;;
  article_image <-
    (if negb (truthy article_image) then
       match re_search bold_image_re content with
       | Some image_match => g <- group_str image_match 1 ;; ret (strip g)
       | None => ret article_image
       end
     else ret article_image) ;;
  if truthy article_image then
    article_image <-
      (if contains (py "[") article_image
          && contains (py "](http") article_image then
         match re_search paren_url_re article_image with
         | Some url_match => group_str url_match 1
         | None => ret article_image
         end
       else if contains (py "![") article_image
               && contains (py "](http") article_image then
         match re_search paren_url_re article_image with
         | Some url_match => group_str url_match 1
         | None => ret article_image
         end
       else ret article_image) ;;
    match re_search bare_url_re article_image with
    | Some url_match => group_str url_match 1
    | None => ret article_image
    end
  else ret article_image.

Definition italian_header : str := py "### **Speaker Notes (Italian)**:".
Definition english_header : str := py "### **Speaker Notes (English)**:".

(** The speaker notes of [markdown_to_ppt.py], by [str.find]. *)
Definition ppt_speaker_notes (content : str) : str :=
  let italian_pos := find italian_header content 0 in
  let english_pos := find english_header content 0 in
  let speaker_notes := [] in
  let speaker_notes :=
    if negb (italian_pos =? -1)%Z then
      let italian_start := Z.to_nat italian_pos + length italian_header in
      let italian_end :=
        if negb (english_pos =? -1)%Z then english_pos
        else find (nl :: py "## ") content italian_start in
      let italian_end :=
        if (italian_end =? -1)%Z then Z.of_nat (length content)
        else italian_end in
      let italian_notes :=
        strip (slice content italian_start (Z.to_nat italian_end)) in
      if truthy italian_notes then
        speaker_notes ++ py "**Italian Notes:**" ++ [nl] ++ italian_notes
                      ++ [nl; nl]
      else speaker_notes
    else speaker_notes in
  let speaker_notes :=
    if negb (english_pos =? -1)%Z then
      let english_start := Z.to_nat english_pos + length english_header in
      let english_end := find (nl :: py "## ") content english_start in
      let english_end :=
        if (english_end =? -1)%Z then Z.of_nat (length content)
        else english_end in
      let english_notes :=
        strip (slice content english_start (Z.to_nat english_end)) in
      if truthy english_notes then
        speaker_notes ++ py "**English Notes:**" ++ [nl] ++ english_notes
      else speaker_notes
    else speaker_notes in
  strip speaker_notes.

(** [markdown_to_ppt.py], from the text [f.read()] returned. *)
Definition ppt_parse_markdown_file (content : str) : M ExtractedDocument :=
  title <-
    match re_search title_re content with
    | Some title_match => group_str title_match 1
    | None => ret (py "Untitled")
    end ;;
  article_date <- group1_strip_or_empty (re_search date_re content) ;;
  article_link <- group1_strip_or_empty (re_search link_re content) ;;
  article_image <- ppt_literal_image content ;;
  article_image <-
    (if truthy article_link then
       fetched_image <- ppt_fetch_og_image_from_url net article_link 3 1 ;;
       match fetched_image with
       | Some (c :: u) => ret (c :: u)
       | _ => ret article_image
       end
     else ret article_image) ;;
  focal_points <- extract_focal_points ppt_bullet content ;;
  ret (Doc title article_date article_link article_image focal_points
           (ppt_speaker_notes content)).

(** [markdown_to_pandoc.py]. *)
Definition pandoc_parse_markdown_file (content : str)
  : M ExtractedDocument :=
  title <-
    match re_search title_re content with
    | Some title_match => group_str title_match 1
    | None => ret (py "Untitled")
    end ;;
  article_date <- group1_strip_or_empty (re_search date_re content) ;;
  article_link <- group1_strip_or_empty (re_search link_re content) ;;
  article_image <- group1_strip_or_empty (re_search image_re content) ;;
  article_image <-
    (if truthy article_link then
       fetched_image <- pandoc_fetch_og_image_from_url net article_link ;;
       match fetched_image with
       | Some (c :: u) => ret (c :: u)
       | _ => ret article_image
       end
     else ret article_image) ;;
  focal_points <- extract_focal_points pandoc_bullet content ;;
  speaker_notes <-
    match re_search speaker_re content with
    | Some speaker_section =>
        g <- group_str speaker_section 1 ;; ret (strip g)
    | None => ret []
    end ;;
  ret (Doc title article_date article_link article_image focal_points
           speaker_notes).

End Extractor.

(* ================================================================== *)
(** ** The inline formatter: [parse_markdown_formatting] *)
(* ================================================================== *)

(** A run of a paragraph: the text that was assigned to it, and what
    its character properties say after the function has set them (bold,
    italic, the code font, struck through, the target of its
    hyperlink). *)
Record run : Type := Run {
  r_text : str;
  r_bold : bool;
  r_italic : bool;
  r_code : bool;
  r_strike : bool;
  r_link : option str
}.

Definition paragraph := list run.

Definition plain_run (t : str) : run := Run t false false false false None.

(** The characters a text of the presentation may hold.  python-pptx
    hands the text of a run to lxml, which refuses a string that holds
    U+FFFE, U+FFFF or a surrogate code point ([ValueError]; the control
    characters below U+0020 are written in escaped form by python-pptx
    and are not refused). *)
Definition xml_char (c : char) : bool :=
  negb (((55296 <=? c) && (c <=? 57343)) || (c =? 65534) || (c =? 65535))%N.

Definition xml_text (t : str) : bool := forallb xml_char t.

(** [run.text = t], and [p.text = t] for a paragraph: the text is
    stored, or the assignment raises. *)
Definition set_text (t : str) : res str :=
  if xml_text t then Ok t else Raise ValueError.

(** [run.font.strikethrough = True].  The [Font] of python-pptx has no
    property of that name: the statement sets an attribute on the
    [Font] object that [run.font] has just made for the occasion, and
    the run stays as it was. *)
Definition set_font_strikethrough (r : run) : run := r.

(** [run.hyperlink.address = u] *)
Definition set_hyperlink_address (r : run) (u : str) : run :=
  Run (r_text r) (r_bold r) (r_italic r) (r_code r) (r_strike r) (Some u).

(** The characters the plain alternative excludes: [*_`~[]. *)
Definition delims : str := py "*_`~[".

(** [(\*\*[^*]+\*\*|_[^_]+_|\*[^*]+\*|`[^`]+`|~~[^~]+~~|
      \[[^\]]+\]\([^)]+\)|[^*_`~\[](?:[^*_`~\[]*[^*_`~\[\s])?)] *)
Definition bold_re : regex :=
  cat [lit (py "**"); Plus greedy (Cls (noneof (py "*"))); lit (py "**")].
Definition under_re : regex :=
  cat [lit (py "_"); Plus greedy (Cls (noneof (py "_"))); lit (py "_")].
Definition star_re : regex :=
  cat [lit (py "*"); Plus greedy (Cls (noneof (py "*"))); lit (py "*")].
Definition code_re : regex :=
  cat [lit (py "`"); Plus greedy (Cls (noneof (py "`"))); lit (py "`")].
Definition strike_re : regex :=
  cat [lit (py "~~"); Plus greedy (Cls (noneof (py "~"))); lit (py "~~")].
Definition link_alt_re : regex :=
  cat [lit (py "["); Plus greedy (Cls (noneof (py "]"))); lit (py "](");
       Plus greedy (Cls (noneof (py ")"))); lit (py ")")].
Definition plain_re : regex :=
  cat [Cls (noneof delims);
       Opt (cat [Rep greedy (Cls (noneof delims));
                 Cls (fun c => negb (oneof delims c || isspace c))])].

Definition inline_re : regex :=
  Grp 1 (alt [bold_re; under_re; star_re; code_re; strike_re;
              link_alt_re; plain_re]).

(** [\[([^\]]+)\]\(([^)]+)\)] *)
Definition link_re2 : regex :=
  cat [lit (py "["); Grp 1 (Plus greedy (Cls (noneof (py "]"))));
       lit (py "](");
       Grp 2 (Plus greedy (Cls (noneof (py ")")))); lit (py ")")].

Inductive token_type : Type := plain | markdown.
Definition token : Type := token_type * str.

(** The loop over [re.finditer(pattern, line)]. *)
Fixpoint tokens_loop (line : str) (ms : list mobj) (last_end : nat)
         (tokens : list token) : list token * nat :=
  match ms with
  | [] => (tokens, last_end)
  | mt :: ms' =>
      let tokens :=
        if last_end <? m_start mt
        then tokens ++ [(plain, slice line last_end (m_start mt))]
        else tokens in
      tokens_loop line ms' (m_end mt) (tokens ++ [(markdown, m_text mt)])
  end.

Definition tokenize (line : str) : list token :=
  let '(tokens, last_end) := tokens_loop line (finditer inline_re line) 0 [] in
  let tokens :=
    if last_end <? length line
    then tokens ++ [(plain, slice_from line last_end)]
    else tokens in
  match tokens with
  | [] => [(plain, line)]
  | _ => tokens
  end.

Definition is_bold (t : str) : bool :=
  startswith (py "**") t && endswith (py "**") t.
Definition is_italic (t : str) : bool :=
  (startswith (py "_") t && endswith (py "_") t)
  || (startswith (py "*") t && endswith (py "*") t
      && negb (startswith (py "**") t)).
Definition is_code (t : str) : bool :=
  startswith (py "`") t && endswith (py "`") t.
Definition is_strikethrough (t : str) : bool :=
  startswith (py "~~") t && endswith (py "~~") t.
Definition is_link (t : str) : bool :=
  startswith (py "[") t && contains (py "](") t.

(** The body of the loop over the tokens of a line.  [link_url] is the
    local variable of that name: unbound until a link token binds it. *)
Definition process_token (link_url : option str) (tok : token)
  : res (option run * option str) :=
  let '(ty, t) := tok in
  match ty with
  | plain =>
      if blank t then Ok (None, link_url)
      else
        match set_text t with
        | Raise e => Raise e
        | Ok text => Ok (Some (plain_run text), link_url)
        end
  | markdown =>
      let cleaned : res (str * option str) :=
        if is_bold t then Ok (slice_mid t 2 2, link_url)
        else if is_italic t then Ok (slice_mid t 1 1, link_url)
        else if is_code t then Ok (slice_mid t 1 1, link_url)
        else if is_strikethrough t then Ok (slice_mid t 2 2, link_url)
        else if is_link t then
          match re_match link_re2 t with
          | Some link_match =>
              match group link_match 1, group link_match 2 with
              | Some g1, Some g2 => Ok (g1, Some g2)
              | _, _ => Raise AttributeError
              end
          | None => Ok (t, Some [])
          end
        else Ok (t, link_url) in
      match cleaned with
      | Raise e => Raise e
      | Ok (clean_text, link_url) =>
          match set_text clean_text with
          | Raise e => Raise e
          | Ok text =>
              let run :=
                Run text (is_bold t) (is_italic t) (is_code t) false None in
              let run :=
                if is_strikethrough t then set_font_strikethrough run
                else run in
              if is_link t then
                match link_url with
                | Some u => Ok (Some (set_hyperlink_address run u), link_url)
                | None => Raise UnboundLocalError
                end
              else Ok (Some run, link_url)
          end
      end
  end.

Fixpoint runs_loop (link_url : option str) (tokens : list token)
         (p : paragraph) : res (paragraph * option str) :=
  match tokens with
  | [] => Ok (p, link_url)
  | tok :: rest =>
      match process_token link_url tok with
      | Raise e => Raise e
      | Ok (Some r, link_url') => runs_loop link_url' rest (p ++ [r])
      | Ok (None, link_url') => runs_loop link_url' rest p
      end
  end.

(** The loop over the lines.  The frame is the list of its paragraphs;
    [text_frame.clear()] leaves one empty paragraph. *)
Fixpoint lines_loop (lines : list str) (first_paragraph : bool)
         (link_url : option str) (frame : list paragraph)
  : res (list paragraph) :=
  match lines with
  | [] => Ok frame
  | line :: rest =>
      if blank line then
        if negb first_paragraph
        then lines_loop rest first_paragraph link_url (frame ++ [[]])
        else lines_loop rest first_paragraph link_url frame
      else
        match runs_loop link_url (tokenize line) [] with
        | Raise e => Raise e
        | Ok (runs, link_url') =>
            if first_paragraph then
              match frame with
              | p0 :: ps => lines_loop rest false link_url' ((p0 ++ runs) :: ps)
              | [] => Raise OtherError
              end
            else lines_loop rest false link_url' (frame ++ [runs])
        end
  end.

Definition parse_markdown_formatting (text_with_markdown : str)
  : res (list paragraph) :=
  lines_loop (split nl text_with_markdown) true None [[]].

(** The spans of a formatted text, in order. *)
Definition spans (frame : list paragraph) : list run := concat frame.

(* ================================================================== *)
(** ** The cover slide *)
(* ================================================================== *)

Definition changelog_index : str := py "https://github.blog/changelog/".

(** [os.path.basename] *)
Definition basename (p : str) : str := last (split 47%N p) [].

(** [create_cover_slide_markdown] of [markdown_to_pandoc.py]. *)
Definition create_cover_slide_markdown (title image_url date : str) : str :=
  let markdown := [] in
  let markdown :=
    if truthy image_url && negb (str_eqb image_url changelog_index) then
      let markdown := markdown ++ py "# " ++ title ++ [nl; nl] in
      markdown ++ py "![](./media/" ++ basename image_url
               ++ py "){.background}" ++ [nl; nl]
    else markdown ++ py "# " ++ title ++ [nl; nl] in
  markdown ++ py "---" ++ [nl; nl].

(** What [create_cover_slide] of [markdown_to_ppt.py] puts on the
    slide: the downloaded picture if any, the overlay, the title and
    the notes. *)
Record slide : Type := Slide {
  sl_picture : option str;
  sl_overlay : bool;
  sl_title : str;
  sl_notes : list paragraph
}.

(** A call of a function that does not touch the world. *)
Definition lift {A : Type} (r : res A) : M A :=
  match r with
  | Ok a => ret a
  | Raise e => raise e
  end.

(** [prs.slide_layouts[i]] for a presentation with [layouts] slide
    layouts. *)
Definition slide_layout (layouts i : nat) : M nat :=
  if i <? layouts then ret i else raise IndexError.

Section CoverSlide.

Variable net : str -> nat -> outcome.

(** Whether [slide.shapes.add_picture] takes the downloaded bytes for a
    picture; it raises when it finds no image in them. *)
Variable is_image : str -> bool.

Definition add_picture (image_data : str) : M str :=
  if is_image image_data then ret image_data else raise OtherError.

(** The loop over [range(max_retries)]: the request and [add_picture]
    are both inside the [try], and [except Exception] takes whatever
    either of them raises. *)
Fixpoint cover_image_loop (image_url : str) (max_retries : nat)
         (retry_delay : N) (attempts : list nat) : M (option str) :=
  match attempts with
  | [] => ret None
  | attempt :: rest =>
      fun w =>
        match (image_data <- urlopen_read net image_url ;;
               add_picture image_data) w with
        | (Ok picture, w1) => (Ok (Some picture), w1)
        | (Raise _, w1) =>
            if attempt <? max_retries - 1 then
              (_ <- sleep (retry_delay * 2 ^ N.of_nat attempt) ;;
               cover_image_loop image_url max_retries retry_delay rest) w1
            else cover_image_loop image_url max_retries retry_delay rest w1
        end
  end.

(** [create_cover_slide], for a presentation [prs] with [layouts] slide
    layouts. *)
Definition create_cover_slide (title image_url : str) (layouts : nat)
           (speaker_notes : str) (max_retries : nat) (retry_delay : N)
  : M slide :=
  _ <- slide_layout layouts 3 ;;
  picture <-
    (if truthy image_url && negb (str_eqb image_url changelog_index)
     then cover_image_loop image_url max_retries retry_delay
                           (seq 0 max_retries)
     else ret None) ;;
  let image_added := match picture with Some _ => true | None => false end in
  title_text <- lift (set_text title) ;;
  notes <-
    (if truthy speaker_notes then
       lift (parse_markdown_formatting speaker_notes)
     else ret [[]]) ;;
  ret (Slide picture image_added title_text notes).

End CoverSlide.

(* ================================================================== *)
(** ** Notions the statements use *)
(* ================================================================== *)

(** [s'] is [s] after reading [w]. *)
Definition reads (s : mstate) (w : str) (s' : mstate) : Prop :=
  post s = w ++ post s' /\ pre s' = rev w ++ pre s.

(** [s] moved on by [j] characters. *)
Definition adv (s : mstate) (j : nat) : mstate :=
  MState (rev (firstn j (post s)) ++ pre s) (skipn j (post s)) (caps s).

(** The longest prefix within a class. *)
Fixpoint takewhile (p : char -> bool) (t : str) : str :=
  match t with
  | c :: t' => if p c then c :: takewhile p t' else []
  | [] => []
  end.

(** A pattern without groups. *)
Fixpoint groups_free (r : regex) : bool :=
  match r with
  | Cat a b | Alt a b => groups_free a && groups_free b
  | Rep _ r' => groups_free r'
  | Grp _ _ => false
  | _ => true
  end.

(** Every match of the pattern sets group [n]. *)
Fixpoint sets_group (n : nat) (r : regex) : bool :=
  match r with
  | Cat a b => sets_group n a || sets_group n b
  | Alt a b => sets_group n a && sets_group n b
  | Grp k r' => (k =? n) || sets_group n r'
  | _ => false
  end.

(** The total time slept. *)
Definition total_sleep (w : world) : N := fold_right N.add 0%N (slept w).

(** An attempt that raises, and one that delivers a page without the
    meta tag. *)
Definition fails_at (net : str -> nat -> outcome) (url : str) (n : nat)
  : Prop :=
  exists e, net url n = Fails e.

Definition tagless_at (net : str -> nat -> outcome) (url : str) (n : nat)
  : Prop :=
  exists html, net url n = Body html /\ re_search og_image_re html = None.

(** The retry sentence of the specification, for one network and URL:
    nothing is returned only after three attempts and a total wait of
    1 + 2 + 4. *)
Definition waits_seven (fetch : M (option str)) : Prop :=
  forall w', fetch world0 = (Ok None, w') ->
             requests w' = 3 /\ total_sleep w' = (1 + 2 + 4)%N.

(** A network on which every request fails. *)
Definition net_down : str -> nat -> outcome := fun _ _ => Fails URLError.

(** A network that serves a page without any meta tag. *)
Definition net_blank : str -> nat -> outcome := fun _ _ => Body [].

Definition example_url : str := py "https://github.blog/changelog/x".

(** The ways a repeated class matches: every length up to the longest
    stretch within the class, longest first when greedy. *)
Definition tries (g : bool) (k : nat) : list nat :=
  if g then rev (seq 0 (S k)) else seq 0 (S k).

(** A document whose image section holds the changelog index URL. *)
Definition doc_changelog_image : str :=
  py "## Article Image" ++ [nl] ++ changelog_index.

(** The text of group 1 of a search result. *)
Definition group1 (mt : option mobj) : str :=
  match mt with
  | Some mo => match group mo 1 with Some g => g | None => [] end
  | None => []
  end.

(** The fields as functions of the text. *)
Definition title_of (content : str) : str :=
  match re_search title_re content with
  | Some mo => group1 (Some mo)
  | None => py "Untitled"
  end.

Definition section_of (r : regex) (content : str) : str :=
  strip (group1 (re_search r content)).

Definition focal_of (bullet : str) (content : str) : list str :=
  match re_search focal_re content with
  | Some mo => focal_loop bullet (split nl (strip (group1 (Some mo)))) []
  | None => []
  end.

(** A computation that neither raises nor touches the world. *)
Definition pure {A : Type} (c : M A) (v : A) : Prop :=
  forall w, c w = (Ok v, w).

(** [fetched or literal]: what [if fetched_image: article_image =
    fetched_image] leaves in [article_image]. *)
Definition fetched_or (fetched : option str) (literal : str) : str :=
  match fetched with
  | Some (c :: u) => c :: u
  | _ => literal
  end.

(** Where [^] and [$] hold under [re.MULTILINE]. *)
Definition at_bol (before : str) : bool :=
  match before with
  | [] => true
  | c :: _ => (c =? nl)%N
  end.

Definition at_eol (after : str) : bool :=
  match after with
  | [] => true
  | c :: _ => (c =? nl)%N
  end.

(** A level-1 heading line: one [#], a space, and some text. *)
Definition is_h1 (l : str) : bool :=
  startswith (py "# ") l && (2 <? length l).

(** The first level-1 heading line of a document. *)
Definition first_h1 (content : str) : option str :=
  List.find is_h1 (split nl content).

(** A document whose heading has a trailing space. *)
Definition doc_padded_title : str := py "# Hello ".

(** The search for the title and the first heading line agree. *)
Definition title_found (o : option mobj) (ls : list str) : Prop :=
  match List.find is_h1 ls with
  | Some l => exists mo, o = Some mo /\ group mo 1 = Some (skipn 2 l)
  | None => o = None
  end.


(** A pattern whose every match reads at least one character. *)
Fixpoint consuming (r : regex) : bool :=
  match r with
  | Cls _ => true
  | Cat a b => consuming a || consuming b
  | Alt a b => consuming a && consuming b
  | Grp _ r' => consuming r'
  | _ => false
  end.

(** A pattern whose groups never capture the empty string. *)
Fixpoint groups_nonempty (r : regex) : bool :=
  match r with
  | Cat a b | Alt a b => groups_nonempty a && groups_nonempty b
  | Rep _ r' => groups_nonempty r'
  | Grp _ r' => consuming r' && groups_nonempty r'
  | _ => true
  end.

(** A document with a link and a literal image, and a network that
    serves a page with an og:image tag. *)
Definition doc_link_and_image : str :=
  py "## Article Url" ++ [nl] ++ py "https://github.blog/changelog/x" ++ [nl]
  ++ py "## Article Image" ++ [nl] ++ py "https://example.org/literal.png".

Definition page_with_og_image : str :=
  py "<meta property='og:image' content='https://example.org/fetched.png'>".

Definition net_og : str -> nat -> outcome := fun _ _ => Body page_with_og_image.

(** The groups captured by a match are all non-empty. *)
Definition captured_nonempty (e : list (nat * str)) : Prop :=
  Forall (fun kw => snd kw <> []) e.

(** What both scripts extract from [doc_link_and_image] over [net_og]. *)
Definition extracted_link_and_image : ExtractedDocument :=
  Doc (py "Untitled") [] (py "https://github.blog/changelog/x")
      (py "https://example.org/fetched.png") [] [].

(** The headings the extractor looks for. *)
Definition date_heading : str := py "## Article Date" ++ [nl].
Definition link_heading : str := py "## Article Url" ++ [nl].
Definition image_heading : str := py "## Article Image" ++ [nl].
Definition bold_image_label : str := py "**Image:**".
Definition content_heading : str := py "## Article Content" ++ [nl].
Definition notes_heading : str := py "### Speaker Notes" ++ [nl].

(** The text between the [## Article Content] heading and the next
    line that begins with [###] (or the end), as the pattern captures
    it; empty when there is no such heading. *)
Definition content_block (content : str) : str :=
  group1 (re_search focal_re content).

(** The shapes of a line of the block, after trimming: a bullet line
    begins with the bullet or a hyphen and a space; a bold lead-in
    line begins with [**] and has another [**] further on. *)
Definition is_bullet_line (bullet l : str) : bool :=
  startswith bullet (strip l) || startswith (py "- ") (strip l).

Definition is_bold_line (l : str) : bool :=
  startswith (py "**") (strip l)
  && contains (py "**") (slice_from (strip l) 2).

(** What one line of the block contributes. *)
Definition focal_of_line (bullet l : str) : list str :=
  if is_bullet_line bullet l then [strip (slice_from (strip l) 2)]
  else if is_bold_line l then [strip l]
  else [].

(** A line that begins, once trimmed, with the bullet character of
    either script. *)
Definition has_bullet_char (l : str) : bool :=
  startswith ppt_bullet (strip l) || startswith pandoc_bullet (strip l).

(** A content block with one bullet line and one bold lead-in line. *)
Definition doc_bullet_and_bold : str :=
  py "## Article Content" ++ [nl] ++ py "- a" ++ [nl] ++ py "**B**: c".

(** The scenario document of the specification. *)
Definition doc_scenario : str :=
  py "# Hello" ++ [nl] ++ py "## Article Date" ++ [nl] ++ py "2025-01-01"
  ++ [nl] ++ py "## Article Content" ++ [nl] ++ py "- point one" ++ [nl]
  ++ py "- point two" ++ [nl] ++ py "### Speaker Notes" ++ [nl]
  ++ py "Note body".

(** A text of one line without any of the delimiter characters. *)
Definition plain_text (t : str) : bool := forallb (noneof (nl :: delims)) t.

(** The shapes of the texts the inline pattern matches: a marked
    stretch between its delimiters, a link, or a plain stretch. *)
Inductive shape : str -> Prop :=
| shape_bold x :
    x <> [] -> forallb (noneof (py "*")) x = true ->
    shape (py "**" ++ x ++ py "**")
| shape_under x :
    x <> [] -> forallb (noneof (py "_")) x = true ->
    shape (py "_" ++ x ++ py "_")
| shape_star x :
    x <> [] -> forallb (noneof (py "*")) x = true ->
    shape (py "*" ++ x ++ py "*")
| shape_code x :
    x <> [] -> forallb (noneof (py "`")) x = true ->
    shape (py "`" ++ x ++ py "`")
| shape_strike x :
    x <> [] -> forallb (noneof (py "~")) x = true ->
    shape (py "~~" ++ x ++ py "~~")
| shape_link x u :
    x <> [] -> forallb (noneof (py "]")) x = true ->
    u <> [] -> forallb (noneof (py ")")) u = true ->
    shape (py "[" ++ x ++ py "](" ++ u ++ py ")")
| shape_plain w :
    w <> [] -> forallb (noneof delims) w = true -> shape w.

(** A piece of the source text and the span it is rendered as: the
    span's text is the piece without its markers, the style is the one
    the markers stand for (none for [~~], whose style is never set on
    the run). *)
Inductive marked : str -> run -> Prop :=
| marked_plain t : marked t (plain_run t)
| marked_bold x :
    marked (py "**" ++ x ++ py "**") (Run x true false false false None)
| marked_under x :
    marked (py "_" ++ x ++ py "_") (Run x false true false false None)
| marked_star x :
    marked (py "*" ++ x ++ py "*") (Run x false true false false None)
| marked_code x :
    marked (py "`" ++ x ++ py "`") (Run x false false true false None)
| marked_strike x :
    marked (py "~~" ++ x ++ py "~~") (Run x false false false false None)
| marked_link x u :
    marked (py "[" ++ x ++ py "](" ++ u ++ py ")")
           (Run x false false false false (Some u)).

(** What a token is rendered as: a token of the fall-through kind
    literally and without style, a matched one as its marked text. *)
Definition emitted (tok : token) (r : run) : Prop :=
  match tok with
  | (plain, w) => r = plain_run w
  | (markdown, w) => marked w r
  end.

(** The tokens of a line that is not blank. *)
Definition token_ok (tok : token) : Prop :=
  match tok with
  | (plain, w) => w <> [] /\ forallb (oneof delims) w = true
  | (markdown, w) => shape w
  end.

(** The lines that are rendered. *)
Definition rendered_lines (text : str) : list str :=
  filter (fun l => negb (blank l)) (split nl text).

(** A token of the scan of [line] with pattern [r]: a token between
    matches is a non-empty stretch of characters of the class [G]
    (the characters at which nothing matches), a matched token is the
    text of a match of [r] somewhere in [line]. *)
Definition scan_token_ok (r : regex) (G : char -> bool) (line : str)
           (tok : token) : Prop :=
  match tok with
  | (plain, w) => w <> [] /\ forallb G w = true
  | (markdown, w) =>
      exists s s', In s' (m r s) /\ reads s w s' /\
                   line = rev (pre s) ++ post s
  end.


(** A text of two lines with a blank line between them. *)
Definition doc_inline_sample : str :=
  py "Use **bold** and _italic_" ++ [nl; nl]
  ++ py "See [the docs](https://docs.github.com) ~~soon~~".

(** How often a character occurs. *)
Definition occurrences (c : char) (t : str) : nat := count_occ N.eq_dec t c.


(* ================================================================== *)
(** ** Removing the bold markers: [convert_markdown_to_pptx_format] *)
(* ================================================================== *)

(** [t.replace(old, new)].  The occurrences of [old] are taken from the
    left and do not overlap; [skip] counts the characters of the
    occurrence just found that are still to be passed over.  An empty
    [old] occurs before every character and at the end. *)
Fixpoint replace_from (old new : str) (skip : nat) (t : str) : str :=
  match t with
  | [] => []
  | c :: t' =>
      match skip with
      | S k => replace_from old new k t'
      | O =>
          if startswith old t
          then new ++ replace_from old new (length old - 1) t'
          else c :: replace_from old new 0 t'
      end
  end.

Definition replace (old new t : str) : str :=
  match old with
  | [] => new ++ flat_map (fun c => c :: new) t
  | _ :: _ => replace_from old new 0 t
  end.

(** [markdown_to_ppt.py]: [return text.replace('**', '')] *)
Definition convert_markdown_to_pptx_format (text : str) : str :=
  replace (py "**") [] text.

(** The asterisk, and a text with its asterisks left out. *)
Definition star : char := 42%N.

Definition without_stars (t : str) : str :=
  filter (fun c => negb (c =? star)%N) t.

(* ================================================================== *)
(** ** Selecting the files of a period: [filter_files_by_date] *)
(* ================================================================== *)

(** The class [\d] of a [str] pattern: the decimal digits of Unicode
    (general category Nd; the table is that of Unicode 14.0), given by
    the first and the last code point of each stretch. *)
Definition decimal_digits : list (N * N) :=
  [(48, 57); (1632, 1641); (1776, 1785); (1984, 1993); (2406, 2415);
   (2534, 2543); (2662, 2671); (2790, 2799); (2918, 2927); (3046, 3055);
   (3174, 3183); (3302, 3311); (3430, 3439); (3558, 3567); (3664, 3673);
   (3792, 3801); (3872, 3881); (4160, 4169); (4240, 4249); (6112, 6121);
   (6160, 6169); (6470, 6479); (6608, 6617); (6784, 6793); (6800, 6809);
   (6992, 7001); (7088, 7097); (7232, 7241); (7248, 7257); (42528, 42537);
   (43216, 43225); (43264, 43273); (43472, 43481); (43504, 43513);
   (43600, 43609); (44016, 44025); (65296, 65305); (66720, 66729);
   (68912, 68921); (69734, 69743); (69872, 69881); (69942, 69951);
   (70096, 70105); (70384, 70393); (70736, 70745); (70864, 70873);
   (71248, 71257); (71360, 71369); (71472, 71481); (71904, 71913);
   (72016, 72025); (72784, 72793); (73040, 73049); (73120, 73129);
   (92768, 92777); (92864, 92873); (93008, 93017); (120782, 120831);
   (123200, 123209); (123632, 123641); (125264, 125273);
   (130032, 130041)]%N.

Definition digit (c : char) : bool :=
  existsb (fun r => (fst r <=? c) && (c <=? snd r))%N decimal_digits.

Definition hyphen : char := 45%N.

(** [(\d{4}-\d{2}-\d{2})] *)
Definition file_date_re : regex :=
  Grp 1 (cat [Cls digit; Cls digit; Cls digit; Cls digit; chr hyphen;
              Cls digit; Cls digit; chr hyphen; Cls digit; Cls digit]).

(** What [datetime.strptime(_, '%Y-%m-%d')] returns: a [datetime] at
    midnight, so that its date decides a comparison. *)
Record datetime : Type := DateTime {
  dt_year : N;
  dt_month : N;
  dt_day : N
}.

(** [a < b] *)
Definition dt_ltb (a b : datetime) : bool :=
  ((dt_year a <? dt_year b)
   || (dt_year a =? dt_year b)
      && ((dt_month a <? dt_month b)
          || (dt_month a =? dt_month b) && (dt_day a <? dt_day b)))%N.

(** A bound of the period as the loop body meets it: not given, given
    and rejected by [strptime], or a date. *)
Inductive bound : Type :=
| Unbounded
| Invalid
| At (d : datetime).

Section FilterFiles.

(** The files are [Path] objects, of which only [.name] is used. *)
Variable path : Type.
Variable name : path -> str.

(** [datetime.strptime(_, '%Y-%m-%d')]; [None] when it raises
    [ValueError]. *)
Variable strptime : str -> option datetime.

(** [if date_from: from_datetime = datetime.strptime(date_from, ...)]
    on an argument that is [None] or a string: [None] and the empty
    string are not parsed. *)
Definition parse_bound (a : option str) : bound :=
  match a with
  | Some (c :: t) =>
      match strptime (c :: t) with
      | Some d => At d
      | None => Invalid
      end
  | _ => Unbounded
  end.

(** The loop over [files]; [continue] is the rest of the loop with
    [filtered] as it is.  A [ValueError] inside the [try] is caught and
    the loop goes on to the next file.  [upper] is the second half of
    the [try], from [if date_to:] on, which is reached only when the
    lower bound lets the file through.  (A group that took no part
    would hand [None] to [strptime], whose [TypeError] is not
    caught.) *)
Fixpoint filter_loop (files : list path) (date_from date_to : option str)
         (filtered : list path) : res (list path) :=
  match files with
  | [] => Ok filtered
  | file_path :: rest =>
      let continue := filter_loop rest date_from date_to filtered in
      match re_match file_date_re (name file_path) with
      | None => continue
      | Some mt =>
          match group mt 1 with
          | None => Raise OtherError
          | Some file_date =>
              match strptime file_date with
              | None => continue
              | Some file_datetime =>
                  let upper :=
                    match parse_bound date_to with
                    | Invalid => continue
                    | At to_datetime =>
                        if dt_ltb to_datetime file_datetime then continue
                        else filter_loop rest date_from date_to
                                         (filtered ++ [file_path])
                    | Unbounded =>
                        filter_loop rest date_from date_to
                                    (filtered ++ [file_path])
                    end in
                  match parse_bound date_from with
                  | Invalid => continue
                  | At from_datetime =>
                      if dt_ltb file_datetime from_datetime then continue
                      else upper
                  | Unbounded => upper
                  end
              end
          end
      end
  end.

Definition filter_files_by_date (files : list path)
           (date_from date_to : option str) : res (list path) :=
  filter_loop files date_from date_to [].

End FilterFiles.

(** [a <= b] on dates. *)
Definition dt_leb (a b : datetime) : bool :=
  ((dt_year a <? dt_year b)
   || (dt_year a =? dt_year b)
      && ((dt_month a <? dt_month b)
          || (dt_month a =? dt_month b) && (dt_day a <=? dt_day b)))%N.

(** A text of the form dddd-dd-dd. *)
Definition date_shaped (t : str) : bool :=
  match t with
  | [y1; y2; y3; y4; h1; m1; m2; h2; d1; d2] =>
      digit y1 && digit y2 && digit y3 && digit y4 && (hyphen =? h1)%N
      && digit m1 && digit m2 && (hyphen =? h2)%N && digit d1 && digit d2
  | _ => false
  end.

(** The date a file name begins with: its first ten characters, when
    they have the form of a date and are one. *)
Definition date_of_name (strptime : str -> option datetime) (n : str)
  : option datetime :=
  if date_shaped (firstn 10 n) then strptime (firstn 10 n) else None.

(** A date within a period, both ends included; no date is within a
    period one of whose ends is no date. *)
Definition after (lo : bound) (d : datetime) : bool :=
  match lo with
  | Unbounded => true
  | Invalid => false
  | At f => dt_leb f d
  end.

Definition before (hi : bound) (d : datetime) : bool :=
  match hi with
  | Unbounded => true
  | Invalid => false
  | At t => dt_leb d t
  end.

Definition in_period (strptime : str -> option datetime)
           (date_from date_to : option str) (n : str) : bool :=
  match date_of_name strptime n with
  | Some d => after (parse_bound strptime date_from) d
              && before (parse_bound strptime date_to) d
  | None => false
  end.

(** A calendar for the examples: it knows three days of September
    2025 and rejects everything else. *)
Definition strptime_september (t : str) : option datetime :=
  if str_eqb t (py "2025-09-01") then Some (DateTime 2025 9 1)
  else if str_eqb t (py "2025-09-15") then Some (DateTime 2025 9 15)
  else if str_eqb t (py "2025-09-30") then Some (DateTime 2025 9 30)
  else None.

Definition september_files : list str :=
  [py "2025-09-01-a.md"; py "2025-09-15-b.md"; py "2025-09-30-c.md";
   py "2025-09-31-d.md"; py "notes.md"].

(* ================================================================== *)
(** ** The focal points of the content slide:
       [format_focal_points_text] *)
(* ================================================================== *)

(** The number of groups of a pattern. *)
Fixpoint ngroups (r : regex) : nat :=
  match r with
  | Cat a b | Alt a b => Nat.max (ngroups a) (ngroups b)
  | Rep _ r' => ngroups r'
  | Grp n r' => Nat.max n (ngroups r')
  | _ => 0
  end.

(** [re.split(r, t)]: the stretches between the matches, and after
    each stretch the groups of the match that ends it ([None] for a
    group that took no part). *)
Fixpoint split_loop (r : regex) (t : str) (ms : list mobj) (last_end : nat)
  : list (option str) :=
  match ms with
  | [] => [Some (slice_from t last_end)]
  | mt :: ms' =>
      Some (slice t last_end (m_start mt))
      :: List.map (group mt) (seq 1 (ngroups r))
      ++ split_loop r t ms' (m_end mt)
  end.

Definition re_split (r : regex) (t : str) : list (option str) :=
  split_loop r t (finditer r t) 0.

(** [(\*\*[^*]+\*\*|_[^_]+_|\*[^*]+\*|`[^`]+`|~~[^~]+~~)] *)
Definition focal_inline_re : regex :=
  Grp 1 (alt [bold_re; under_re; star_re; code_re; strike_re]).

(** The run a part of a focal point becomes. *)
Definition focal_run (part : str) : res run :=
  let clean_text :=
    if is_bold part then slice_mid part 2 2
    else if is_italic part then slice_mid part 1 1
    else if is_code part then slice_mid part 1 1
    else if is_strikethrough part then slice_mid part 2 2
    else part in
  match set_text clean_text with
  | Raise e => Raise e
  | Ok text =>
      let r :=
        Run text (is_bold part) (is_italic part) (is_code part) false None in
      Ok (if is_strikethrough part then set_font_strikethrough r else r)
  end.

(** The loop over the parts; [if not part: continue] passes over
    [None] and the empty string. *)
Fixpoint parts_loop (parts : list (option str)) (p : paragraph)
  : res paragraph :=
  match parts with
  | [] => Ok p
  | Some (c :: part) :: rest =>
      match focal_run (c :: part) with
      | Raise e => Raise e
      | Ok r => parts_loop rest (p ++ [r])
      end
  | _ :: rest => parts_loop rest p
  end.

(** The body of the loop over the focal points.  [p.text = "• "] makes
    the bullet the one run of the paragraph; the run added for the
    whole point ([run.text = point]) is cleared again before the parts
    are added. *)
Definition focal_paragraph (point : str) : res paragraph :=
  let p := [plain_run ppt_bullet] in
  match set_text point with
  | Raise e => Raise e
  | Ok text =>
      let p := p ++ [plain_run text] in
      let parts := re_split focal_inline_re point in
      let p : paragraph := [] in
      let p := [plain_run ppt_bullet] in
      parts_loop parts p
  end.

(** The loop over [enumerate(focal_points)]; the frame is the list of
    its paragraphs, and [text_frame.clear()] leaves one empty
    paragraph. *)
Fixpoint focal_points_loop (i : nat) (focal_points : list str)
         (frame : list paragraph) : res (list paragraph) :=
  match focal_points with
  | [] => Ok frame
  | point :: rest =>
      match focal_paragraph point with
      | Raise e => Raise e
      | Ok p =>
          if i =? 0 then
            match frame with
            | _ :: ps => focal_points_loop (S i) rest (p :: ps)
            | [] => Raise OtherError
            end
          else focal_points_loop (S i) rest (frame ++ [p])
      end
  end.

Definition format_focal_points_text (focal_points : list str)
  : res (list paragraph) :=
  focal_points_loop 0 focal_points [[]].

(** The characters that mark a style in a focal point. *)
Definition focal_markers : str := py "*_`~".

(** A piece of a focal point and the run it becomes: the run holds the
    piece as it is or less marker characters at its two ends, it is
    not struck through and has no hyperlink. *)
Definition focal_piece (piece : str) (r : run) : Prop :=
  piece <> [] /\ r_strike r = false /\ r_link r = None /\
  exists a b,
    piece = a ++ r_text r ++ b /\
    forallb (oneof focal_markers) a = true /\
    forallb (oneof focal_markers) b = true.

(** A focal point and its paragraph: the bullet run, then the runs of
    the consecutive pieces the point is cut into. *)
Definition focal_rendering (point : str) (p : paragraph) : Prop :=
  exists pieces runs,
    p = plain_run ppt_bullet :: runs /\
    concat pieces = point /\
    Forall2 focal_piece pieces runs.

(** The part of an element of a split, [None] read as empty. *)
Definition part_text (part : option str) : str :=
  match part with
  | Some w => w
  | None => []
  end.

(* ================================================================== *)
(** ** The two slides of a document: [create_single_slide] *)
(* ================================================================== *)

(** What [create_single_slide] puts on the content slide: the title,
    the paragraphs of the focal points, the date footer and the
    notes. *)
Record content_slide : Type := ContentSlide {
  cs_title : str;
  cs_points : list paragraph;
  cs_date : str;
  cs_notes : list paragraph
}.

(** The number of slide layouts of the presentation that
    [Presentation()] makes from the default template of python-pptx. *)
Definition default_layouts : nat := 11.

Section SingleSlide.

Variable net : str -> nat -> outcome.
Variable is_image : str -> bool.

(** [create_single_slide], from the text of the markdown file: the
    cover slide and the content slide it adds to the presentation.
    [prs] is the number of slide layouts of the presentation that is
    passed, [None] when none is passed. *)
Definition create_single_slide (content : str) (prs : option nat)
  : M (slide * content_slide) :=
  data <- ppt_parse_markdown_file net content ;;
  let prs :=
    match prs with
    | None => default_layouts
    | Some layouts => layouts
    end in
  let speaker_notes_text :=
    py "Date: " ++ date data ++ py " - Link: " ++ link data ++ [nl; nl]
    ++ speaker_notes data in
  cover <- create_cover_slide net is_image (title data) (image data) prs
                              speaker_notes_text 3 1 ;;
  let layout_index := if 3 <? prs then 3 else 6 in
  _ <- slide_layout prs layout_index ;;
  title_text <- lift (set_text (title data)) ;;
  content_frame <- lift (format_focal_points_text (focal_points data)) ;;
  date_text <- lift (set_text (date data)) ;;
  notes_text_frame <- lift (parse_markdown_formatting speaker_notes_text) ;;
  ret (cover,
       ContentSlide title_text content_frame date_text notes_text_frame).

End SingleSlide.

(** The waits of [j] retries: [retry_delay * 2 ** attempt] for the
    attempts [0] to [j - 1]. *)
Definition backoff (retry_delay : N) (j : nat) : list N :=
  List.map (fun attempt => retry_delay * 2 ^ N.of_nat attempt)%N (seq 0 j).

(** The picture that request number [n] gives to the cover slide: the
    body that is delivered, when it is an image; none when the request
    raises or delivers something else. *)
Definition picture_at (net : str -> nat -> outcome) (is_image : str -> bool)
           (url : str) (n : nat) : option str :=
  match net url n with
  | Body image_data => if is_image image_data then Some image_data else None
  | Fails _ => None
  end.

(** A network that answers every request with a page of text, which
    is no image. *)
Definition net_page : str -> nat -> outcome :=
  fun _ _ => Body (py "<html>not found</html>").

Definition no_image : str -> bool := fun _ => false.

(* ================================================================== *)
(** ** Notions for the extracted fields *)
(* ================================================================== *)

(** A text without whitespace at either end. *)
Definition trimmed (t : str) : bool :=
  match t with
  | [] => true
  | c :: _ => negb (isspace c) && negb (isspace (last t c))
  end.

(** A text without a line break. *)
Definition one_line (t : str) : bool := forallb dot t.

(** A focal point as the extractor leaves it. *)
Definition clean_point (point : str) : Prop :=
  point <> [] /\ trimmed point = true.

(* ================================================================== *)
(** ** The content slide of the Pandoc deck:
       [create_content_slide_markdown] *)
(* ================================================================== *)

(** The loop over the focal points. *)
Fixpoint bullets_loop (focal_points : list str) (markdown : str) : str :=
  match focal_points with
  | [] => markdown
  | point :: rest =>
      bullets_loop rest (markdown ++ py "- " ++ point ++ [nl])
  end.

(** [create_content_slide_markdown] of [markdown_to_pandoc.py]. *)
Definition create_content_slide_markdown
           (title : str) (focal_points : list str)
           (date speaker_notes link : str) : str :=
  let markdown := [] in
  let markdown := markdown ++ py "## " ++ title ++ [nl; nl] in
  let markdown := bullets_loop focal_points markdown in
  let markdown :=
    if truthy speaker_notes || truthy link then
      let markdown := markdown ++ [nl] ++ py "::: notes" ++ [nl; nl] in
      let markdown :=
        if truthy link
        then markdown ++ py "**Article Link**: " ++ link ++ [nl; nl]
        else markdown in
      let markdown := markdown ++ speaker_notes in
      markdown ++ [nl; nl] ++ py ":::" ++ [nl]
    else markdown in
  let markdown :=
    markdown ++ [nl] ++ py "<!-- Date: " ++ date ++ py " -->" ++ [nl] in
  markdown ++ [nl] ++ py "---" ++ [nl; nl].

(** The lines of the notes block of a content slide. *)
Definition notes_lines (speaker_notes link : str) : list str :=
  if truthy speaker_notes || truthy link then
    [[]; py "::: notes"; []]
    ++ (if truthy link then [py "**Article Link**: " ++ link; []] else [])
    ++ split nl speaker_notes
    ++ [[]; py ":::"]
  else [].

(** The path separator, and a text without it. *)
Definition slash : char := 47%N.

Definition no_slash (t : str) : bool :=
  forallb (fun c => negb (c =? slash)%N) t.

(* ================================================================== *)
(** ** Dropping the background pictures: the fallback of [main] *)
(* ================================================================== *)

(** [re.sub(r, repl, t)] for a replacement without escapes and a
    pattern that cannot match the empty string: the stretches between
    the matches, with [repl] in the place of each match. *)
Fixpoint sub_loop (t repl : str) (ms : list mobj) (last_end : nat) : str :=
  match ms with
  | [] => slice_from t last_end
  | mt :: ms' =>
      slice t last_end (m_start mt) ++ repl ++ sub_loop t repl ms' (m_end mt)
  end.

Definition re_sub (r : regex) (repl t : str) : str :=
  sub_loop t repl (finditer r t) 0.

(** [!\[\]\(\.\/media\/[^)]+\)\{\.background\}\n+] *)
Definition background_re : regex :=
  cat [lit (py "![](./media/"); Plus greedy (Cls (noneof (py ")")));
       lit (py "){.background}"); Plus greedy (chr nl)].

(** [main] of [markdown_to_pandoc.py], when Pandoc misses media files:
    [content_no_images = re.sub(..., '', content)]. *)
Definition content_no_images (content : str) : str :=
  re_sub background_re [] content.

(** The exclamation mark, and a text without it. *)
Definition bang : char := 33%N.

Definition no_bang (t : str) : bool :=
  forallb (fun c => negb (c =? bang)%N) t.

(* ================================================================== *)
(** ** Notions for the rendering of one marked stretch *)
(* ================================================================== *)

(** The five ways of marking a stretch of a line. *)
Inductive marking : Type :=
| DoubleStar
| Underscore
| SingleStar
| Backquote
| DoubleTilde.

(** The marker, which stands before and after the stretch. *)
Definition marker (k : marking) : str :=
  match k with
  | DoubleStar => py "**"
  | Underscore => py "_"
  | SingleStar => py "*"
  | Backquote => py "`"
  | DoubleTilde => py "~~"
  end.

(** The character the stretch may not contain. *)
Definition marker_char (k : marking) : char :=
  match k with
  | DoubleStar | SingleStar => 42%N
  | Underscore => 95%N
  | Backquote => 96%N
  | DoubleTilde => 126%N
  end.

(** The run a marked stretch becomes: bold for [**], italic for [_]
    and [*], the code font for the backquote, and no style at all for
    [~~]. *)
Definition styled (k : marking) (x : str) : run :=
  match k with
  | DoubleStar => Run x true false false false None
  | Underscore | SingleStar => Run x false true false false None
  | Backquote => Run x false false true false None
  | DoubleTilde => Run x false false false false None
  end.

(** The alternatives of the inline pattern. *)
Definition inline_alternatives : regex :=
  alt [bold_re; under_re; star_re; code_re; strike_re; link_alt_re; plain_re].

(* ================================================================== *)
(** ** Notions for the paragraphs of a text *)
(* ================================================================== *)

(** The lines of a text from the first one that is not blank on. *)
Fixpoint from_first_text (lines : list str) : list str :=
  match lines with
  | [] => []
  | line :: rest => if blank line then from_first_text rest else lines
  end.

(** A line and the paragraph it becomes: none of a blank line's
    characters is shown, the tokens of another line are rendered one
    by one. *)
Definition paragraph_of (line : str) (p : paragraph) : Prop :=
  if blank line then p = [] else Forall2 emitted (tokenize line) p.

(* ================================================================== *)
(** ** Notions for the image of a document *)
(* ================================================================== *)




(* ================================================================== *)
(** * Properties *)
(* ================================================================== *)

(** ** Strings *)

Lemma startswith_app (p t : str) : startswith p (p ++ t) = true.
Proof.
  induction p as [|c p IH]; simpl; [reflexivity|].
  now rewrite N.eqb_refl, IH.
Qed.

Lemma startswith_spec (p t : str) :
  startswith p t = true <-> exists u, t = p ++ u.
Proof.
  split.
  - revert t; induction p as [|c p IH]; intros t H; simpl in *.
    + now exists t.
    + destruct t as [|b t]; [discriminate|].
      apply andb_true_iff in H as [Hc Hp].
      apply N.eqb_eq in Hc; subst b.
      destruct (IH _ Hp) as [u ->]. now exists u.
  - intros [u ->]. apply startswith_app.
Qed.

Lemma contains_cons (p t : str) (c : char) :
  contains p t = true -> contains p (c :: t) = true.
Proof. intros H. simpl. rewrite H. apply orb_true_r. Qed.

Lemma contains_startswith (p t : str) :
  startswith p t = true -> contains p t = true.
Proof. intros H. destruct t; simpl; rewrite H; reflexivity. Qed.

Lemma contains_spec (p t : str) :
  contains p t = true <-> exists a b, t = a ++ p ++ b.
Proof.
  split.
  - induction t as [|c t IH]; simpl; intros H.
    + rewrite orb_false_r in H. apply startswith_spec in H as [u ->].
      now exists [], u.
    + apply orb_true_iff in H as [H|H].
      * apply startswith_spec in H as [u ->]. now exists [], u.
      * destruct (IH H) as (a & b & ->). now exists (c :: a), b.
  - intros (a & b & ->). induction a as [|c a IH].
    + simpl app. apply contains_startswith, startswith_app.
    + simpl app. now apply contains_cons.
Qed.

Lemma str_eqb_eq (a b : str) : str_eqb a b = true <-> a = b.
Proof.
  unfold str_eqb. destruct (list_eq_dec N.eq_dec a b); split; congruence.
Qed.

Lemma truthy_cons (c : char) (t : str) : truthy (c :: t) = true.
Proof.
  unfold truthy, str_eqb. now destruct (list_eq_dec N.eq_dec (c :: t) []).
Qed.

Lemma truthy_false (t : str) : truthy t = false <-> t = [].
Proof.
  destruct t; [now split | rewrite truthy_cons; split; discriminate].
Qed.

(** ** The matcher *)

Lemma reads_refl (s : mstate) : reads s [] s.
Proof. now split. Qed.

Lemma reads_trans (s s1 s2 : mstate) (u v : str) :
  reads s u s1 -> reads s1 v s2 -> reads s (u ++ v) s2.
Proof.
  intros [H1 H2] [H3 H4]. split.
  - now rewrite H1, H3, app_assoc.
  - now rewrite H4, H2, rev_app_distr, app_assoc.
Qed.

Lemma reads_length (s s' : mstate) (w : str) :
  reads s w s' -> length (post s) = length w + length (post s').
Proof. intros [H _]. now rewrite H, length_app. Qed.

Lemma reads_consumed (s s' : mstate) (w : str) :
  reads s w s' -> consumed s s' = w.
Proof.
  intros H. unfold consumed. rewrite (reads_length H).
  destruct H as [-> _].
  replace (length w + length (post s') - length (post s')) with (length w + 0) by lia.
  rewrite firstn_app_2. simpl. apply app_nil_r.
Qed.

Lemma in_m_cat (a b : regex) (s s' : mstate) :
  In s' (m (Cat a b) s) <-> exists s1, In s1 (m a s) /\ In s' (m b s1).
Proof. simpl. apply in_flat_map. Qed.

Lemma in_m_alt (a b : regex) (s s' : mstate) :
  In s' (m (Alt a b) s) <-> In s' (m a s) \/ In s' (m b s).
Proof. simpl. apply in_app_iff. Qed.

Lemma in_m_cls (p : char -> bool) (s s' : mstate) :
  In s' (m (Cls p) s) <->
  exists c, p c = true /\ reads s [c] s' /\ caps s' = caps s.
Proof.
  simpl. destruct s as [pr po cs]; simpl. split.
  - destruct po as [|c t]; [easy|]. destruct (p c) eqn:E; [|easy].
    intros [<-|[]]. exists c. repeat split; auto.
  - intros (c & Hc & [H1 H2] & H3). destruct s' as [pr' po' cs']. simpl in *.
    subst. rewrite Hc. now left.
Qed.

Lemma in_m_grp (n : nat) (r : regex) (s s' : mstate) :
  In s' (m (Grp n r) s) <-> exists s1, In s1 (m r s) /\ s' = set_cap n s s1.
Proof.
  simpl. rewrite in_map_iff. split; intros (s1 & H1 & H2); exists s1; auto.
Qed.

(** Whatever holds of no iteration and carries over one more iteration
    holds of every result of a repetition. *)
Lemma rep_loop_closure (step : mstate -> list mstate) (g : bool)
      (R : mstate -> mstate -> Prop) :
  (forall s, R s s) ->
  (forall s s1 s', In s1 (step s) -> length (post s1) < length (post s) ->
                   R s1 s' -> R s s') ->
  forall fuel s s', In s' (rep_loop step g fuel s) -> R s s'.
Proof.
  intros Hrefl Hstep. induction fuel as [|n IH]; intros s s' H; simpl in H.
  - destruct H as [<-|[]]. apply Hrefl.
  - assert (H' : s = s' \/
                 In s' (flat_map (fun s1 => if length (post s1) <? length (post s)
                                            then rep_loop step g n s1 else [])
                                 (step s))).
    { destruct g; [apply in_app_iff in H; simpl in H; tauto | simpl in H; tauto]. }
    destruct H' as [<-|H']; [apply Hrefl|].
    apply in_flat_map in H' as (s1 & Hs1 & Hin).
    destruct (Nat.ltb_spec (length (post s1)) (length (post s))); [|easy].
    eapply Hstep; eauto.
Qed.

(** Every match reads a stretch of the text ahead and only adds to the
    captured groups. *)
Lemma m_reads (r : regex) :
  forall s s', In s' (m r s) ->
    exists w e, reads s w s' /\ caps s' = e ++ caps s.
Proof.
  induction r as [|p|a IHa b IHb|a IHa b IHb|g r IH|n r IH| | |]; intros s s' H.
  - destruct H as [<-|[]]. exists [], []. split; [apply reads_refl|reflexivity].
  - apply in_m_cls in H as (c & _ & Hr & Hc). exists [c], []. now split.
  - apply in_m_cat in H as (s1 & H1 & H2).
    destruct (IHa _ _ H1) as (u & e1 & Hu & He1).
    destruct (IHb _ _ H2) as (v & e2 & Hv & He2).
    exists (u ++ v), (e2 ++ e1). split; [eapply reads_trans; eauto|].
    now rewrite He2, He1, app_assoc.
  - apply in_m_alt in H as [H|H]; auto.
  - simpl in H. revert H.
    apply rep_loop_closure with
      (R := fun s s' => exists w e, reads s w s' /\ caps s' = e ++ caps s).
    + intros s0. exists [], []. split; [apply reads_refl|reflexivity].
    + intros s0 s1 s2 H1 _ (v & e2 & Hv & He2).
      destruct (IH _ _ H1) as (u & e1 & Hu & He1).
      exists (u ++ v), (e2 ++ e1). split; [eapply reads_trans; eauto|].
      now rewrite He2, He1, app_assoc.
  - apply in_m_grp in H as (s1 & H1 & ->).
    destruct (IH _ _ H1) as (u & e1 & Hu & He1).
    exists u, ((n, consumed s s1) :: e1). split.
    + destruct Hu as [Hu1 Hu2]. now split.
    + simpl. now rewrite He1.
  - simpl in H. destruct (pre s) as [|c t].
    + destruct H as [<-|[]]. exists [], []. split; [apply reads_refl|reflexivity].
    + destruct (c =? nl)%N; [|easy].
      destruct H as [<-|[]]. exists [], []. split; [apply reads_refl|reflexivity].
  - simpl in H. destruct (post s) as [|c t] eqn:E.
    + destruct H as [<-|[]]. exists [], []. split; [apply reads_refl|reflexivity].
    + destruct (c =? nl)%N; [|easy].
      destruct H as [<-|[]]. exists [], []. split; [apply reads_refl|reflexivity].
  - simpl in H. destruct (post s) as [|c t] eqn:E; [|easy].
    destruct H as [<-|[]]. exists [], []. split; [apply reads_refl|reflexivity].
Qed.

Lemma m_groups_free (r : regex) :
  groups_free r = true ->
  forall s s', In s' (m r s) -> caps s' = caps s.
Proof.
  induction r as [|p|a IHa b IHb|a IHa b IHb|g r IH|n r IH| | |];
    simpl; intros Hf s s' H.
  - now destruct H as [<-|[]].
  - apply (in_m_cls p) in H as (c & _ & _ & Hc). exact Hc.
  - apply andb_true_iff in Hf as [Ha Hb].
    apply in_flat_map in H as (s1 & H1 & H2).
    rewrite (IHb Hb _ _ H2). now apply IHa.
  - apply andb_true_iff in Hf as [Ha Hb].
    apply in_app_iff in H as [H|H]; auto.
  - revert H. apply rep_loop_closure with (R := fun s s' => caps s' = caps s).
    + reflexivity.
    + intros s0 s1 s2 H1 _ H2. rewrite H2. now apply IH.
  - discriminate.
  - destruct (pre s) as [|c t]; [now destruct H as [<-|[]]|].
    destruct (c =? nl)%N; [now destruct H as [<-|[]]|easy].
  - destruct (post s) as [|c t]; [now destruct H as [<-|[]]|].
    destruct (c =? nl)%N; [now destruct H as [<-|[]]|easy].
  - destruct (post s) as [|c t]; [now destruct H as [<-|[]]|easy].
Qed.

Lemma group_of_app (e cs : list (nat * str)) (n : nat) :
  group_of cs n <> None -> group_of (e ++ cs) n <> None.
Proof.
  intros H. induction e as [|[k w] e IH]; simpl; [assumption|].
  destruct (k =? n); [discriminate|assumption].
Qed.

Lemma m_sets_group (n : nat) (r : regex) :
  sets_group n r = true ->
  forall s s', In s' (m r s) -> group_of (caps s') n <> None.
Proof.
  induction r as [|p|a IHa b IHb|a IHa b IHb|g r IH|k r IH| | |];
    simpl; intros Hf s s' H; try discriminate.
  - apply in_flat_map in H as (s1 & H1 & H2).
    apply orb_true_iff in Hf as [Ha|Hb].
    + destruct (m_reads b _ _ H2) as (_ & e & _ & ->).
      apply group_of_app. eapply IHa; eauto.
    + eapply IHb; eauto.
  - apply andb_true_iff in Hf as [Ha Hb].
    apply in_app_iff in H as [H|H]; eauto.
  - apply in_map_iff in H as (s1 & <- & H1). simpl.
    destruct (k =? n) eqn:Hkn; [discriminate|].
    simpl in Hf. eapply IH; eauto.
Qed.

Lemma in_m_lit (w : str) (s s' : mstate) :
  In s' (m (lit w) s) <-> reads s w s' /\ caps s' = caps s.
Proof.
  revert s. induction w as [|c w IH]; intros s.
  - simpl. split.
    + intros [<-|[]]. split; [apply reads_refl|reflexivity].
    + intros [[H1 H2] H3]. left. destruct s, s'; simpl in *. congruence.
  - change (lit (c :: w)) with (Cat (chr c) (lit w)). rewrite in_m_cat. split.
    + intros (s1 & H1 & H2). apply in_m_cls in H1 as (b & Hb & Hr & Hc).
      apply N.eqb_eq in Hb. subst b. apply IH in H2 as [Hr2 Hc2].
      split; [apply (reads_trans Hr Hr2)|congruence].
    + intros [[H1 H2] H3].
      exists (MState (c :: pre s) (w ++ post s') (caps s)). split.
      * apply in_m_cls. exists c. rewrite N.eqb_refl.
        repeat split; simpl; auto.
      * apply IH. repeat split; simpl; auto.
        rewrite H2. simpl. now rewrite <- app_assoc.
Qed.

Lemma adv_succ (pr t : str) (c : char) (cs : list (nat * str)) (j : nat) :
  adv (MState pr (c :: t) cs) (S j) = adv (MState (c :: pr) t cs) j.
Proof. unfold adv. simpl. now rewrite <- app_assoc. Qed.

Lemma adv_zero (s : mstate) : adv s 0 = s.
Proof. now destruct s. Qed.

Lemma reads_adv (s : mstate) (j : nat) : reads s (firstn j (post s)) (adv s j).
Proof. split; simpl; [now rewrite firstn_skipn|reflexivity]. Qed.

Lemma tries_succ (g : bool) (k : nat) :
  tries g (S k) =
  if g then List.map S (tries g k) ++ [0] else 0 :: List.map S (tries g k).
Proof.
  unfold tries. destruct g.
  - change (seq 0 (S (S k))) with (0 :: seq 1 (S k)).
    rewrite <- seq_shift. simpl rev at 1. now rewrite map_rev.
  - change (seq 0 (S (S k))) with (0 :: seq 1 (S k)).
    now rewrite <- seq_shift.
Qed.

Lemma m_rep_cls (g : bool) (p : char -> bool) (s : mstate) :
  m (Rep g (Cls p)) s =
  List.map (adv s) (tries g (length (takewhile p (post s)))).
Proof.
  destruct s as [pr po cs].
  change (m (Rep g (Cls p)) (MState pr po cs))
    with (rep_loop (m (Cls p)) g (length po) (MState pr po cs)).
  cbn [post]. set (step := m (Cls p)).
  revert pr. induction po as [|c t IH]; intros pr.
  - destruct g; reflexivity.
  - cbn [rep_loop post length takewhile].
    assert (Hs : step (MState pr (c :: t) cs) =
                 if p c then [MState (c :: pr) t cs] else []) by reflexivity.
    rewrite Hs. destruct (p c) eqn:Hc.
    + cbn [flat_map post length]. rewrite app_nil_r.
      replace (length t <? S (length t)) with true
        by (symmetry; apply Nat.ltb_lt; lia).
      rewrite IH, tries_succ.
      destruct g.
      * rewrite map_app, map_map. simpl List.map at 2.
        f_equal. apply map_ext. intros j. symmetry. apply adv_succ.
      * cbn [List.map]. rewrite map_map. f_equal.
        apply map_ext. intros j. symmetry. apply adv_succ.
    + destruct g; reflexivity.
Qed.

Lemma takewhile_all (p : char -> bool) (x t : str) :
  forallb p x = true -> length x <= length (takewhile p (x ++ t)).
Proof.
  induction x as [|c x IH]; simpl; intros H; [lia|].
  apply andb_true_iff in H as [Hc Hx]. rewrite Hc. simpl. apply le_n_S. auto.
Qed.

Lemma takewhile_firstn (p : char -> bool) (t : str) (j : nat) :
  j <= length (takewhile p t) -> forallb p (firstn j t) = true.
Proof.
  revert j. induction t as [|c t IH]; intros j Hj.
  - now rewrite firstn_nil.
  - destruct j as [|j]; [reflexivity|]. simpl in *.
    destruct (p c); simpl in *; [apply IH; lia|lia].
Qed.

Lemma in_tries (g : bool) (k j : nat) : In j (tries g k) <-> j <= k.
Proof.
  unfold tries. destruct g; [rewrite <- in_rev|]; rewrite in_seq; lia.
Qed.

Lemma in_m_rep_cls (g : bool) (p : char -> bool) (s s' : mstate) :
  In s' (m (Rep g (Cls p)) s) <->
  exists x, forallb p x = true /\ reads s x s' /\ caps s' = caps s.
Proof.
  rewrite m_rep_cls, in_map_iff. split.
  - intros (j & <- & Hj). apply in_tries in Hj.
    exists (firstn j (post s)). split; [now apply takewhile_firstn|].
    split; [apply reads_adv|reflexivity].
  - intros (x & Hx & [H1 H2] & H3). exists (length x). split.
    + unfold adv. rewrite H1, firstn_app, Nat.sub_diag, firstn_all.
      simpl. rewrite app_nil_r, skipn_app, Nat.sub_diag, skipn_all. simpl.
      destruct s'; simpl in *. congruence.
    + apply in_tries. rewrite H1. now apply takewhile_all.
Qed.

Lemma in_m_plus_cls (g : bool) (p : char -> bool) (s s' : mstate) :
  In s' (m (Plus g (Cls p)) s) <->
  exists x, x <> [] /\ forallb p x = true /\ reads s x s' /\ caps s' = caps s.
Proof.
  unfold Plus. rewrite in_m_cat. split.
  - intros (s1 & H1 & H2). apply in_m_cls in H1 as (c & Hc & Hr & Hcs).
    apply in_m_rep_cls in H2 as (x & Hx & Hr2 & Hcs2).
    exists (c :: x). split; [discriminate|]. split; [simpl; now rewrite Hc|].
    split; [apply (reads_trans Hr Hr2)|congruence].
  - intros (x & Hne & Hx & [H1 H2] & H3). destruct x as [|c x]; [easy|].
    simpl in Hx. apply andb_true_iff in Hx as [Hc Hx].
    exists (MState (c :: pre s) (x ++ post s') (caps s)). split.
    + apply in_m_cls. exists c. repeat split; auto.
    + apply in_m_rep_cls. exists x. repeat split; simpl; auto.
      rewrite H2. simpl. now rewrite <- app_assoc.
Qed.

(** ** Searching *)

Lemma search_from_some (r : regex) (after before : str) (mo : mobj) :
  search_from r before after = Some mo ->
  exists u v s' rest,
    after = u ++ v /\
    m r (MState (rev u ++ before) v []) = s' :: rest /\
    mo = mk_mobj (MState (rev u ++ before) v []) s'.
Proof.
  revert before. induction after as [|c t IH]; intros before H; simpl in H;
    unfold match_at in H.
  - destruct (m r (MState before [] [])) as [|s' rest] eqn:E; [discriminate|].
    injection H as <-. now exists [], [], s', rest.
  - destruct (m r (MState before (c :: t) [])) as [|s' rest] eqn:E.
    + destruct (IH _ H) as (u & v & s' & rest & -> & Hm & ->).
      exists (c :: u), v, s', rest. simpl. rewrite <- !app_assoc. auto.
    + injection H as <-. now exists [], (c :: t), s', rest.
Qed.

Lemma search_from_none (r : regex) (after before : str) :
  search_from r before after = None ->
  forall u v, after = u ++ v -> m r (MState (rev u ++ before) v []) = [].
Proof.
  revert before. induction after as [|c t IH]; intros before H u v E;
    simpl in H; unfold match_at in H.
  - destruct u; [|discriminate]. simpl in *. subst v.
    now destruct (m r (MState before [] [])).
  - destruct (m r (MState before (c :: t) [])) as [|s' rest] eqn:Em;
      [|discriminate].
    destruct u as [|b u]; simpl in E.
    + now subst v.
    + injection E as <- ->. simpl. rewrite <- app_assoc. now apply IH.
Qed.

Lemma search_sets_group (n : nat) (r : regex) (t : str) (mo : mobj) :
  sets_group n r = true -> re_search r t = Some mo ->
  exists w, group mo n = Some w.
Proof.
  intros Hs H. apply search_from_some in H as (u & v & s' & rest & _ & Hm & ->).
  assert (Hin : In s' (m r (MState (rev u ++ []) v []))) by (rewrite Hm; now left).
  pose proof (m_sets_group n r Hs _ _ Hin) as Hg.
  unfold group. simpl. destruct (group_of (caps s') n); [eauto|easy].
Qed.

Lemma group_str_some (mo : mobj) (n : nat) (g : str) (w : world) :
  group mo n = Some g -> group_str mo n w = (Ok g, w).
Proof. intros H. unfold group_str. now rewrite H. Qed.

(** A pattern that begins with a literal only matches where the
    literal occurs. *)
Lemma search_lit_contains (w : str) (r : regex) (t : str) :
  contains w t = false -> re_search (Cat (lit w) r) t = None.
Proof.
  intros Hc. destruct (re_search (Cat (lit w) r) t) as [mo|] eqn:E; [|reflexivity].
  apply search_from_some in E as (u & v & s' & rest & -> & Hm & _).
  assert (Hin : In s' (m (Cat (lit w) r) (MState (rev u ++ []) v [])))
    by (rewrite Hm; now left).
  apply in_m_cat in Hin as (s1 & H1 & _). apply in_m_lit in H1 as [[H1 _] _].
  simpl in H1. subst v.
  assert (contains w (u ++ w ++ post s1) = true)
    by (apply contains_spec; now exists u, (post s1)).
  congruence.
Qed.

(** ** The retrying fetcher *)

Lemma seq_0_3 : seq 0 3 = [0; 1; 2].
Proof. reflexivity. Qed.

(** C1 (as stated) fails: with three failed attempts the function has
    slept 1 + 2 = 3 units when it returns nothing, not 1 + 2 + 4; it
    does not sleep after the last attempt. *)
Lemma C1_counterexample :
  ~ waits_seven (ppt_fetch_og_image_from_url net_down example_url 3 1) /\
  ~ waits_seven (pandoc_fetch_og_image_from_url net_down example_url).
Proof.
  split; intros H;
    destruct (H (World 3 [1; 2]%N) eq_refl) as [_ Hs]; discriminate Hs.
Qed.

(** C1 (amended).  For every network, URL and starting state, both
    versions of [fetch_og_image_from_url] return without raising after
    one to three requests, having slept nothing, 1, or 1 then 2 units
    (the slide-markup script possibly 2 alone, after a page without
    the tag).
    When three attempts in a row raise, both return nothing after
    exactly three requests and sleeps of 1 and 2 units (3 in all, none
    after the last attempt).  A page without the meta tag is not waited
    for: the presentation script returns nothing at once, the
    slide-markup script goes on to the next attempt without sleeping. *)
Theorem C1_fetch_retry_policy (net : str -> nat -> outcome) (url : str)
        (w : world) :
  let n := requests w in
  (exists v w', ppt_fetch_og_image_from_url net url 3 1 w = (Ok v, w') /\
                n < requests w' <= n + 3 /\
                exists d, slept w' = slept w ++ d /\
                          (d = [] \/ d = [1] \/ d = [1; 2])%N) /\
  (exists v w', pandoc_fetch_og_image_from_url net url w = (Ok v, w') /\
                n < requests w' <= n + 3 /\
                exists d, slept w' = slept w ++ d /\
                          (d = [] \/ d = [1] \/ d = [2] \/ d = [1; 2])%N) /\
  (fails_at net url n -> fails_at net url (S n) -> fails_at net url (S (S n)) ->
   ppt_fetch_og_image_from_url net url 3 1 w
     = (Ok None, World (n + 3) (slept w ++ [1; 2]%N)) /\
   pandoc_fetch_og_image_from_url net url w
     = (Ok None, World (n + 3) (slept w ++ [1; 2]%N))) /\
  (tagless_at net url n ->
   ppt_fetch_og_image_from_url net url 3 1 w = (Ok None, World (n + 1) (slept w))) /\
  (tagless_at net url n -> tagless_at net url (S n) ->
   tagless_at net url (S (S n)) ->
   pandoc_fetch_og_image_from_url net url w = (Ok None, World (n + 3) (slept w))).
Proof.
  destruct w as [n sl]. cbn zeta. cbn [requests slept].
  unfold ppt_fetch_og_image_from_url, pandoc_fetch_og_image_from_url.
  rewrite seq_0_3.
  cbn [ppt_fetch_loop pandoc_fetch_loop Nat.ltb Nat.leb Nat.sub nth_error
       delays].
  unfold urlopen_read, bind, sleep, ret.
  replace (n + 3) with (S (S (S n))) by lia.
  replace (n + 1) with (S n) by lia.
  change (1 * 2 ^ N.of_nat 0)%N with 1%N.
  change (1 * 2 ^ N.of_nat 1)%N with 2%N.
  split; [|split; [|split; [|split]]].
  - repeat (cbn [requests slept];
            match goal with
            | |- context [match net ?u ?k with _ => _ end] =>
                destruct (net u k)
            | |- context [re_search og_image_re ?h] =>
                destruct (re_search og_image_re h)
            end);
      rewrite <- ?app_assoc; cbn [app];
      (eexists _, _; split; [reflexivity|]; cbn [requests slept];
       split; [lia|]; eexists; split;
       [first [reflexivity | symmetry; apply app_nil_r]|tauto]).
  - repeat (cbn [requests slept];
            match goal with
            | |- context [match net ?u ?k with _ => _ end] =>
                destruct (net u k)
            | |- context [re_search og_image_re ?h] =>
                destruct (re_search og_image_re h)
            end);
      rewrite <- ?app_assoc; cbn [app];
      (eexists _, _; split; [reflexivity|]; cbn [requests slept];
       split; [lia|]; eexists; split;
       [first [reflexivity | symmetry; apply app_nil_r]|tauto]).
  - intros [e0 H] [e1 H0] [e2 H1].
    cbn [requests slept]. rewrite H. cbn [requests slept]. rewrite H0.
    cbn [requests slept]. rewrite H1. cbn [requests slept].
    now rewrite <- app_assoc.
  - intros (h & H & Hh). cbn [requests slept]. now rewrite H, Hh.
  - intros (h0 & H & Hh0) (h1 & H0 & Hh1) (h2 & H1 & Hh2).
    cbn [requests slept]. rewrite H, Hh0. cbn [requests slept].
    rewrite H0, Hh1. cbn [requests slept]. now rewrite H1, Hh2.
Qed.

(** Three failed attempts on a dead network: nothing, three requests,
    sleeps of 1 and 2. *)
Lemma C1_fetch_retry_policy_witness :
  ppt_fetch_og_image_from_url net_down example_url 3 1 world0
    = (Ok None, World 3 [1; 2]%N) /\
  pandoc_fetch_og_image_from_url net_down example_url world0
    = (Ok None, World 3 [1; 2]%N).
Proof.
  destruct (C1_fetch_retry_policy net_down example_url world0)
    as (_ & _ & H & _).
  apply H; exists URLError; reflexivity.
Defined.

(** ** The excluded changelog-index URL *)

(** C9 (as stated) fails: the extractor has no exclusion; a document
    whose image section is the changelog index URL is extracted with
    exactly that URL as its image, by both scripts. *)
Lemma C9_counterexample :
  fst (ppt_parse_markdown_file net_down doc_changelog_image world0)
    = Ok (Doc (py "Untitled") [] [] changelog_index [] []) /\
  fst (pandoc_parse_markdown_file net_down doc_changelog_image world0)
    = Ok (Doc (py "Untitled") [] [] changelog_index [] []).
Proof. split; vm_compute; reflexivity. Qed.

(** C9 (amended).  The changelog index URL is treated as "no image"
    where the cover slide is made, not where the document is
    extracted: [create_cover_slide_markdown] emits for it the slide it
    emits for an empty image (title and separator only), and
    [create_cover_slide] issues no request, sleeps never and adds
    neither picture nor overlay, whatever the presentation, the title
    and the notes are: what comes of looking up the layout, of setting
    the title and of formatting the notes is passed on as it is. *)
Theorem C9_changelog_index_is_no_image_on_cover
        (net : str -> nat -> outcome) (is_image : str -> bool)
        (title date notes : str) (layouts : nat)
        (max_retries : nat) (retry_delay : N) (w : world) :
  create_cover_slide_markdown title changelog_index date
    = create_cover_slide_markdown title [] date /\
  create_cover_slide_markdown title changelog_index date
    = py "# " ++ title ++ [nl; nl] ++ py "---" ++ [nl; nl] /\
  create_cover_slide net is_image title changelog_index layouts notes
                     max_retries retry_delay w
    = (if 3 <? layouts then
         match set_text title with
         | Ok _ =>
             match (if truthy notes then parse_markdown_formatting notes
                    else Ok [[]]) with
             | Ok frame => Ok (Slide None false title frame)
             | Raise e => Raise e
             end
         | Raise e => Raise e
         end
       else Raise IndexError, w).
Proof.
  assert (Hc : truthy changelog_index && negb (str_eqb changelog_index changelog_index)
               = false).
  { assert (H : str_eqb changelog_index changelog_index = true)
      by now apply str_eqb_eq.
    rewrite H. apply andb_false_r. }
  unfold create_cover_slide_markdown, create_cover_slide.
  rewrite Hc. split; [reflexivity|]. split.
  - simpl. now rewrite <- !app_assoc.
  - unfold slide_layout, set_text, lift, bind, ret, raise.
    destruct (3 <? layouts); [|reflexivity].
    destruct (xml_text title); [|reflexivity].
    destruct (truthy notes); [|reflexivity].
    destruct (parse_markdown_formatting notes); reflexivity.
Qed.

(** ** The extractor never raises *)

Lemma pure_ret {A : Type} (v : A) : pure (ret v) v.
Proof. intros w. reflexivity. Qed.

Lemma pure_bind {A B : Type} (c : M A) (k : A -> M B) (a : A) (b : B) :
  pure c a -> pure (k a) b -> pure (bind c k) b.
Proof. intros Hc Hk w. unfold bind. now rewrite Hc, Hk. Qed.

Lemma pure_group1 (r : regex) (t : str) (mo : mobj) :
  sets_group 1 r = true -> re_search r t = Some mo ->
  pure (group_str mo 1) (group1 (Some mo)).
Proof.
  intros Hs H w. destruct (search_sets_group 1 r t Hs H) as [g Hg].
  unfold group_str, group1. now rewrite Hg.
Qed.

Lemma pure_section (r : regex) (content : str) :
  sets_group 1 r = true ->
  pure (group1_strip_or_empty (re_search r content)) (section_of r content).
Proof.
  intros Hs. unfold group1_strip_or_empty, section_of.
  destruct (re_search r content) as [mo|] eqn:E.
  - eapply pure_bind; [apply (pure_group1 r content Hs E)|apply pure_ret].
  - apply pure_ret.
Qed.

Lemma pure_title (content : str) :
  pure (match re_search title_re content with
        | Some title_match => group_str title_match 1
        | None => ret (py "Untitled")
        end) (title_of content).
Proof.
  unfold title_of. destruct (re_search title_re content) as [mo|] eqn:E.
  - now apply (pure_group1 title_re content).
  - apply pure_ret.
Qed.

Lemma pure_focal (bullet content : str) :
  pure (extract_focal_points bullet content) (focal_of bullet content).
Proof.
  unfold extract_focal_points, focal_of.
  destruct (re_search focal_re content) as [mo|] eqn:E.
  - eapply pure_bind; [now apply (pure_group1 focal_re content)|apply pure_ret].
  - apply pure_ret.
Qed.

Lemma pure_search_group1_or (r : regex) (t : str) :
  sets_group 1 r = true ->
  exists v, pure (match re_search r t with
                  | Some url_match => group_str url_match 1
                  | None => ret t
                  end) v.
Proof.
  intros Hs. destruct (re_search r t) as [mo|] eqn:E.
  - eexists. now apply (pure_group1 r t).
  - eexists. apply pure_ret.
Qed.

Lemma ppt_literal_image_pure (content : str) :
  exists v, pure (ppt_literal_image content) v.
Proof.
  unfold ppt_literal_image.
  assert (H1 : exists a, pure (match re_search image_re content with
                               | Some image_match =>
                                   g <- group_str image_match 1 ;; ret (strip g)
                               | None => ret []
                               end) a).
  { exists (section_of image_re content).
    now apply (pure_section image_re content). }
  destruct H1 as [a Ha].
  assert (H2 : exists b, pure (if negb (truthy a)
                               then match re_search bold_image_re content with
                                    | Some image_match =>
                                        g <- group_str image_match 1 ;;
                                        ret (strip g)
                                    | None => ret a
                                    end
                               else ret a) b).
  { destruct (negb (truthy a)); [|eexists; apply pure_ret].
    destruct (re_search bold_image_re content) as [mo|] eqn:E.
    - eexists. eapply pure_bind;
        [now apply (pure_group1 bold_image_re content)|apply pure_ret].
    - eexists. apply pure_ret. }
  destruct H2 as [b Hb].
  assert (H3 : exists c, pure (if truthy b
                               then
                                 article_image <-
                                   (if contains (py "[") b
                                       && contains (py "](http") b
                                    then match re_search paren_url_re b with
                                         | Some url_match => group_str url_match 1
                                         | None => ret b
                                         end
                                    else if contains (py "![") b
                                            && contains (py "](http") b
                                    then match re_search paren_url_re b with
                                         | Some url_match => group_str url_match 1
                                         | None => ret b
                                         end
                                    else ret b) ;;
                                 match re_search bare_url_re article_image with
                                 | Some url_match => group_str url_match 1
                                 | None => ret article_image
                                 end
                               else ret b) c).
  { destruct (truthy b); [|eexists; apply pure_ret].
    destruct (pure_search_group1_or paren_url_re b eq_refl) as [x Hx].
    assert (H4 : exists y, pure (if contains (py "[") b
                                    && contains (py "](http") b
                                 then match re_search paren_url_re b with
                                      | Some url_match => group_str url_match 1
                                      | None => ret b
                                      end
                                 else if contains (py "![") b
                                         && contains (py "](http") b
                                 then match re_search paren_url_re b with
                                      | Some url_match => group_str url_match 1
                                      | None => ret b
                                      end
                                 else ret b) y).
    { destruct (contains (py "[") b && contains (py "](http") b);
        [now exists x|].
      destruct (contains (py "![") b && contains (py "](http") b);
        [now exists x|eexists; apply pure_ret]. }
    destruct H4 as [y Hy].
    destruct (pure_search_group1_or bare_url_re y eq_refl) as [z Hz].
    exists z. eapply pure_bind; eauto. }
  destruct H3 as [c Hc].
  exists c. eapply pure_bind; [exact Ha|]. eapply pure_bind; [exact Hb|exact Hc].
Qed.

Lemma ppt_fetch_total (net : str -> nat -> outcome) (url : str) (w : world) :
  exists v w', ppt_fetch_og_image_from_url net url 3 1 w = (Ok v, w').
Proof.
  unfold ppt_fetch_og_image_from_url. rewrite seq_0_3.
  cbn [ppt_fetch_loop Nat.ltb Nat.leb Nat.sub].
  unfold urlopen_read, bind, sleep, ret.
  repeat (cbn [requests slept];
          match goal with
          | |- context [match net ?u ?k with _ => _ end] => destruct (net u k)
          | |- context [re_search og_image_re ?h] =>
              destruct (re_search og_image_re h)
          end);
    eexists _, _; reflexivity.
Qed.

Lemma pandoc_fetch_total (net : str -> nat -> outcome) (url : str) (w : world) :
  exists v w', pandoc_fetch_og_image_from_url net url w = (Ok v, w').
Proof.
  unfold pandoc_fetch_og_image_from_url. rewrite seq_0_3.
  cbn [pandoc_fetch_loop Nat.ltb Nat.leb Nat.sub nth_error delays].
  unfold urlopen_read, bind, sleep, ret.
  repeat (cbn [requests slept];
          match goal with
          | |- context [match net ?u ?k with _ => _ end] => destruct (net u k)
          | |- context [re_search og_image_re ?h] =>
              destruct (re_search og_image_re h)
          end);
    eexists _, _; reflexivity.
Qed.

(** What [markdown_to_ppt.py] extracts, field by field. *)
Lemma ppt_parse_total (net : str -> nat -> outcome) (content : str)
      (w : world) :
  exists d w' literal fetched,
    ppt_parse_markdown_file net content w = (Ok d, w') /\
    title d = title_of content /\
    date d = section_of date_re content /\
    link d = section_of link_re content /\
    focal_points d = focal_of ppt_bullet content /\
    speaker_notes d = ppt_speaker_notes content /\
    pure (ppt_literal_image content) literal /\
    image d = fetched_or fetched literal /\
    (if truthy (link d)
     then ppt_fetch_og_image_from_url net (link d) 3 1 w = (Ok fetched, w')
     else fetched = None /\ w' = w).
Proof.
  destruct (ppt_literal_image_pure content) as [literal Hlit].
  unfold ppt_parse_markdown_file. unfold bind at 1.
  rewrite (pure_title content w). unfold bind at 1.
  rewrite (pure_section date_re content eq_refl w). unfold bind at 1.
  rewrite (pure_section link_re content eq_refl w). unfold bind at 1.
  rewrite (Hlit w). unfold bind at 1.
  destruct (truthy (section_of link_re content)) eqn:Hl.
  - destruct (ppt_fetch_total net (section_of link_re content) w)
      as (fv & w' & Hf).
    unfold bind at 1. rewrite Hf.
    exists (Doc (title_of content) (section_of date_re content)
                (section_of link_re content) (fetched_or fv literal)
                (focal_of ppt_bullet content) (ppt_speaker_notes content)),
      w', literal, fv.
    cbn [title date link image focal_points speaker_notes]. rewrite Hl.
    repeat split; auto.
    destruct fv as [[|c u]|]; unfold ret, bind;
      rewrite (pure_focal ppt_bullet content w'); reflexivity.
  - exists (Doc (title_of content) (section_of date_re content)
                (section_of link_re content) literal
                (focal_of ppt_bullet content) (ppt_speaker_notes content)),
      w, literal, None.
    cbn [title date link image focal_points speaker_notes]. rewrite Hl.
    repeat split; auto.
    unfold ret, bind. rewrite (pure_focal ppt_bullet content w). reflexivity.
Qed.

(** What [markdown_to_pandoc.py] extracts, field by field. *)
Lemma pandoc_parse_total (net : str -> nat -> outcome) (content : str)
      (w : world) :
  exists d w' fetched,
    pandoc_parse_markdown_file net content w = (Ok d, w') /\
    title d = title_of content /\
    date d = section_of date_re content /\
    link d = section_of link_re content /\
    focal_points d = focal_of pandoc_bullet content /\
    speaker_notes d = section_of speaker_re content /\
    image d = fetched_or fetched (section_of image_re content) /\
    (if truthy (link d)
     then pandoc_fetch_og_image_from_url net (link d) w = (Ok fetched, w')
     else fetched = None /\ w' = w).
Proof.
  unfold pandoc_parse_markdown_file. unfold bind at 1.
  rewrite (pure_title content w). unfold bind at 1.
  rewrite (pure_section date_re content eq_refl w). unfold bind at 1.
  rewrite (pure_section link_re content eq_refl w). unfold bind at 1.
  rewrite (pure_section image_re content eq_refl w). unfold bind at 1.
  assert (Hn : forall w0,
             (match re_search speaker_re content with
              | Some speaker_section =>
                  g <- group_str speaker_section 1 ;; ret (strip g)
              | None => ret []
              end) w0 = (Ok (section_of speaker_re content), w0))
    by exact (pure_section speaker_re content eq_refl).
  destruct (truthy (section_of link_re content)) eqn:Hl.
  - destruct (pandoc_fetch_total net (section_of link_re content) w)
      as (fv & w' & Hf).
    unfold bind at 1. rewrite Hf.
    exists (Doc (title_of content) (section_of date_re content)
                (section_of link_re content)
                (fetched_or fv (section_of image_re content))
                (focal_of pandoc_bullet content)
                (section_of speaker_re content)),
      w', fv.
    cbn [title date link image focal_points speaker_notes]. rewrite Hl.
    repeat split; auto.
    destruct fv as [[|c u]|]; unfold ret, bind;
      rewrite (pure_focal pandoc_bullet content w'), Hn; reflexivity.
  - exists (Doc (title_of content) (section_of date_re content)
                (section_of link_re content) (section_of image_re content)
                (focal_of pandoc_bullet content)
                (section_of speaker_re content)),
      w, None.
    cbn [title date link image focal_points speaker_notes]. rewrite Hl.
    repeat split; auto.
    unfold ret, bind. rewrite (pure_focal pandoc_bullet content w), Hn.
    reflexivity.
Qed.

(** ** The title *)

Lemma in_m_bol (s s' : mstate) :
  In s' (m Bol s) <-> s' = s /\ at_bol (pre s) = true.
Proof.
  simpl. unfold at_bol. destruct (pre s) as [|c t].
  - split; [intros [<-|[]]; auto | intros [-> _]; now left].
  - destruct (c =? nl)%N.
    + split; [intros [<-|[]]; auto | intros [-> _]; now left].
    + split; [easy | intros [_ H]; discriminate].
Qed.

Lemma in_m_eol (s s' : mstate) :
  In s' (m Eol s) <-> s' = s /\ at_eol (post s) = true.
Proof.
  simpl. unfold at_eol. destruct (post s) as [|c t].
  - split; [intros [<-|[]]; auto | intros [-> _]; now left].
  - destruct (c =? nl)%N.
    + split; [intros [<-|[]]; auto | intros [-> _]; now left].
    + split; [easy | intros [_ H]; discriminate].
Qed.

Lemma in_m_endz (s s' : mstate) :
  In s' (m EndZ s) <-> s' = s /\ post s = [].
Proof.
  simpl. destruct (post s) as [|c t].
  - split; [intros [<-|[]]; auto | intros [-> _]; now left].
  - split; [easy | intros [_ H]; discriminate].
Qed.

(** The rest of a line, captured as group 1 and followed by [$]. *)
Lemma in_m_rest_of_line (s s' : mstate) :
  In s' (m (Cat rest_of_line Eol) s) <->
  exists x, x <> [] /\ forallb dot x = true /\ reads s x s' /\
            at_eol (post s') = true /\ caps s' = (1, x) :: caps s.
Proof.
  rewrite in_m_cat. unfold rest_of_line. split.
  - intros (s1 & H1 & H2). apply in_m_grp in H1 as (s2 & H1 & ->).
    apply in_m_plus_cls in H1 as (x & Hne & Hx & Hr & Hc).
    apply in_m_eol in H2 as [-> He]. exists x. simpl in *.
    repeat split; auto; try apply Hr.
    now rewrite (reads_consumed Hr), Hc.
  - intros (x & Hne & Hx & Hr & He & Hc).
    exists s'. split; [|apply in_m_eol; auto].
    apply in_m_grp. exists (MState (pre s') (post s') (caps s)). split.
    + apply in_m_plus_cls. exists x. repeat split; auto; apply Hr.
    + unfold set_cap. simpl.
      assert (Hr' : reads s x (MState (pre s') (post s') (caps s)))
        by (split; apply Hr).
      rewrite (reads_consumed Hr'). destruct s'; simpl in *. now rewrite Hc.
Qed.

Lemma in_m_title (before after : str) (s' : mstate) :
  In s' (m title_re (MState before after [])) <->
  at_bol before = true /\
  exists x, x <> [] /\ forallb dot x = true /\
            after = py "# " ++ x ++ post s' /\
            pre s' = rev (py "# " ++ x) ++ before /\
            at_eol (post s') = true /\ caps s' = [(1, x)].
Proof.
  change title_re
    with (Cat Bol (Cat (lit (py "# ")) (Cat rest_of_line Eol))).
  rewrite in_m_cat. split.
  - intros (s1 & H1 & H2). apply in_m_bol in H1 as [-> Hb].
    apply in_m_cat in H2 as (s2 & H2 & H3).
    apply in_m_lit in H2 as [Hr2 Hc2].
    apply in_m_rest_of_line in H3 as (x & Hne & Hx & Hr3 & He & Hc3).
    split; [exact Hb|]. exists x.
    pose proof (reads_trans Hr2 Hr3) as [Hp Hq]. simpl in Hp, Hq, Hc2.
    repeat split; auto. now rewrite Hc3, Hc2.
  - intros (Hb & x & Hne & Hx & Ha & Hp & He & Hc).
    exists (MState before after []). split; [apply in_m_bol; auto|].
    apply in_m_cat.
    exists (MState (rev (py "# ") ++ before) (x ++ post s') []). split.
    + apply in_m_lit. repeat split; simpl; auto.
    + apply in_m_rest_of_line. exists x. repeat split; simpl; auto.
      rewrite Hp. rewrite rev_app_distr. now rewrite <- app_assoc.
Qed.

Lemma takewhile_split (p : char -> bool) (t : str) :
  t = takewhile p t ++ skipn (length (takewhile p t)) t.
Proof.
  induction t as [|c t IH]; [reflexivity|]. simpl.
  destruct (p c); simpl; [now f_equal|reflexivity].
Qed.

Lemma takewhile_forallb (p : char -> bool) (t : str) :
  forallb p (takewhile p t) = true.
Proof.
  induction t as [|c t IH]; [reflexivity|]. simpl.
  destruct (p c) eqn:E; simpl; [now rewrite E|reflexivity].
Qed.

Lemma takewhile_dot_eol (t : str) :
  at_eol (skipn (length (takewhile dot t)) t) = true.
Proof.
  induction t as [|c t IH]; [reflexivity|]. simpl.
  destruct (dot c) eqn:E; simpl; [exact IH|].
  unfold dot in E. now apply negb_false_iff in E.
Qed.

(** A text splits in one way only into a stretch without newline and a
    rest at the end of a line. *)
Lemma line_split_unique (a b p q : str) :
  forallb dot a = true -> forallb dot b = true ->
  at_eol p = true -> at_eol q = true ->
  a ++ p = b ++ q -> a = b /\ p = q.
Proof.
  revert b. induction a as [|c a IH]; intros b Ha Hb Hp Hq E.
  - destruct b as [|d b]; [auto|]. simpl in *. subst p. simpl in Hp.
    apply andb_true_iff in Hb as [Hd _]. unfold dot in Hd.
    rewrite Hp in Hd. discriminate.
  - destruct b as [|d b]; simpl in *.
    + subst q. simpl in Hq. apply andb_true_iff in Ha as [Hc _].
      unfold dot in Hc. rewrite Hq in Hc. discriminate.
    + injection E as <- E. apply andb_true_iff in Ha as [_ Ha].
      apply andb_true_iff in Hb as [_ Hb].
      destruct (IH b Ha Hb Hp Hq E) as [-> ->]. auto.
Qed.

Lemma split_hd (t : str) : exists ls, split nl t = takewhile dot t :: ls.
Proof.
  induction t as [|c t [ls IH]]; [now exists []|]. simpl. unfold dot.
  destruct (c =? nl)%N; simpl; [now eexists|].
  rewrite IH. now eexists.
Qed.

Lemma split_cons_nl (t : str) : split nl (nl :: t) = [] :: split nl t.
Proof. reflexivity. Qed.

Lemma split_cons_dot (c : char) (t : str) :
  (c =? nl)%N = false -> tl (split nl (c :: t)) = tl (split nl t).
Proof.
  intros H. simpl. rewrite H. destruct (split_hd t) as [ls ->]. reflexivity.
Qed.

(** What the title pattern finds where the first line ahead is [l]. *)
Lemma title_match_here (before after : str) :
  let l := takewhile dot after in
  if at_bol before && is_h1 l then
    exists s' rest, m title_re (MState before after []) = s' :: rest /\
                    caps s' = [(1, skipn 2 l)]
  else m title_re (MState before after []) = [].
Proof.
  intros l.
  destruct (at_bol before && is_h1 l) eqn:E.
  - apply andb_true_iff in E as [Hb Hh]. unfold is_h1 in Hh.
    apply andb_true_iff in Hh as [Hs Hlen].
    apply startswith_spec in Hs as [x Hx]. apply Nat.ltb_lt in Hlen.
    assert (Hxne : x <> []).
    { intros ->. rewrite Hx in Hlen. simpl in Hlen. lia. }
    assert (Hxd : forallb dot x = true).
    { pose proof (takewhile_forallb dot after) as H. fold l in H.
      rewrite Hx in H. exact H. }
    set (rest := skipn (length l) after).
    assert (Hin : In (MState (rev l ++ before) rest [(1, x)])
                     (m title_re (MState before after []))).
    { apply in_m_title. split; [exact Hb|]. exists x. simpl.
      repeat split; auto.
      - change (35%N :: 32%N :: x ++ rest) with (py "# " ++ x ++ rest).
        rewrite app_assoc, <- Hx. apply takewhile_split.
      - now rewrite Hx.
      - apply takewhile_dot_eol. }
    destruct (m title_re (MState before after [])) as [|s' rest0] eqn:Em;
      [easy|].
    exists s', rest0. split; [reflexivity|].
    assert (Hin' : In s' (m title_re (MState before after [])))
      by (rewrite Em; now left).
    apply in_m_title in Hin' as (_ & y & Hyne & Hy & Ha & _ & He & Hc).
    assert (Hl : py "# " ++ y = l).
    { assert (Hd : forallb dot (py "# " ++ y) = true) by (simpl; exact Hy).
      pose proof (takewhile_split dot after) as Ht. fold l in Ht.
      rewrite Ha in Ht at 1. rewrite app_assoc in Ht.
      apply (line_split_unique _ _ _ _ Hd (takewhile_forallb dot after) He
                               (takewhile_dot_eol after)) in Ht.
      apply Ht. }
    rewrite Hc, <- Hl. reflexivity.
  - destruct (m title_re (MState before after [])) as [|s' rest0] eqn:Em;
      [reflexivity|exfalso].
    assert (Hin' : In s' (m title_re (MState before after [])))
      by (rewrite Em; now left).
    apply in_m_title in Hin' as (Hb & y & Hyne & Hy & Ha & _ & He & Hc).
    rewrite Hb in E. simpl in E.
    assert (Hl : py "# " ++ y = l).
    { assert (Hd : forallb dot (py "# " ++ y) = true) by (simpl; exact Hy).
      pose proof (takewhile_split dot after) as Ht. fold l in Ht.
      rewrite Ha in Ht at 1. rewrite app_assoc in Ht.
      apply (line_split_unique _ _ _ _ Hd (takewhile_forallb dot after) He
                               (takewhile_dot_eol after)) in Ht.
      apply Ht. }
    rewrite <- Hl in E. unfold is_h1 in E. rewrite startswith_app in E.
    simpl in E. destruct y; [easy|discriminate].
Qed.

Lemma title_search_lines (after : str) :
  forall before,
    (at_bol before = true ->
     title_found (search_from title_re before after) (split nl after)) /\
    (at_bol before = false ->
     title_found (search_from title_re before after) (tl (split nl after))).
Proof.
  induction after as [|c t IH]; intros before.
  - pose proof (title_match_here before []) as H. cbv zeta in H.
    change (is_h1 (takewhile dot [])) with false in H.
    rewrite andb_false_r in H.
    split; intros _; unfold title_found; cbn [split tl List.find search_from];
      unfold match_at; now rewrite H.
  - pose proof (title_match_here before (c :: t)) as H. cbv zeta in H.
    destruct (split_hd (c :: t)) as [ls Hls].
    assert (Hnext : title_found (search_from title_re (c :: before) t) ls).
    { destruct (IH (c :: before)) as [IHa IHb].
      destruct (c =? nl)%N eqn:Hc.
      - apply N.eqb_eq in Hc. subst c. rewrite split_cons_nl in Hls.
        injection Hls as <-. now apply IHa.
      - pose proof (split_cons_dot c t Hc) as Htl. rewrite Hls in Htl.
        cbn [tl] in Htl. subst ls. now apply IHb. }
    split; intros Hb; rewrite Hb in H; cbn [andb] in H.
    + rewrite Hls. unfold title_found. cbn [List.find].
      destruct (is_h1 (takewhile dot (c :: t))) eqn:Hh.
      * destruct H as (s' & rest & Hm & Hcaps).
        cbn [search_from]. unfold match_at. rewrite Hm.
        eexists. split; [reflexivity|]. unfold group.
        cbn [m_caps mk_mobj]. now rewrite Hcaps.
      * cbn [search_from]. unfold match_at. rewrite H. exact Hnext.
    + rewrite Hls. cbn [tl search_from]. unfold match_at. rewrite H.
      exact Hnext.
Qed.

Lemma title_of_first_h1 (content : str) :
  title_of content =
  match first_h1 content with
  | Some l => skipn 2 l
  | None => py "Untitled"
  end.
Proof.
  destruct (title_search_lines content []) as [H _].
  specialize (H eq_refl). unfold title_found in H.
  unfold title_of, first_h1, re_search.
  destruct (List.find is_h1 (split nl content)) as [l|].
  - destruct H as (mo & -> & Hg). unfold group1. now rewrite Hg.
  - now rewrite H.
Qed.

(** C3 (as stated) fails: the title is the text of the heading as it
    stands, not trimmed; a heading with a trailing space gives a title
    with that space. *)
Lemma C3_counterexample :
  fst (ppt_parse_markdown_file net_down doc_padded_title world0)
    = Ok (Doc (py "Hello ") [] [] [] [] []) /\
  fst (pandoc_parse_markdown_file net_down doc_padded_title world0)
    = Ok (Doc (py "Hello ") [] [] [] [] []) /\
  strip (py "Hello ") <> py "Hello ".
Proof. repeat split; vm_compute; try reflexivity. discriminate. Qed.

(** C3 (amended).  For every document both scripts extract the same
    title: the text after ["# "] of the first line that is a level-1
    heading (a [#], a space and at least one more character), verbatim
    up to the end of that line, surrounding whitespace included; and
    ["Untitled"] when no line is such a heading. *)
Theorem C3_title_is_first_heading_verbatim
        (net : str -> nat -> outcome) (content : str) (w : world) :
  exists d1 w1 d2 w2,
    ppt_parse_markdown_file net content w = (Ok d1, w1) /\
    pandoc_parse_markdown_file net content w = (Ok d2, w2) /\
    title d1 = title d2 /\
    title d1 = match first_h1 content with
               | Some l => slice_from l 2
               | None => py "Untitled"
               end.
Proof.
  destruct (ppt_parse_total net content w)
    as (d1 & w1 & _ & _ & H1 & Ht1 & _).
  destruct (pandoc_parse_total net content w) as (d2 & w2 & _ & H2 & Ht2 & _).
  exists d1, w1, d2, w2. repeat split; auto; [congruence|].
  rewrite Ht1. apply title_of_first_h1.
Qed.

(** ** The fetched image *)

Lemma m_consuming (r : regex) :
  consuming r = true ->
  forall s s', In s' (m r s) -> length (post s') < length (post s).
Proof.
  induction r as [|p|a IHa b IHb|a IHa b IHb|g r IH|n r IH| | |];
    simpl; intros Hc s s' H; try discriminate.
  - apply (in_m_cls p) in H as (c & _ & Hr & _).
    apply reads_length in Hr. simpl in Hr. lia.
  - apply in_flat_map in H as (s1 & H1 & H2).
    destruct (m_reads a _ _ H1) as (u & _ & Hu & _).
    destruct (m_reads b _ _ H2) as (v & _ & Hv & _).
    apply reads_length in Hu, Hv.
    apply orb_true_iff in Hc as [Hc|Hc].
    + specialize (IHa Hc _ _ H1). lia.
    + specialize (IHb Hc _ _ H2). lia.
  - apply andb_true_iff in Hc as [Ha Hb].
    apply in_app_iff in H as [H|H]; eauto.
  - apply in_map_iff in H as (s1 & <- & H1). simpl. eauto.
Qed.

Lemma m_groups_nonempty (r : regex) :
  groups_nonempty r = true ->
  forall s s', In s' (m r s) ->
    exists e, caps s' = e ++ caps s /\ captured_nonempty e.
Proof.
  induction r as [|p|a IHa b IHb|a IHa b IHb|g r IH|n r IH| | |];
    simpl; intros Hg s s' H.
  - destruct H as [<-|[]]. exists []. split; [reflexivity|constructor].
  - apply (in_m_cls p) in H as (c & _ & _ & Hc). exists [].
    split; [exact Hc|constructor].
  - apply andb_true_iff in Hg as [Ha Hb].
    apply in_flat_map in H as (s1 & H1 & H2).
    destruct (IHa Ha _ _ H1) as (e1 & He1 & Hn1).
    destruct (IHb Hb _ _ H2) as (e2 & He2 & Hn2).
    exists (e2 ++ e1). split; [now rewrite He2, He1, app_assoc|].
    now apply Forall_app.
  - apply andb_true_iff in Hg as [Ha Hb].
    apply in_app_iff in H as [H|H]; eauto.
  - revert H. apply rep_loop_closure with
      (R := fun s s' => exists e, caps s' = e ++ caps s /\ captured_nonempty e).
    + intros s0. exists []. split; [reflexivity|constructor].
    + intros s0 s1 s2 H1 _ (e2 & He2 & Hn2).
      destruct (IH Hg _ _ H1) as (e1 & He1 & Hn1).
      exists (e2 ++ e1). split; [now rewrite He2, He1, app_assoc|].
      now apply Forall_app.
  - apply andb_true_iff in Hg as [Hc Hg].
    apply in_map_iff in H as (s1 & <- & H1).
    destruct (IH Hg _ _ H1) as (e1 & He1 & Hn1).
    exists ((n, consumed s s1) :: e1). split; [simpl; now rewrite He1|].
    constructor; [|exact Hn1]. simpl.
    pose proof (m_consuming r Hc _ _ H1) as Hlt.
    unfold consumed. destruct (post s) as [|c t]; [simpl in Hlt; lia|].
    destruct (length (c :: t) - length (post s1)) eqn:E; [lia|discriminate].
  - exists []. split; [|constructor].
    destruct (pre s) as [|c t]; [now destruct H as [<-|[]]|].
    destruct (c =? nl)%N; [now destruct H as [<-|[]]|easy].
  - exists []. split; [|constructor].
    destruct (post s) as [|c t]; [now destruct H as [<-|[]]|].
    destruct (c =? nl)%N; [now destruct H as [<-|[]]|easy].
  - exists []. split; [|constructor].
    destruct (post s) as [|c t]; [now destruct H as [<-|[]]|easy].
Qed.

Lemma group_of_in (cs : list (nat * str)) (n : nat) (w : str) :
  group_of cs n = Some w -> In (n, w) cs.
Proof.
  induction cs as [|[k x] cs IH]; simpl; [discriminate|].
  destruct (Nat.eqb_spec k n) as [->|_].
  - intros [= ->]. now left.
  - intros H. right. auto.
Qed.

(** The URL taken from a page is never empty. *)
Lemma og_value_nonempty (html : str) (mo : mobj) (v : str) :
  re_search og_image_re html = Some mo ->
  group1_or_group2 mo = Some v -> v <> [].
Proof.
  intros H Hv. apply search_from_some in H as (u & t & s' & rest & _ & Hm & ->).
  assert (Hin : In s' (m og_image_re (MState (rev u ++ []) t [])))
    by (rewrite Hm; now left).
  destruct (m_groups_nonempty og_image_re eq_refl _ _ Hin) as (e & He & Hn).
  simpl in He. rewrite app_nil_r in He.
  unfold group1_or_group2, group in Hv. cbn [m_caps mk_mobj] in Hv.
  destruct (group_of (caps s') 1) as [[|c g]|] eqn:E1;
    try (injection Hv as <-; discriminate);
    apply group_of_in in Hv; rewrite He in Hv;
    unfold captured_nonempty in Hn; rewrite Forall_forall in Hn;
    exact (Hn _ Hv).
Qed.

Lemma ppt_fetch_value_nonempty (net : str -> nat -> outcome) (url : str)
      (w w' : world) (v : str) :
  ppt_fetch_og_image_from_url net url 3 1 w = (Ok (Some v), w') -> v <> [].
Proof.
  unfold ppt_fetch_og_image_from_url. rewrite seq_0_3.
  cbn [ppt_fetch_loop Nat.ltb Nat.leb Nat.sub].
  unfold urlopen_read, bind, sleep, ret.
  repeat (cbn [requests slept];
          match goal with
          | |- context [match net ?u ?k with _ => _ end] => destruct (net u k)
          | |- context [re_search og_image_re ?h] =>
              destruct (re_search og_image_re h) eqn:?
          end);
    intros [= Hv _]; try discriminate; eapply og_value_nonempty; eauto.
Qed.

Lemma pandoc_fetch_value_nonempty (net : str -> nat -> outcome) (url : str)
      (w w' : world) (v : str) :
  pandoc_fetch_og_image_from_url net url w = (Ok (Some v), w') -> v <> [].
Proof.
  unfold pandoc_fetch_og_image_from_url. rewrite seq_0_3.
  cbn [pandoc_fetch_loop Nat.ltb Nat.leb Nat.sub nth_error delays].
  unfold urlopen_read, bind, sleep, ret.
  repeat (cbn [requests slept];
          match goal with
          | |- context [match net ?u ?k with _ => _ end] => destruct (net u k)
          | |- context [re_search og_image_re ?h] =>
              destruct (re_search og_image_re h) eqn:?
          end);
    intros [= Hv _]; try discriminate; eapply og_value_nonempty; eauto.
Qed.

(** C6.  For a document in which a link is found, the image of the
    extracted record is the value the fetch of that link returns when
    it returns one, whatever the document says literally; when the
    fetch returns nothing the image is the literal one (in
    [markdown_to_ppt.py] the literal image after its URL was taken out
    of markdown link syntax, in [markdown_to_pandoc.py] the trimmed
    line after [## Article Image]). *)
Theorem C6_fetched_image_takes_precedence
        (net : str -> nat -> outcome) (content : str) (w : world) :
  (forall d w',
      ppt_parse_markdown_file net content w = (Ok d, w') ->
      link d <> [] ->
      exists literal fetched,
        pure (ppt_literal_image content) literal /\
        ppt_fetch_og_image_from_url net (link d) 3 1 w = (Ok fetched, w') /\
        image d = match fetched with Some v => v | None => literal end) /\
  (forall d w',
      pandoc_parse_markdown_file net content w = (Ok d, w') ->
      link d <> [] ->
      exists fetched,
        pandoc_fetch_og_image_from_url net (link d) w = (Ok fetched, w') /\
        image d = match fetched with
                  | Some v => v
                  | None => strip (group1 (re_search image_re content))
                  end).
Proof.
  split; intros d w' Hp Hl.
  - destruct (ppt_parse_total net content w)
      as (d0 & w0 & literal & fetched & Hp0 & _ & _ & _ & _ & _ & Hlit & Him & Hf).
    rewrite Hp in Hp0. injection Hp0 as <- <-.
    destruct (truthy (link d)) eqn:Ht; [|apply truthy_false in Ht; easy].
    exists literal, fetched. repeat split; auto.
    rewrite Him. destruct fetched as [[|c u]|]; try reflexivity.
    exfalso. now apply (ppt_fetch_value_nonempty _ _ _ Hf).
  - destruct (pandoc_parse_total net content w)
      as (d0 & w0 & fetched & Hp0 & _ & _ & _ & _ & _ & Him & Hf).
    rewrite Hp in Hp0. injection Hp0 as <- <-.
    destruct (truthy (link d)) eqn:Ht; [|apply truthy_false in Ht; easy].
    exists fetched. repeat split; auto.
    rewrite Him. destruct fetched as [[|c u]|]; try reflexivity.
    exfalso. now apply (pandoc_fetch_value_nonempty _ _ _ Hf).
Qed.

(** The fetched value replaces a literal image that is there. *)
Lemma C6_fetched_image_takes_precedence_witness :
  (exists literal fetched,
      pure (ppt_literal_image doc_link_and_image) literal /\
      ppt_fetch_og_image_from_url net_og (link extracted_link_and_image) 3 1
                                  world0
        = (Ok fetched, World 1 []) /\
      image extracted_link_and_image
        = match fetched with Some v => v | None => literal end) /\
  (exists fetched,
      pandoc_fetch_og_image_from_url net_og (link extracted_link_and_image)
                                     world0
        = (Ok fetched, World 1 []) /\
      image extracted_link_and_image
        = match fetched with
          | Some v => v
          | None => strip (group1 (re_search image_re doc_link_and_image))
          end).
Proof.
  destruct (C6_fetched_image_takes_precedence net_og doc_link_and_image world0)
    as [H1 H2].
  split.
  - apply (H1 extracted_link_and_image (World 1 []));
      [vm_compute; reflexivity | discriminate].
  - apply (H2 extracted_link_and_image (World 1 []));
      [vm_compute; reflexivity | discriminate].
Defined.

(** ** Missing sections *)

Lemma search_bol_lit_contains (w : str) (r : regex) (t : str) :
  contains w t = false -> re_search (Cat Bol (Cat (lit w) r)) t = None.
Proof.
  intros Hc.
  destruct (re_search (Cat Bol (Cat (lit w) r)) t) as [mo|] eqn:E;
    [|reflexivity].
  apply search_from_some in E as (u & v & s' & rest & -> & Hm & _).
  assert (Hin : In s' (m (Cat Bol (Cat (lit w) r)) (MState (rev u ++ []) v [])))
    by (rewrite Hm; now left).
  apply in_m_cat in Hin as (s0 & H0 & Hin). apply in_m_bol in H0 as [-> _].
  apply in_m_cat in Hin as (s1 & H1 & _). apply in_m_lit in H1 as [[H1 _] _].
  simpl in H1. subst v.
  assert (contains w (u ++ w ++ post s1) = true)
    by (apply contains_spec; now exists u, (post s1)).
  congruence.
Qed.

Lemma find_aux_absent (p t : str) (i : nat) :
  contains p t = false -> find_aux p t i = (-1)%Z.
Proof.
  revert i. induction t as [|c t IH]; intros i H; simpl in *.
  - apply orb_false_iff in H as [-> _]. reflexivity.
  - apply orb_false_iff in H as [-> H]. now apply IH.
Qed.

Lemma find_absent (p t : str) :
  contains p t = false -> find p t 0 = (-1)%Z.
Proof. intros H. unfold find. simpl. now apply find_aux_absent. Qed.

Lemma section_absent (label content : str) :
  contains (label ++ [nl]) content = false ->
  section_of (heading_re label) content = [].
Proof.
  intros H. unfold section_of.
  change (heading_re label)
    with (Cat (lit (label ++ [nl])) (Cat rest_of_line Eol)).
  now rewrite search_lit_contains.
Qed.

Lemma focal_absent (bullet content : str) :
  contains content_heading content = false -> focal_of bullet content = [].
Proof.
  intros H. unfold focal_of.
  change focal_re
    with (Cat (lit content_heading)
              (Cat (Grp 1 (Plus lazy (Alt (Cls dot) (chr nl))))
                   (Alt (cat [Bol; lit (py "###")]) EndZ))).
  now rewrite search_lit_contains.
Qed.

Lemma pandoc_notes_absent (content : str) :
  contains notes_heading content = false ->
  section_of speaker_re content = [].
Proof.
  intros H. unfold section_of.
  change speaker_re
    with (Cat (lit notes_heading)
              (Cat (Grp 1 (Plus lazy (Alt (Cls dot) (chr nl))))
                   (alt [cat [Bol; lit (py "##"); Cls (noneof (py "#"))];
                         cat [Bol; lit (py "##"); Eol];
                         EndZ]))).
  now rewrite search_lit_contains.
Qed.

Lemma ppt_notes_absent (content : str) :
  contains italian_header content = false ->
  contains english_header content = false ->
  ppt_speaker_notes content = [].
Proof.
  intros Hi He. unfold ppt_speaker_notes.
  rewrite (find_absent _ _ Hi), (find_absent _ _ He). reflexivity.
Qed.

Lemma ppt_literal_absent (content : str) :
  contains image_heading content = false ->
  contains bold_image_label content = false ->
  pure (ppt_literal_image content) [].
Proof.
  intros H1 H2 w. unfold ppt_literal_image.
  change image_re with (Cat (lit image_heading) (Cat rest_of_line Eol)).
  rewrite (search_lit_contains _ _ _ H1).
  change bold_image_re
    with (Cat Bol (Cat (lit bold_image_label)
                       (cat [Rep greedy (Cls isspace); rest_of_line; Eol]))).
  unfold bind at 1. unfold ret at 1. unfold bind at 1.
  cbn [truthy str_eqb negb]. change (negb (truthy [])) with true. cbv iota.
  rewrite (search_bol_lit_contains _ _ _ H2). reflexivity.
Qed.

Lemma pure_unique {A : Type} (c : M A) (a b : A) :
  pure c a -> pure c b -> a = b.
Proof.
  intros Ha Hb. specialize (Ha world0). rewrite (Hb world0) in Ha.
  now injection Ha.
Qed.

(** C5.  For every text both scripts return a record and never raise.
    Each field is read from its own section and from nothing else: the
    title is the first level-1 heading, date and link are the trimmed
    lines under their headings, the focal points are the lines of the
    content block, the notes are the text under their headers, and
    the image is the fetched value if there is one and else the
    literal one; the link alone decides whether anything is fetched.
    So a section that is missing touches its own field only, and that
    field has its default: the title is ["Untitled"] when no line is a
    level-1 heading; date, link, focal points and notes are empty when
    their heading does not occur; without a link nothing is fetched;
    the image is empty when neither an image section nor an image
    label occurs and no image is fetched. *)
Theorem C5_extraction_total_with_defaults
        (net : str -> nat -> outcome) (content : str) (w : world) :
  exists d1 w1 d2 w2,
    ppt_parse_markdown_file net content w = (Ok d1, w1) /\
    pandoc_parse_markdown_file net content w = (Ok d2, w2) /\
    (title d1 = title_of content /\ title d2 = title_of content) /\
    (date d1 = section_of date_re content /\
     date d2 = section_of date_re content) /\
    (link d1 = section_of link_re content /\
     link d2 = section_of link_re content) /\
    (focal_points d1 = focal_of ppt_bullet content /\
     focal_points d2 = focal_of pandoc_bullet content) /\
    (speaker_notes d1 = ppt_speaker_notes content /\
     speaker_notes d2 = section_of speaker_re content) /\
    (exists literal fetched,
        pure (ppt_literal_image content) literal /\
        image d1 = fetched_or fetched literal /\
        (if truthy (link d1)
         then ppt_fetch_og_image_from_url net (link d1) 3 1 w
              = (Ok fetched, w1)
         else fetched = None /\ w1 = w)) /\
    (exists fetched,
        image d2 = fetched_or fetched (section_of image_re content) /\
        (if truthy (link d2)
         then pandoc_fetch_og_image_from_url net (link d2) w
              = (Ok fetched, w2)
         else fetched = None /\ w2 = w)) /\
    (first_h1 content = None ->
     title d1 = py "Untitled" /\ title d2 = py "Untitled") /\
    (contains date_heading content = false -> date d1 = [] /\ date d2 = []) /\
    (contains link_heading content = false ->
     link d1 = [] /\ link d2 = [] /\ w1 = w /\ w2 = w) /\
    (contains image_heading content = false ->
     contains bold_image_label content = false ->
     link d1 = [] \/
     (exists w', ppt_fetch_og_image_from_url net (link d1) 3 1 w
                 = (Ok None, w')) ->
     image d1 = []) /\
    (contains image_heading content = false ->
     link d2 = [] \/
     (exists w', pandoc_fetch_og_image_from_url net (link d2) w
                 = (Ok None, w')) ->
     image d2 = []) /\
    (contains content_heading content = false ->
     focal_points d1 = [] /\ focal_points d2 = []) /\
    (contains italian_header content = false ->
     contains english_header content = false ->
     speaker_notes d1 = []) /\
    (contains notes_heading content = false -> speaker_notes d2 = []).
Proof.
  destruct (ppt_parse_total net content w)
    as (d1 & w1 & literal & f1 & Hp1 & Ht1 & Hd1 & Hl1 & Hf1 & Hn1 & Hlit
        & Hi1 & Hfe1).
  destruct (pandoc_parse_total net content w)
    as (d2 & w2 & f2 & Hp2 & Ht2 & Hd2 & Hl2 & Hf2 & Hn2 & Hi2 & Hfe2).
  exists d1, w1, d2, w2.
  split; [exact Hp1|]. split; [exact Hp2|].
  split; [now split|]. split; [now split|]. split; [now split|].
  split; [now split|]. split; [now split|].
  split; [exists literal, f1; auto|]. split; [exists f2; auto|].
  split; [|split; [|split; [|split; [|split; [|split; [|split]]]]]].
  - intros H. rewrite Ht1, Ht2, title_of_first_h1, H. auto.
  - intros H. rewrite Hd1, Hd2. split; now apply section_absent.
  - intros H.
    assert (E : section_of link_re content = []) by now apply section_absent.
    rewrite Hl1 in Hfe1. rewrite Hl2 in Hfe2. rewrite E in Hfe1, Hfe2.
    cbn in Hfe1, Hfe2. rewrite Hl1, Hl2, E. tauto.
  - intros H1 H2 H3.
    assert (literal = []) as ->
        by (eapply pure_unique; [exact Hlit|now apply ppt_literal_absent]).
    rewrite Hi1. destruct (truthy (link d1)) eqn:Ht.
    + destruct H3 as [H3|[w' H3]].
      * rewrite H3 in Ht. discriminate.
      * rewrite H3 in Hfe1. injection Hfe1 as <- _. reflexivity.
    + destruct Hfe1 as [-> _]. reflexivity.
  - intros H1 H3.
    assert (E : section_of image_re content = []) by now apply section_absent.
    rewrite Hi2, E. destruct (truthy (link d2)) eqn:Ht.
    + destruct H3 as [H3|[w' H3]].
      * rewrite H3 in Ht. discriminate.
      * rewrite H3 in Hfe2. injection Hfe2 as <- _. reflexivity.
    + destruct Hfe2 as [-> _]. reflexivity.
  - intros H. rewrite Hf1, Hf2. split; now apply focal_absent.
  - intros H1 H2. rewrite Hn1. now apply ppt_notes_absent.
  - intros H. rewrite Hn2. now apply pandoc_notes_absent.
Qed.

(** The scenario document has a title, a date, two focal points and
    notes under [### Speaker Notes], and neither link nor image: the
    fields of the sections that are there are extracted, link and
    image are empty, nothing is fetched, and the notes, which
    [markdown_to_ppt.py] looks for under other headers, are empty
    there and found by [markdown_to_pandoc.py]. *)
Lemma C5_extraction_total_with_defaults_witness :
  ppt_parse_markdown_file net_down doc_scenario world0
  = (Ok (Doc (py "Hello") (py "2025-01-01") [] []
             [py "point one"; py "point two"] []), world0) /\
  pandoc_parse_markdown_file net_down doc_scenario world0
  = (Ok (Doc (py "Hello") (py "2025-01-01") [] []
             [py "point one"; py "point two"] (py "Note body")), world0).
Proof.
  destruct (C5_extraction_total_with_defaults net_down doc_scenario world0)
    as (d1 & w1 & d2 & w2 & H1 & H2 & [Ht1 Ht2] & [Hd1 Hd2] & _ & [Hf1 Hf2]
        & [_ Hn2] & _ & _ & _ & _ & Hl & Hi1 & Hi2 & _ & Hn1 & _).
  destruct (Hl eq_refl) as (Hl1 & Hl2 & Hw1 & Hw2).
  pose proof (Hi1 eq_refl eq_refl (or_introl Hl1)) as Him1.
  pose proof (Hi2 eq_refl (or_introl Hl2)) as Him2.
  pose proof (Hn1 eq_refl eq_refl) as Hno1.
  assert (Et : title_of doc_scenario = py "Hello")
    by (vm_compute; reflexivity).
  assert (Ed : section_of date_re doc_scenario = py "2025-01-01")
    by (vm_compute; reflexivity).
  assert (Ef1 : focal_of ppt_bullet doc_scenario
                = [py "point one"; py "point two"])
    by (vm_compute; reflexivity).
  assert (Ef2 : focal_of pandoc_bullet doc_scenario
                = [py "point one"; py "point two"])
    by (vm_compute; reflexivity).
  assert (En : section_of speaker_re doc_scenario = py "Note body")
    by (vm_compute; reflexivity).
  rewrite Et in Ht1, Ht2. rewrite Ed in Hd1, Hd2.
  rewrite Ef1 in Hf1. rewrite Ef2 in Hf2. rewrite En in Hn2.
  rewrite H1, H2.
  destruct d1 as [t1 da1 l1 i1 f1 n1], d2 as [t2 da2 l2 i2 f2 n2].
  cbn [title date link image focal_points speaker_notes] in *.
  subst. split; reflexivity.
Defined.

(** ** Trimming and lines *)

Lemma lstrip_decomp (t : str) :
  exists ws, t = ws ++ lstrip t /\ forallb isspace ws = true.
Proof.
  induction t as [|c t (ws & Ht & Hws)]; [now exists []|]. simpl.
  destruct (isspace c) eqn:E.
  - exists (c :: ws). simpl. rewrite E, Hws. split; [now f_equal|reflexivity].
  - now exists [].
Qed.

Lemma forallb_rev (p : char -> bool) (t : str) :
  forallb p (rev t) = forallb p t.
Proof.
  induction t as [|c t IH]; [reflexivity|]. simpl.
  rewrite forallb_app, IH. simpl. rewrite andb_true_r. apply andb_comm.
Qed.

Lemma rstrip_decomp (t : str) :
  exists ws, t = rstrip t ++ ws /\ forallb isspace ws = true.
Proof.
  destruct (lstrip_decomp (rev t)) as (ws & Ht & Hws).
  exists (rev ws). split.
  - unfold rstrip. rewrite <- rev_app_distr, <- Ht. symmetry. apply rev_involutive.
  - now rewrite forallb_rev.
Qed.

Lemma lstrip_blank (t : str) : forallb isspace t = true -> lstrip t = [].
Proof.
  induction t as [|c t IH]; [reflexivity|]. simpl. intros H.
  apply andb_true_iff in H as [-> H]. auto.
Qed.

Lemma lstrip_snoc (t : str) (c : char) :
  lstrip (t ++ [c]) =
  if forallb isspace t then lstrip [c] else lstrip t ++ [c].
Proof.
  induction t as [|a t IH]; [reflexivity|]. simpl.
  destruct (isspace a); [exact IH|reflexivity].
Qed.

Lemma rstrip_snoc (t : str) (c : char) :
  isspace c = true -> rstrip (t ++ [c]) = rstrip t.
Proof.
  intros H. unfold rstrip. rewrite rev_app_distr. simpl. now rewrite H.
Qed.

Lemma strip_cons_space (c : char) (t : str) :
  isspace c = true -> strip (c :: t) = strip t.
Proof. intros H. unfold strip. simpl. now rewrite H. Qed.

Lemma strip_snoc_space (t : str) (c : char) :
  isspace c = true -> strip (t ++ [c]) = strip t.
Proof.
  intros H. unfold strip. rewrite lstrip_snoc.
  destruct (forallb isspace t) eqn:E.
  - simpl. rewrite H. now rewrite (lstrip_blank _ E).
  - now apply rstrip_snoc.
Qed.

Lemma split_nonempty (t : str) : split nl t <> [].
Proof. destruct (split_hd t) as [ls ->]. discriminate. Qed.

Lemma split_snoc_nl (t : str) : split nl (t ++ [nl]) = split nl t ++ [[]].
Proof.
  induction t as [|c t IH]; [reflexivity|]. simpl.
  destruct (c =? nl)%N; rewrite IH; [reflexivity|].
  destruct (split_hd t) as [ls ->]. reflexivity.
Qed.

Lemma split_snoc (t : str) (c : char) :
  (c =? nl)%N = false ->
  split nl (t ++ [c]) =
  removelast (split nl t) ++ [last (split nl t) [] ++ [c]].
Proof.
  intros Hc. induction t as [|a t IH]; simpl.
  - now rewrite Hc.
  - destruct (a =? nl)%N.
    + rewrite IH. destruct (split_hd t) as [ls ->]. reflexivity.
    + rewrite IH. destruct (split_hd t) as [ls ->].
      destruct ls as [|l ls]; reflexivity.
Qed.

Section LinesUpToTrimming.

(** A function of a line that only looks at the trimmed line and
    gives nothing for a blank one. *)
Variable A : Type.
Variable f : str -> list A.
Hypothesis f_strip : forall l l', strip l = strip l' -> f l = f l'.
Hypothesis f_nil : f [] = [].

Lemma lines_cons_space (c : char) (t : str) :
  isspace c = true ->
  flat_map f (split nl (c :: t)) = flat_map f (split nl t).
Proof.
  intros H. simpl. destruct (c =? nl)%N.
  - simpl. now rewrite f_nil.
  - destruct (split_hd t) as [ls ->]. simpl. f_equal.
    apply f_strip. now apply strip_cons_space.
Qed.

Lemma lines_snoc_space (t : str) (c : char) :
  isspace c = true ->
  flat_map f (split nl (t ++ [c])) = flat_map f (split nl t).
Proof.
  intros H. destruct (c =? nl)%N eqn:Hc.
  - apply N.eqb_eq in Hc. subst c. rewrite split_snoc_nl, flat_map_app.
    simpl. now rewrite f_nil, !app_nil_r.
  - rewrite (@split_snoc t c Hc).
    rewrite (app_removelast_last [] (split_nonempty t)) at 3.
    rewrite !flat_map_app. simpl. rewrite !app_nil_r. f_equal.
    apply f_strip. now apply strip_snoc_space.
Qed.

Lemma lines_prefix_space (ws t : str) :
  forallb isspace ws = true ->
  flat_map f (split nl (ws ++ t)) = flat_map f (split nl t).
Proof.
  induction ws as [|c ws IH]; [reflexivity|]. simpl app. intros H.
  simpl in H. apply andb_true_iff in H as [Hc H].
  rewrite lines_cons_space; auto.
Qed.

Lemma lines_suffix_space (ws t : str) :
  forallb isspace ws = true ->
  flat_map f (split nl (t ++ ws)) = flat_map f (split nl t).
Proof.
  revert t. induction ws as [|c ws IH]; intros t H.
  - now rewrite app_nil_r.
  - simpl in H. apply andb_true_iff in H as [Hc H].
    change (t ++ c :: ws) with (t ++ [c] ++ ws). rewrite app_assoc, IH; auto.
    now apply lines_snoc_space.
Qed.

(** Trimming the block first changes nothing. *)
Lemma lines_of_strip (t : str) :
  flat_map f (split nl (strip t)) = flat_map f (split nl t).
Proof.
  unfold strip.
  destruct (rstrip_decomp (lstrip t)) as (ws2 & H2 & Hw2).
  destruct (lstrip_decomp t) as (ws1 & H1 & Hw1).
  rewrite H1 at 2. rewrite lines_prefix_space by assumption.
  rewrite H2 at 2. now rewrite lines_suffix_space.
Qed.

End LinesUpToTrimming.

(** ** Focal points *)

Lemma focal_of_line_strip (bullet l l' : str) :
  strip l = strip l' -> focal_of_line bullet l = focal_of_line bullet l'.
Proof.
  intros H. unfold focal_of_line, is_bullet_line, is_bold_line. now rewrite H.
Qed.

Lemma focal_loop_flat_map (bullet : str) (lines : list str) :
  bullet <> [] ->
  forall acc,
    focal_loop bullet lines acc = acc ++ flat_map (focal_of_line bullet) lines.
Proof.
  intros Hb. induction lines as [|l lines IH]; intros acc;
    cbn [focal_loop flat_map].
  - now rewrite app_nil_r.
  - unfold focal_of_line, is_bullet_line, is_bold_line.
    destruct (strip l) as [|c x] eqn:E.
    + change (negb (truthy [])) with true. cbv iota.
      destruct bullet as [|b bullet]; [easy|].
      cbn [startswith orb andb app]. apply IH.
    + rewrite truthy_cons. cbn [negb].
      destruct (startswith bullet (c :: x) || startswith (py "- ") (c :: x)).
      * rewrite IH, <- app_assoc. reflexivity.
      * destruct (startswith (py "**") (c :: x)
                  && contains (py "**") (slice_from (c :: x) 2)).
        -- rewrite IH, <- app_assoc. reflexivity.
        -- apply IH.
Qed.

Lemma focal_of_lines (bullet content : str) :
  bullet <> [] ->
  focal_of bullet content =
  flat_map (focal_of_line bullet) (split nl (content_block content)).
Proof.
  intros Hb.
  assert (Hnil : focal_of_line bullet [] = []).
  { unfold focal_of_line, is_bullet_line, is_bold_line.
    change (strip []) with (@nil char). destruct bullet; [easy|reflexivity]. }
  unfold focal_of, content_block.
  destruct (re_search focal_re content) as [mo|].
  - rewrite focal_loop_flat_map by assumption. simpl app.
    apply lines_of_strip; [apply focal_of_line_strip|exact Hnil].
  - simpl. now rewrite Hnil.
Qed.

Lemma length_flat_map_focal (bullet : str) (lines : list str) :
  length (flat_map (focal_of_line bullet) lines) =
  length (filter (is_bullet_line bullet) lines)
  + length (filter (fun l => negb (is_bullet_line bullet l) && is_bold_line l)
                   lines).
Proof.
  induction lines as [|l lines IH]; [reflexivity|]. simpl.
  rewrite length_app, IH. unfold focal_of_line.
  destruct (is_bullet_line bullet l); simpl; [lia|].
  destruct (is_bold_line l); simpl; lia.
Qed.

Lemma focal_of_line_bullets (lines : list str) :
  forallb (fun l => negb (has_bullet_char l)) lines = true ->
  flat_map (focal_of_line pandoc_bullet) lines =
  flat_map (focal_of_line ppt_bullet) lines.
Proof.
  induction lines as [|l lines IH]; [reflexivity|]. simpl. intros H.
  apply andb_true_iff in H as [Hl H]. rewrite (IH H). f_equal.
  unfold has_bullet_char in Hl. apply negb_true_iff in Hl.
  apply orb_false_iff in Hl as [H1 H2].
  unfold focal_of_line, is_bullet_line. now rewrite H1, H2.
Qed.

(** C4 (as stated) fails: a block with one bullet line and one bold
    lead-in line gives two focal points, not one. *)
Lemma C4_counterexample :
  fst (ppt_parse_markdown_file net_down doc_bullet_and_bold world0)
    = Ok (Doc (py "Untitled") [] [] [] [py "a"; py "**B**: c"] []) /\
  fst (pandoc_parse_markdown_file net_down doc_bullet_and_bold world0)
    = Ok (Doc (py "Untitled") [] [] [] [py "a"; py "**B**: c"] []) /\
  length (filter (is_bullet_line ppt_bullet)
                 (split nl (content_block doc_bullet_and_bold))) = 1.
Proof. repeat split; vm_compute; reflexivity. Qed.

(** C4 (amended).  The focal points are what the lines of the Article
    Content block contribute, in line order, each line trimmed first:
    a bullet line (bullet character or hyphen, then a space) gives the
    trimmed rest after its two-character marker, another line that
    begins with [**] and has a second [**] further on gives the trimmed
    line itself, any other line gives nothing.  So the list has as
    many elements as the block has bullet lines and bold lead-in lines
    together.  This holds of [markdown_to_ppt.py] for every document,
    and of [markdown_to_pandoc.py] for every document none of whose
    block lines begins with a bullet character. *)
Theorem C4_focal_points_of_block_lines
        (net : str -> nat -> outcome) (content : str) (w : world) :
  let lines := split nl (content_block content) in
  exists d1 w1 d2 w2,
    ppt_parse_markdown_file net content w = (Ok d1, w1) /\
    pandoc_parse_markdown_file net content w = (Ok d2, w2) /\
    focal_points d1 = flat_map (focal_of_line ppt_bullet) lines /\
    length (focal_points d1) =
      length (filter (is_bullet_line ppt_bullet) lines)
      + length (filter (fun l => negb (is_bullet_line ppt_bullet l)
                                 && is_bold_line l) lines) /\
    (forallb (fun l => negb (has_bullet_char l)) lines = true ->
     focal_points d2 = focal_points d1).
Proof.
  intros lines.
  destruct (ppt_parse_total net content w)
    as (d1 & w1 & _ & _ & Hp1 & _ & _ & _ & Hf1 & _).
  destruct (pandoc_parse_total net content w)
    as (d2 & w2 & _ & Hp2 & _ & _ & _ & Hf2 & _).
  exists d1, w1, d2, w2.
  assert (E1 : focal_points d1 = flat_map (focal_of_line ppt_bullet) lines)
    by (rewrite Hf1; now apply focal_of_lines).
  repeat split; auto.
  - rewrite E1. apply length_flat_map_focal.
  - intros H. rewrite E1, Hf2, focal_of_lines by easy.
    now apply focal_of_line_bullets.
Qed.

(** One bullet line and one bold lead-in line, no bullet character:
    both scripts give the same two focal points. *)
Lemma C4_focal_points_of_block_lines_witness :
  exists d1 w1 d2 w2,
    ppt_parse_markdown_file net_down doc_bullet_and_bold world0 = (Ok d1, w1) /\
    pandoc_parse_markdown_file net_down doc_bullet_and_bold world0
      = (Ok d2, w2) /\
    focal_points d1 = [py "a"; py "**B**: c"] /\
    length (focal_points d1) = 1 + 1 /\
    focal_points d2 = focal_points d1.
Proof.
  destruct (C4_focal_points_of_block_lines net_down doc_bullet_and_bold world0)
    as (d1 & w1 & d2 & w2 & H1 & H2 & Hf & Hl & Hb).
  exists d1, w1, d2, w2. repeat split; auto.
Defined.

(** ** The two extractors side by side *)

(** C10 (as stated) fails: on the scenario document of the
    specification the two scripts return different records; the
    slide-markup script finds the notes under [### Speaker Notes], the
    presentation script only looks for the Italian and English
    headers and finds none. *)
Lemma C10_counterexample :
  fst (ppt_parse_markdown_file net_down doc_scenario world0)
    = Ok (Doc (py "Hello") (py "2025-01-01") [] []
              [py "point one"; py "point two"] []) /\
  fst (pandoc_parse_markdown_file net_down doc_scenario world0)
    = Ok (Doc (py "Hello") (py "2025-01-01") [] []
              [py "point one"; py "point two"] (py "Note body")).
Proof. split; vm_compute; reflexivity. Qed.

(** C10 (amended).  The two scripts have an extraction function each.
    For every document and network both return a record, with the same
    title, the same date and the same link; the focal points are the
    same when no line of the Article Content block begins with a
    bullet character.  Image and speaker notes are extracted by
    different rules in the two scripts. *)
Theorem C10_extractors_agree_on_title_date_link
        (net : str -> nat -> outcome) (content : str) (w : world) :
  exists d1 w1 d2 w2,
    ppt_parse_markdown_file net content w = (Ok d1, w1) /\
    pandoc_parse_markdown_file net content w = (Ok d2, w2) /\
    title d1 = title d2 /\
    date d1 = date d2 /\
    link d1 = link d2 /\
    (forallb (fun l => negb (has_bullet_char l))
             (split nl (content_block content)) = true ->
     focal_points d1 = focal_points d2).
Proof.
  destruct (ppt_parse_total net content w)
    as (d1 & w1 & _ & _ & Hp1 & Ht1 & Hd1 & Hl1 & Hf1 & _).
  destruct (pandoc_parse_total net content w)
    as (d2 & w2 & _ & Hp2 & Ht2 & Hd2 & Hl2 & Hf2 & _).
  exists d1, w1, d2, w2. repeat split; auto; try congruence.
  intros H. rewrite Hf1, Hf2, !focal_of_lines by easy.
  symmetry. now apply focal_of_line_bullets.
Qed.

(** On the scenario document the two records have the same title,
    date, link and focal points. *)
Lemma C10_extractors_agree_on_title_date_link_witness :
  exists d1 w1 d2 w2,
    ppt_parse_markdown_file net_down doc_scenario world0 = (Ok d1, w1) /\
    pandoc_parse_markdown_file net_down doc_scenario world0 = (Ok d2, w2) /\
    title d1 = title d2 /\
    date d1 = date d2 /\
    link d1 = link d2 /\
    focal_points d1 = focal_points d2.
Proof.
  destruct (C10_extractors_agree_on_title_date_link net_down doc_scenario world0)
    as (d1 & w1 & d2 & w2 & H1 & H2 & Ht & Hd & Hl & Hf).
  exists d1, w1, d2, w2. repeat split; auto.
Defined.

(** ** Texts the presentation takes *)

Lemma set_text_ok (t : str) : xml_text t = true -> set_text t = Ok t.
Proof. unfold set_text. now intros ->. Qed.

Lemma set_text_raise (t : str) :
  xml_text t = false -> set_text t = Raise ValueError.
Proof. unfold set_text. now intros ->. Qed.

Lemma xml_text_app (a b : str) :
  xml_text (a ++ b) = xml_text a && xml_text b.
Proof. apply forallb_app. Qed.

Lemma xml_text_app_inv (a b : str) :
  xml_text (a ++ b) = true -> xml_text a = true /\ xml_text b = true.
Proof. rewrite xml_text_app. apply andb_true_iff. Qed.

Lemma forallb_firstn (p : char -> bool) (n : nat) (t : str) :
  forallb p t = true -> forallb p (firstn n t) = true.
Proof.
  intros H. rewrite <- (firstn_skipn n t), forallb_app in H.
  now apply andb_true_iff in H as [H _].
Qed.

Lemma forallb_skipn (p : char -> bool) (n : nat) (t : str) :
  forallb p t = true -> forallb p (skipn n t) = true.
Proof.
  intros H. rewrite <- (firstn_skipn n t), forallb_app in H.
  now apply andb_true_iff in H as [_ H].
Qed.

Lemma forallb_split (p : char -> bool) (sep : char) (t : str) :
  forallb p t = true -> Forall (fun l => forallb p l = true) (split sep t).
Proof.
  induction t as [|c t IH]; intros H.
  - repeat constructor.
  - cbn [forallb] in H. apply andb_true_iff in H as [Hc Ht].
    specialize (IH Ht). cbn [split]. destruct (c =? sep)%N.
    + constructor; [reflexivity|exact IH].
    + destruct (split sep t) as [|l ls].
      * repeat constructor. cbn [forallb]. now rewrite Hc.
      * inversion IH as [|? ? Hl Hls]; subst. constructor; [|exact Hls].
        cbn [forallb]. now rewrite Hc, Hl.
Qed.

(** The delimiter characters are characters a text may hold. *)
Lemma delims_xml (w : str) :
  forallb (oneof delims) w = true -> xml_text w = true.
Proof.
  intros H. unfold xml_text. rewrite forallb_forall in *. intros c Hc.
  specialize (H c Hc). unfold oneof, delims in H. simpl existsb in H.
  rewrite orb_false_r in H.
  repeat (apply orb_true_iff in H as [H|H];
          [apply N.eqb_eq in H; subst c; reflexivity|]).
  apply N.eqb_eq in H. subst c. reflexivity.
Qed.

(** ** Plain text through the inline formatter *)

Lemma noneof_delims (c : char) :
  noneof delims c = true ->
  (42 =? c)%N = false /\ (95 =? c)%N = false /\ (96 =? c)%N = false /\
  (126 =? c)%N = false /\ (91 =? c)%N = false.
Proof.
  unfold noneof, oneof, delims. simpl existsb.
  rewrite !(N.eqb_sym c).
  destruct (42 =? c)%N, (95 =? c)%N, (96 =? c)%N, (126 =? c)%N, (91 =? c)%N;
    simpl; intros H; try discriminate; auto.
Qed.

Lemma plain_text_cons (c : char) (t : str) :
  plain_text (c :: t) = true ->
  noneof delims c = true /\ (c =? nl)%N = false /\ plain_text t = true.
Proof.
  unfold plain_text. simpl forallb. intros H.
  apply andb_true_iff in H as [Hc Ht].
  unfold noneof, oneof in *. cbn [existsb] in Hc.
  destruct (c =? nl)%N; [discriminate|]. auto.
Qed.

Lemma plain_text_noneof (t : str) :
  plain_text t = true -> forallb (noneof delims) t = true.
Proof.
  induction t as [|c t IH]; [reflexivity|]. intros H.
  apply plain_text_cons in H as (Hc & _ & Ht). simpl. now rewrite Hc, IH.
Qed.

Lemma plain_text_dot (t : str) :
  plain_text t = true -> forallb dot t = true.
Proof.
  induction t as [|c t IH]; [reflexivity|]. intros H.
  apply plain_text_cons in H as (_ & Hc & Ht). simpl. unfold dot at 1.
  now rewrite Hc, IH.
Qed.

Lemma split_one_line (t : str) : forallb dot t = true -> split nl t = [t].
Proof.
  induction t as [|c t IH]; [reflexivity|]. simpl. intros H.
  apply andb_true_iff in H as [Hc Ht]. unfold dot in Hc.
  apply negb_true_iff in Hc. rewrite Hc, (IH Ht). reflexivity.
Qed.

Lemma takewhile_whole (p : char -> bool) (t : str) :
  forallb p t = true -> takewhile p t = t.
Proof.
  induction t as [|c t IH]; [reflexivity|]. simpl. intros H.
  apply andb_true_iff in H as [-> Ht]. now rewrite IH.
Qed.

Lemma no_match (r : regex) (s : mstate) :
  (forall s', ~ In s' (m r s)) -> m r s = [].
Proof.
  intros H. destruct (m r s) as [|s' rest]; [reflexivity|].
  exfalso. apply (H s'). now left.
Qed.

Lemma m_lit_fail (w : str) (r : regex) (s : mstate) :
  startswith w (post s) = false -> m (Cat (lit w) r) s = [].
Proof.
  intros H. apply no_match. intros s' Hin.
  apply in_m_cat in Hin as (s1 & H1 & _). apply in_m_lit in H1 as [[H1 _] _].
  rewrite H1, startswith_app in H. discriminate.
Qed.

Lemma startswith_head_neq (d c : char) (w t : str) :
  (d =? c)%N = false -> startswith (d :: w) (c :: t) = false.
Proof. intros H. cbn [startswith]. now rewrite H. Qed.

(** Where the text ahead begins with a character that is no delimiter,
    none of the six markup alternatives matches. *)
Lemma markup_alternatives_fail (pr t : str) (c : char) (cs : list (nat * str)) :
  noneof delims c = true ->
  let s := MState pr (c :: t) cs in
  m bold_re s = [] /\ m under_re s = [] /\ m star_re s = [] /\
  m code_re s = [] /\ m strike_re s = [] /\ m link_alt_re s = [].
Proof.
  intros H. apply noneof_delims in H as (H1 & H2 & H3 & H4 & H5).
  cbv zeta. unfold bold_re, under_re, star_re, code_re, strike_re, link_alt_re.
  cbn [cat].
  repeat split; apply m_lit_fail; apply startswith_head_neq;
    first [exact H1 | exact H2 | exact H3 | exact H4 | exact H5].
Qed.

Lemma tries_greedy (k : nat) : tries greedy k = k :: rev (seq 0 k).
Proof. unfold tries, greedy. rewrite seq_S, rev_app_distr. reflexivity. Qed.

Lemma adv_app (s : mstate) (x y : str) :
  post s = x ++ y -> adv s (length x) = MState (rev x ++ pre s) y (caps s).
Proof.
  intros H. unfold adv.
  rewrite H, firstn_app, Nat.sub_diag, firstn_all, skipn_app, Nat.sub_diag,
    skipn_all.
  simpl. now rewrite app_nil_r.
Qed.

Lemma last_snoc (t : str) (z d : char) : last (t ++ [z]) d = z.
Proof. apply last_last. Qed.

Lemma plain_unfold (pr t : str) (c : char) (cs : list (nat * str)) :
  noneof delims c = true -> forallb (noneof delims) t = true ->
  m plain_re (MState pr (c :: t) cs)
  = flat_map (m (Cls (fun c0 => negb (oneof delims c0 || isspace c0))))
             (List.map (adv (MState (c :: pr) t cs))
                       (tries greedy (length t)))
    ++ [MState (c :: pr) t cs].
Proof.
  intros Hc Ht. unfold plain_re. cbn [cat].
  set (X := Cat (Rep greedy (Cls (noneof delims)))
                (Cls (fun c0 => negb (oneof delims c0 || isspace c0)))).
  set (s1 := MState (c :: pr) t cs).
  assert (E1 : m (Cat (Cls (noneof delims)) (Opt X)) (MState pr (c :: t) cs)
               = m X s1 ++ [s1]).
  { cbn [m Opt post pre caps]. rewrite Hc. cbn [flat_map].
    now rewrite app_nil_r. }
  rewrite E1. f_equal.
  unfold X. change (m (Cat ?a ?b) s1) with (flat_map (m b) (m a s1)).
  rewrite m_rep_cls. unfold s1 at 2. cbn [post].
  now rewrite (takewhile_whole _ _ Ht).
Qed.

(** On a stretch without delimiters that does not end in whitespace,
    the plain alternative first takes the whole stretch. *)
Lemma plain_head (pr t : str) (c : char) (cs : list (nat * str)) :
  forallb (noneof delims) (c :: t) = true ->
  isspace (last (c :: t) 0%N) = false ->
  exists rest,
    m plain_re (MState pr (c :: t) cs)
    = MState (rev (c :: t) ++ pr) [] cs :: rest.
Proof.
  intros Hnd Hlast. simpl in Hnd. apply andb_true_iff in Hnd as [Hc Ht].
  rewrite (plain_unfold pr t c cs Hc Ht), tries_greedy.
  assert (Hcases : t = [] \/ exists t' z, t = t' ++ [z]).
  { destruct t as [|a t0]; [now left|right].
    destruct (@exists_last _ (a :: t0)) as (t' & z & Hz); [discriminate|].
    now exists t', z. }
  destruct Hcases as [->|(t' & z & ->)].
  - cbn [length seq rev List.map flat_map].
    rewrite adv_zero. cbn [m post]. eexists. reflexivity.
  - set (s1 := MState (c :: pr) (t' ++ [z]) cs).
    assert (Hlen : length (t' ++ [z]) = S (length t'))
      by (rewrite length_app; simpl; lia).
    rewrite Hlen. rewrite seq_S, rev_app_distr. cbn [rev app List.map flat_map].
    assert (A1 : adv s1 (S (length t'))
                 = MState (rev (t' ++ [z]) ++ c :: pr) [] cs).
    { rewrite <- Hlen. apply (adv_app s1 (t' ++ [z]) []).
      unfold s1. cbn [post]. now rewrite app_nil_r. }
    assert (A2 : adv s1 (length t') = MState (rev t' ++ c :: pr) [z] cs).
    { now apply (adv_app s1 t' [z]). }
    cbn [Nat.add]. rewrite A1, A2. cbn [m post pre caps].
    assert (Hz : negb (oneof delims z || isspace z) = true).
    { rewrite forallb_app in Ht. apply andb_true_iff in Ht as [_ Ht].
      simpl in Ht. rewrite andb_true_r in Ht. unfold noneof in Ht.
      apply negb_true_iff in Ht. rewrite Ht.
      change (c :: t' ++ [z]) with ((c :: t') ++ [z]) in Hlast.
      rewrite last_snoc in Hlast. now rewrite Hlast. }
    rewrite Hz. cbn [app]. eexists. f_equal. f_equal.
    rewrite rev_app_distr. cbn [rev app]. now rewrite <- app_assoc.
Qed.

Lemma inline_at_plain (pr t : str) (c : char) (cs : list (nat * str)) :
  noneof delims c = true ->
  m inline_re (MState pr (c :: t) cs)
  = List.map (set_cap 1 (MState pr (c :: t) cs))
             (m plain_re (MState pr (c :: t) cs)).
Proof.
  intros H.
  destruct (@markup_alternatives_fail pr t c cs H) as (H1 & H2 & H3 & H4 & H5 & H6).
  cbv zeta in *. unfold inline_re. cbn [alt].
  change (m (Grp 1 ?r) ?s) with (List.map (set_cap 1 s) (m r s)).
  f_equal.
  repeat (match goal with
          | |- m (Alt ?a ?b) ?s = _ => change (m (Alt a b) s) with (m a s ++ m b s)
          end;
          first [rewrite H1 | rewrite H2 | rewrite H3 | rewrite H4
                | rewrite H5 | rewrite H6];
          cbn [app]).
  reflexivity.
Qed.

Lemma inline_consuming : consuming inline_re = true.
Proof. reflexivity. Qed.

Lemma inline_at_end (pr : str) (cs : list (nat * str)) :
  m inline_re (MState pr [] cs) = [].
Proof.
  apply no_match. intros s' H.
  apply (m_consuming inline_re inline_consuming) in H. simpl in H. lia.
Qed.

Lemma blank_last (t : str) :
  t <> [] -> isspace (last t 0%N) = false -> blank t = false.
Proof.
  intros Hne H. destruct (@exists_last _ t Hne) as (t' & z & ->).
  rewrite last_snoc in H. unfold blank. rewrite forallb_app. simpl.
  rewrite H. apply andb_false_r.
Qed.

(** A text without delimiters is neither bold, italic, code, struck
    out nor a link. *)
Lemma plain_token_flags (c : char) (t : str) :
  noneof delims c = true ->
  is_bold (c :: t) = false /\ is_italic (c :: t) = false /\
  is_code (c :: t) = false /\ is_strikethrough (c :: t) = false /\
  is_link (c :: t) = false.
Proof.
  intros H. apply noneof_delims in H as (H1 & H2 & H3 & H4 & H5).
  unfold is_bold, is_italic, is_code, is_strikethrough, is_link.
  assert (B1 : startswith (py "**") (c :: t) = false)
    by (apply startswith_head_neq; exact H1).
  assert (B2 : startswith (py "*") (c :: t) = false)
    by (apply startswith_head_neq; exact H1).
  assert (B3 : startswith (py "_") (c :: t) = false)
    by (apply startswith_head_neq; exact H2).
  assert (B4 : startswith (py "`") (c :: t) = false)
    by (apply startswith_head_neq; exact H3).
  assert (B5 : startswith (py "~~") (c :: t) = false)
    by (apply startswith_head_neq; exact H4).
  assert (B6 : startswith (py "[") (c :: t) = false)
    by (apply startswith_head_neq; exact H5).
  rewrite B1, B2, B3, B4, B5, B6. auto.
Qed.

Lemma process_plain_token (lu : option str) (c : char) (t : str) :
  noneof delims c = true ->
  process_token lu (markdown, (c :: t) : str)
  = if xml_text (c :: t) then Ok (Some (plain_run (c :: t)), lu)
    else Raise ValueError.
Proof.
  intros H. destruct (@plain_token_flags c t H) as (H1 & H2 & H3 & H4 & H5).
  unfold process_token. rewrite H1, H2, H3, H4, H5. unfold set_text.
  destruct (xml_text (c :: t)); reflexivity.
Qed.

Lemma tokenize_plain (t : str) :
  t <> [] -> forallb (noneof delims) t = true ->
  isspace (last t 0%N) = false ->
  tokenize t = [(markdown, t)].
Proof.
  intros Hne Hnd Hlast. destruct t as [|c t]; [easy|].
  assert (Hc : noneof delims c = true)
    by (simpl in Hnd; now apply andb_true_iff in Hnd as [Hc _]).
  destruct (@plain_head [] t c [] Hnd Hlast) as [rest Hm].
  unfold tokenize, finditer.
  cbn [finditer_from]. rewrite (@inline_at_plain [] t c [] Hc), Hm.
  cbn [List.map set_cap post pre length Nat.ltb Nat.leb].
  cbn [finditer_from]. rewrite inline_at_end.
  unfold mk_mobj, consumed, set_cap.
  cbn [pre post caps length tokens_loop Nat.ltb Nat.leb m_start m_end m_text
       app Nat.sub].
  rewrite app_nil_r, length_rev. cbn [length].
  replace (S (length t) <=? length t) with false
    by (symmetry; apply Nat.leb_gt; lia).
  change (firstn (S (length t)) (c :: t)) with (c :: firstn (length t) t).
  now rewrite firstn_all.
Qed.

(** C7 (as stated) fails: a text without delimiters that ends in a
    space gives two spans, the text before the space and the space. *)
Lemma C7_counterexample :
  parse_markdown_formatting (py "a ")
  = Ok [[plain_run (py "a"); plain_run (py " ")]].
Proof. vm_compute. reflexivity. Qed.

(** C7 (amended).  For every non-empty text of one line that contains
    none of the delimiter characters and does not end in whitespace,
    the formatter returns exactly one span, whose text is the input and
    on which no style is set, provided the text holds only characters
    the presentation takes; a text with U+FFFE, U+FFFF or a surrogate
    in it is refused when it is assigned to the span, and the formatter
    raises [ValueError]. *)
Theorem C7_plain_text_is_one_plain_span (text : str) :
  text <> [] ->
  plain_text text = true ->
  isspace (last text 0%N) = false ->
  parse_markdown_formatting text
  = if xml_text text then Ok [[plain_run text]] else Raise ValueError.
Proof.
  intros Hne Hp Hlast. unfold parse_markdown_formatting.
  rewrite (split_one_line _ (plain_text_dot _ Hp)).
  cbn [lines_loop]. rewrite (blank_last Hne Hlast).
  rewrite (tokenize_plain Hne (plain_text_noneof _ Hp) Hlast).
  destruct text as [|c t]; [easy|].
  apply plain_text_cons in Hp as (Hc & _ & _).
  cbn [runs_loop]. rewrite (@process_plain_token None c t Hc).
  destruct (xml_text (c :: t)); reflexivity.
Qed.

(** A plain sentence gives one plain span; with U+FFFE in it, it is
    refused. *)
Lemma C7_plain_text_is_one_plain_span_witness :
  parse_markdown_formatting (py "Hello world")
  = Ok [[plain_run (py "Hello world")]] /\
  parse_markdown_formatting (py "Hello" ++ [65534%N] ++ py "world")
  = Raise ValueError.
Proof.
  split.
  - apply (@C7_plain_text_is_one_plain_span (py "Hello world"));
      [discriminate | reflexivity | reflexivity].
  - apply (@C7_plain_text_is_one_plain_span
             (py "Hello" ++ [65534%N] ++ py "world"));
      [discriminate | reflexivity | reflexivity].
Defined.

(** ** The shapes of inline matches *)

Lemma in_m_delimited (o cl : str) (p : char -> bool) (s s' : mstate) :
  In s' (m (cat [lit o; Plus greedy (Cls p); lit cl]) s) ->
  exists x, x <> [] /\ forallb p x = true /\ reads s (o ++ x ++ cl) s'.
Proof.
  cbn [cat]. intros H. apply in_m_cat in H as (s1 & H1 & H).
  apply in_m_cat in H as (s2 & H2 & H3).
  apply in_m_lit in H1 as [R1 _]. apply in_m_lit in H3 as [R3 _].
  apply in_m_plus_cls in H2 as (x & Hne & Hx & R2 & _).
  exists x. repeat split; auto.
  - apply (reads_trans R1 (reads_trans R2 R3)).
  - apply (reads_trans R1 (reads_trans R2 R3)).
Qed.

Lemma in_m_link_alt (s s' : mstate) :
  In s' (m link_alt_re s) ->
  exists x u, x <> [] /\ forallb (noneof (py "]")) x = true /\
              u <> [] /\ forallb (noneof (py ")")) u = true /\
              reads s (py "[" ++ x ++ py "](" ++ u ++ py ")") s'.
Proof.
  unfold link_alt_re. cbn [cat]. intros H.
  apply in_m_cat in H as (s1 & H1 & H). apply in_m_cat in H as (s2 & H2 & H).
  apply in_m_cat in H as (s3 & H3 & H). apply in_m_cat in H as (s4 & H4 & H5).
  apply in_m_lit in H1 as [R1 _]. apply in_m_lit in H3 as [R3 _].
  apply in_m_lit in H5 as [R5 _].
  apply in_m_plus_cls in H2 as (x & Hne & Hx & R2 & _).
  apply in_m_plus_cls in H4 as (u & Hnu & Hu & R4 & _).
  exists x, u. repeat split; auto;
    apply (reads_trans R1 (reads_trans R2 (reads_trans R3 (reads_trans R4 R5)))).
Qed.

Lemma in_m_plain (s s' : mstate) :
  In s' (m plain_re s) ->
  exists w, w <> [] /\ forallb (noneof delims) w = true /\ reads s w s'.
Proof.
  unfold plain_re. cbn [cat]. intros H.
  apply in_m_cat in H as (s1 & H1 & H).
  apply in_m_cls in H1 as (c & Hc & R1 & _).
  unfold Opt in H. apply in_m_alt in H as [H|H].
  - apply in_m_cat in H as (s2 & H2 & H3).
    apply in_m_rep_cls in H2 as (x & Hx & R2 & _).
    apply in_m_cls in H3 as (z & Hz & R3 & _).
    exists ([c] ++ x ++ [z]). split; [discriminate|]. split.
    + simpl. rewrite Hc, forallb_app, Hx. simpl.
      apply negb_true_iff, orb_false_iff in Hz as [Hz _].
      unfold noneof. now rewrite Hz.
    + apply (reads_trans R1 (reads_trans R2 R3)).
  - destruct H as [<-|[]]. exists [c]. split; [discriminate|]. split.
    + simpl. now rewrite Hc.
    + exact R1.
Qed.

(** Every match of the inline pattern reads a text of one of the
    shapes. *)
Lemma inline_shape (s s' : mstate) :
  In s' (m inline_re s) -> exists w, reads s w s' /\ shape w.
Proof.
  unfold inline_re. intros H. apply in_m_grp in H as (s1 & H & ->).
  assert (Hr : forall w, reads s w s1 -> reads s w (set_cap 1 s s1))
    by (intros w [R1 R2]; now split).
  cbn [alt] in H.
  apply in_m_alt in H as [H|H];
    [apply in_m_delimited in H as (x & Hne & Hx & R);
     eexists; split; [apply Hr, R|now apply shape_bold]|].
  apply in_m_alt in H as [H|H];
    [apply in_m_delimited in H as (x & Hne & Hx & R);
     eexists; split; [apply Hr, R|now apply shape_under]|].
  apply in_m_alt in H as [H|H];
    [apply in_m_delimited in H as (x & Hne & Hx & R);
     eexists; split; [apply Hr, R|now apply shape_star]|].
  apply in_m_alt in H as [H|H];
    [apply in_m_delimited in H as (x & Hne & Hx & R);
     eexists; split; [apply Hr, R|now apply shape_code]|].
  apply in_m_alt in H as [H|H];
    [apply in_m_delimited in H as (x & Hne & Hx & R);
     eexists; split; [apply Hr, R|now apply shape_strike]|].
  apply in_m_alt in H as [H|H].
  - apply in_m_link_alt in H as (x & u & Hne & Hx & Hnu & Hu & R).
    eexists; split; [apply Hr, R|now apply shape_link].
  - apply in_m_plain in H as (w & Hne & Hw & R).
    eexists; split; [apply Hr, R|now apply shape_plain].
Qed.

(** Where the text ahead begins with a character that is no
    delimiter, the inline pattern matches. *)
Lemma inline_matches_plain (pr t : str) (c : char) (cs : list (nat * str)) :
  noneof delims c = true -> m inline_re (MState pr (c :: t) cs) <> [].
Proof.
  intros Hc. rewrite (@inline_at_plain pr t c cs Hc).
  assert (Hin : In (MState (c :: pr) t cs)
                   (m plain_re (MState pr (c :: t) cs))).
  { unfold plain_re. cbn [cat]. apply in_m_cat.
    exists (MState (c :: pr) t cs). split.
    - apply in_m_cls. exists c. repeat split; auto.
    - unfold Opt. apply in_m_alt. right. now left. }
  destruct (m plain_re (MState pr (c :: t) cs)); [easy|discriminate].
Qed.

Lemma inline_gap (before t : str) (c : char) :
  m inline_re (MState before (c :: t) []) = [] -> oneof delims c = true.
Proof.
  intros H. destruct (oneof delims c) eqn:E; [reflexivity|].
  exfalso. apply (@inline_matches_plain before t c []); [|exact H].
  unfold noneof. now rewrite E.
Qed.

(** ** Rendering a token *)

Lemma endswith_app (p a : str) : endswith p (a ++ p) = true.
Proof. unfold endswith. rewrite rev_app_distr. apply startswith_app. Qed.

Lemma slice_mid_app (o x cl : str) :
  slice_mid (o ++ x ++ cl) (length o) (length cl) = x.
Proof.
  unfold slice_mid. rewrite !length_app, skipn_app, Nat.sub_diag, skipn_all.
  simpl.
  replace (length o + (length x + length cl) - length cl - length o)
    with (length x) by lia.
  now rewrite firstn_app, Nat.sub_diag, firstn_all, app_nil_r.
Qed.

Lemma startswith_delimited (o x cl : str) : startswith o (o ++ x ++ cl) = true.
Proof. apply startswith_app. Qed.

Lemma endswith_delimited (o x cl : str) : endswith cl (o ++ x ++ cl) = true.
Proof. rewrite app_assoc. apply endswith_app. Qed.

Lemma noneof_one (d c : char) : noneof [d] c = true -> (d =? c)%N = false.
Proof.
  unfold noneof, oneof. simpl. rewrite orb_false_r, N.eqb_sym.
  now intros H%negb_true_iff.
Qed.

(** A text is cut in one way only at the first occurrence of a
    character. *)
Lemma break_unique (d : char) (a b p q : str) :
  forallb (noneof [d]) a = true -> forallb (noneof [d]) b = true ->
  a ++ d :: p = b ++ d :: q -> a = b /\ p = q.
Proof.
  revert b. induction a as [|c a IH]; intros b Ha Hb E.
  - destruct b as [|e b]; simpl in *.
    + injection E as ->. auto.
    + injection E as <- _. apply andb_true_iff in Hb as [Hb _].
      apply noneof_one in Hb. rewrite N.eqb_refl in Hb. discriminate.
  - destruct b as [|e b]; simpl in *.
    + injection E as -> _. apply andb_true_iff in Ha as [Ha _].
      apply noneof_one in Ha. rewrite N.eqb_refl in Ha. discriminate.
    + injection E as <- E. apply andb_true_iff in Ha as [_ Ha].
      apply andb_true_iff in Hb as [_ Hb].
      destruct (IH b Ha Hb E) as [-> ->]. auto.
Qed.

Lemma in_m_grp_plus (n : nat) (g : bool) (p : char -> bool) (s s' : mstate) :
  In s' (m (Grp n (Plus g (Cls p))) s) <->
  exists x, x <> [] /\ forallb p x = true /\ reads s x s' /\
            caps s' = (n, x) :: caps s.
Proof.
  rewrite in_m_grp. split.
  - intros (s1 & H1 & ->).
    apply in_m_plus_cls in H1 as (x & Hne & Hx & Hr & Hc).
    exists x. repeat split; auto; try apply Hr.
    simpl. now rewrite (reads_consumed Hr), Hc.
  - intros (x & Hne & Hx & Hr & Hc).
    exists (MState (pre s') (post s') (caps s)).
    assert (Hr' : reads s x (MState (pre s') (post s') (caps s)))
      by (split; apply Hr).
    split.
    + apply in_m_plus_cls. exists x. repeat split; auto; apply Hr.
    + unfold set_cap. simpl. rewrite (reads_consumed Hr').
      destruct s'; simpl in *. now rewrite Hc.
Qed.

Lemma in_m_link2 (s s' : mstate) :
  In s' (m link_re2 s) <->
  exists x u, x <> [] /\ forallb (noneof (py "]")) x = true /\
              u <> [] /\ forallb (noneof (py ")")) u = true /\
              reads s (py "[" ++ x ++ py "](" ++ u ++ py ")") s' /\
              caps s' = (2, u) :: (1, x) :: caps s.
Proof.
  unfold link_re2. cbn [cat]. split.
  - intros H.
    apply in_m_cat in H as (s1 & H1 & H). apply in_m_cat in H as (s2 & H2 & H).
    apply in_m_cat in H as (s3 & H3 & H). apply in_m_cat in H as (s4 & H4 & H5).
    apply in_m_lit in H1 as [R1 C1]. apply in_m_lit in H3 as [R3 C3].
    apply in_m_lit in H5 as [R5 C5].
    apply in_m_grp_plus in H2 as (x & Hne & Hx & R2 & C2).
    apply in_m_grp_plus in H4 as (u & Hnu & Hu & R4 & C4).
    exists x, u. repeat split; auto;
      try apply (reads_trans R1 (reads_trans R2 (reads_trans R3
                                                 (reads_trans R4 R5)))).
    now rewrite C5, C4, C3, C2, C1.
  - intros (x & u & Hne & Hx & Hnu & Hu & [R1 R2] & C).
    set (q := post s').
    apply in_m_cat.
    exists (MState (rev (py "[") ++ pre s)
                   (x ++ py "](" ++ u ++ py ")" ++ q) (caps s)).
    split; [apply in_m_lit; repeat split; simpl; auto;
            rewrite R1; now rewrite <- !app_assoc|].
    apply in_m_cat.
    exists (MState (rev x ++ rev (py "[") ++ pre s)
                   (py "](" ++ u ++ py ")" ++ q) ((1, x) :: caps s)).
    split; [apply in_m_grp_plus; exists x; repeat split; simpl; auto|].
    apply in_m_cat.
    exists (MState (rev (py "](") ++ rev x ++ rev (py "[") ++ pre s)
                   (u ++ py ")" ++ q) ((1, x) :: caps s)).
    split; [apply in_m_lit; repeat split; simpl; auto|].
    apply in_m_cat.
    exists (MState (rev u ++ rev (py "](") ++ rev x ++ rev (py "[") ++ pre s)
                   (py ")" ++ q) ((2, u) :: (1, x) :: caps s)).
    split; [apply in_m_grp_plus; exists u; repeat split; simpl; auto|].
    apply in_m_lit. repeat split; simpl; auto.
    rewrite R2. rewrite !rev_app_distr. simpl. now rewrite <- !app_assoc.
Qed.

(** [re.match] of the link pattern on a link token gives back its two
    parts. *)
Lemma link_match (x u : str) :
  x <> [] -> forallb (noneof (py "]")) x = true ->
  u <> [] -> forallb (noneof (py ")")) u = true ->
  exists mo, re_match link_re2 (py "[" ++ x ++ py "](" ++ u ++ py ")")
             = Some mo /\
             group mo 1 = Some x /\ group mo 2 = Some u.
Proof.
  intros Hne Hx Hnu Hu.
  set (w := py "[" ++ x ++ py "](" ++ u ++ py ")").
  assert (Hin : In (MState (rev w) [] [(2, u); (1, x)])
                   (m link_re2 (MState [] w []))).
  { apply in_m_link2. exists x, u. repeat split; simpl; auto.
    - fold w. now rewrite app_nil_r.
    - now rewrite app_nil_r. }
  unfold re_match, match_at.
  destruct (m link_re2 (MState [] w [])) as [|s' rest] eqn:E; [easy|].
  assert (Hin' : In s' (m link_re2 (MState [] w []))) by (rewrite E; now left).
  apply in_m_link2 in Hin' as (x' & u' & _ & Hx' & _ & Hu' & [R _] & C).
  simpl in R. unfold w in R. injection R as R.
  repeat (rewrite <- app_assoc in R; simpl in R).
  change (py ")") with [41%N] in R.
  apply (@break_unique 93%N x x' _ _ Hx Hx') in R as [<- R].
  injection R as R.
  apply (@break_unique 41%N u u' _ _ Hu Hu') in R as [<- _].
  eexists. split; [reflexivity|]. unfold group. cbn [m_caps mk_mobj].
  rewrite C. auto.
Qed.

(** A token that is no link: its text without the markers becomes the
    text of the run, if the presentation takes it, and the run is
    bold, italic or in the code font as the token says; the
    strikethrough is not set. *)
Lemma process_token_styles (lu : option str) (w x : str) (b i c k : bool) :
  is_bold w = b -> is_italic w = i -> is_code w = c ->
  is_strikethrough w = k -> is_link w = false ->
  (if b then slice_mid w 2 2
   else if i then slice_mid w 1 1
   else if c then slice_mid w 1 1
   else if k then slice_mid w 2 2
   else w) = x ->
  process_token lu (markdown, w : str)
  = if xml_text x then Ok (Some (Run x b i c false None), lu)
    else Raise ValueError.
Proof.
  intros Hb Hi Hc Hk Hl Hx. unfold process_token.
  rewrite Hb, Hi, Hc, Hk, Hl. unfold set_font_strikethrough, set_text.
  destruct b; [rewrite Hx; destruct (xml_text x); now destruct k|].
  destruct i; [rewrite Hx; destruct (xml_text x); now destruct k|].
  destruct c; [rewrite Hx; destruct (xml_text x); now destruct k|].
  destruct k; rewrite Hx; now destruct (xml_text x).
Qed.

Lemma process_token_flags (lu : option str) (w x : str) (b i c k : bool) :
  is_bold w = b -> is_italic w = i -> is_code w = c ->
  is_strikethrough w = k -> is_link w = false ->
  (if b then slice_mid w 2 2
   else if i then slice_mid w 1 1
   else if c then slice_mid w 1 1
   else if k then slice_mid w 2 2
   else w) = x ->
  xml_text x = true ->
  process_token lu (markdown, w : str)
  = Ok (Some (Run x b i c false None), lu).
Proof.
  intros Hb Hi Hc Hk Hl Hx Hxml.
  now rewrite (@process_token_styles lu w x b i c k Hb Hi Hc Hk Hl Hx), Hxml.
Qed.

Lemma slice_mid_2 (x : str) (a b c d : char) :
  slice_mid ([a; b] ++ x ++ [c; d]) 2 2 = x.
Proof. apply (slice_mid_app [a; b] x [c; d]). Qed.

Lemma slice_mid_1 (x : str) (a c : char) :
  slice_mid ([a] ++ x ++ [c]) 1 1 = x.
Proof. apply (slice_mid_app [a] x [c]). Qed.

(** A token of one of the shapes is rendered as one span: the text
    between its markers, with the style of the markers. *)
Lemma process_shape (lu : option str) (w : str) :
  shape w -> xml_text w = true ->
  exists r lu', process_token lu (markdown, w : str) = Ok (Some r, lu') /\
                marked w r.
Proof.
  intros H Hxml.
  assert (Hmid : forall o x cl : str,
             xml_text (o ++ x ++ cl) = true -> xml_text x = true).
  { intros o x cl E. apply xml_text_app_inv in E as [_ E].
    now apply xml_text_app_inv in E as [E _]. }
  destruct H as [x Hne Hx|x Hne Hx|x Hne Hx|x Hne Hx|x Hne Hx
                           |x u Hne Hx Hnu Hu|w Hne Hw].
  - exists (Run x true false false false None), lu. split; [|constructor].
    apply process_token_flags with (k := false); try reflexivity.
    + unfold is_bold.
      now rewrite startswith_delimited, endswith_delimited.
    + unfold is_italic. rewrite (startswith_delimited (py "**") x (py "**")).
      cbn [negb]. now rewrite andb_false_r.
    + apply slice_mid_2.
    + exact (Hmid _ _ _ Hxml).
  - exists (Run x false true false false None), lu. split; [|constructor].
    apply process_token_flags with (k := false); try reflexivity.
    + unfold is_italic.
      now rewrite startswith_delimited, endswith_delimited.
    + apply slice_mid_1.
    + exact (Hmid _ _ _ Hxml).
  - exists (Run x false true false false None), lu. split; [|constructor].
    pose proof (Hmid _ _ _ Hxml) as Hxx.
    destruct x as [|c x]; [easy|]. simpl in Hx.
    apply andb_true_iff in Hx as [Hc0 _].
    assert (Hc : (42 =? c)%N = false) by (apply noneof_one; exact Hc0).
    assert (Hs : startswith (py "**") (py "*" ++ (c :: x) ++ py "*") = false).
    { change (py "**") with [42%N; 42%N].
      change (py "*" ++ (c :: x) ++ py "*") with (42%N :: c :: x ++ py "*").
      cbn [startswith]. now rewrite Hc, andb_false_r. }
    apply process_token_flags with (k := false); try reflexivity.
    + unfold is_bold. now rewrite Hs.
    + unfold is_italic.
      rewrite startswith_delimited, endswith_delimited, Hs.
      apply orb_true_r.
    + apply slice_mid_1.
    + exact Hxx.
  - exists (Run x false false true false None), lu. split; [|constructor].
    apply process_token_flags with (k := false); try reflexivity.
    + unfold is_code.
      now rewrite startswith_delimited, endswith_delimited.
    + apply slice_mid_1.
    + exact (Hmid _ _ _ Hxml).
  - exists (Run x false false false false None), lu. split; [|constructor].
    apply process_token_flags with (k := true); try reflexivity.
    + unfold is_strikethrough.
      now rewrite startswith_delimited, endswith_delimited.
    + apply slice_mid_2.
    + exact (Hmid _ _ _ Hxml).
  - exists (Run x false false false false (Some u)), (Some u).
    split; [|constructor].
    destruct (link_match Hne Hx Hnu Hu) as (mo & Hm & H1 & H2).
    assert (Hl : is_link (py "[" ++ x ++ py "](" ++ u ++ py ")") = true).
    { unfold is_link. rewrite startswith_app. cbn [andb].
      apply contains_spec. exists (py "[" ++ x), (u ++ py ")").
      now rewrite <- !app_assoc. }
    unfold process_token.
    change (is_bold (py "[" ++ x ++ py "](" ++ u ++ py ")")) with false.
    change (is_italic (py "[" ++ x ++ py "](" ++ u ++ py ")")) with false.
    change (is_code (py "[" ++ x ++ py "](" ++ u ++ py ")")) with false.
    change (is_strikethrough (py "[" ++ x ++ py "](" ++ u ++ py ")"))
      with false.
    cbv iota. rewrite Hl, Hm, H1, H2.
    rewrite (set_text_ok _ (Hmid _ _ _ Hxml)). reflexivity.
  - destruct w as [|c w]; [easy|]. simpl in Hw.
    apply andb_true_iff in Hw as [Hc _].
    exists (plain_run (c :: w)), lu. split; [|constructor].
    rewrite (@process_plain_token lu c w Hc), Hxml. reflexivity.
Qed.

Lemma delims_not_space (c : char) : oneof delims c = true -> isspace c = false.
Proof.
  unfold oneof, delims. simpl existsb. rewrite orb_false_r.
  intros H.
  repeat (apply orb_true_iff in H as [H|H];
          [apply N.eqb_eq in H; subst c; reflexivity|]).
  apply N.eqb_eq in H. subst c. reflexivity.
Qed.

(** A stretch of delimiter characters between two matches is always
    taken: it holds no character the presentation refuses. *)
Lemma process_gap_token (lu : option str) (w : str) :
  w <> [] -> forallb (oneof delims) w = true ->
  process_token lu (plain, w) = Ok (Some (plain_run w), lu).
Proof.
  intros Hne Hw. unfold process_token.
  rewrite (set_text_ok _ (delims_xml _ Hw)).
  destruct w as [|c w]; [easy|]. simpl in Hw.
  apply andb_true_iff in Hw as [Hc _].
  unfold blank. simpl forallb. now rewrite (delims_not_space _ Hc).
Qed.

(** The runs of a line, from its tokens. *)
Lemma runs_loop_ok (tokens : list token) :
  Forall token_ok tokens ->
  xml_text (concat (List.map snd tokens)) = true ->
  forall lu p,
  exists rs lu',
    runs_loop lu tokens p = Ok (p ++ rs, lu') /\ Forall2 emitted tokens rs.
Proof.
  induction 1 as [|[ty w] tokens Hok _ IH]; intros Hxml lu p.
  - exists [], lu. split; [simpl; now rewrite app_nil_r|constructor].
  - cbn [List.map concat snd] in Hxml.
    apply xml_text_app_inv in Hxml as [Hw Hrest]. specialize (IH Hrest).
    destruct ty; simpl in Hok.
    + destruct Hok as [Hne Hd].
      destruct (IH lu (p ++ [plain_run w])) as (rs & lu' & Hr & Hf).
      exists (plain_run w :: rs), lu'. split.
      * cbn [runs_loop]. rewrite (process_gap_token lu Hne Hd).
        rewrite Hr. now rewrite <- app_assoc.
      * constructor; [reflexivity|exact Hf].
    + destruct (process_shape lu Hok Hw) as (r & lu1 & Hp & Hm).
      destruct (IH lu1 (p ++ [r])) as (rs & lu' & Hr & Hf).
      exists (r :: rs), lu'. split.
      * cbn [runs_loop]. rewrite Hp. rewrite Hr. now rewrite <- app_assoc.
      * constructor; [exact Hm|exact Hf].
Qed.

(** ** The tokens of a line *)

Lemma tokens_loop_acc (line : str) (ms : list mobj) :
  forall last_end acc,
    tokens_loop line ms last_end acc
    = (acc ++ fst (tokens_loop line ms last_end []),
       snd (tokens_loop line ms last_end [])).
Proof.
  induction ms as [|mt ms IH]; intros last_end acc; cbn [tokens_loop].
  - simpl. now rewrite app_nil_r.
  - rewrite IH. rewrite (IH _ ((if last_end <? m_start mt then _ else _) ++ _)).
    cbn [fst snd]. f_equal.
    destruct (last_end <? m_start mt); cbn [app]; now rewrite <- !app_assoc.
Qed.

Section TokensOfScan.

Variable r : regex.
Variable G : char -> bool.
Hypothesis r_progress :
  forall s s', In s' (m r s) -> length (post s') < length (post s).
Hypothesis r_gap :
  forall before c t, m r (MState before (c :: t) []) = [] -> G c = true.
Variable line : str.

(** The loop over the matches, resumed in the middle of the line:
    [gap] is the unmatched stretch since [last_end]. *)
Lemma scan_tokens (fuel : nat) :
  forall before after last_end gap,
    length after < fuel ->
    line = rev before ++ after ->
    skipn last_end line = gap ++ after ->
    last_end + length gap = length before ->
    forallb G gap = true ->
    exists T e,
      tokens_loop line (finditer_from r fuel before after) last_end [] = (T, e) /\
      let T' := if e <? length line
                then T ++ [(plain, slice_from line e)] else T in
      concat (List.map snd T') = gap ++ after /\
      Forall (scan_token_ok r G line) T'.
Proof.
  induction fuel as [|n IH]; intros before after le gap Hf Hl Hs Hg HG; [lia|].
  cbn [finditer_from].
  destruct (m r (MState before after [])) as [|s' rest] eqn:Em.
  - destruct after as [|c t].
    + exists [], le. split; [reflexivity|]. cbv zeta.
      rewrite app_nil_r in Hs, Hl.
      assert (Hlen : length line = le + length gap)
        by (rewrite Hl, length_rev; lia).
      unfold slice_from. rewrite Hs, app_nil_r.
      destruct (Nat.ltb_spec le (length line)) as [Hlt|Hge].
      * cbn [app List.map concat snd]. rewrite app_nil_r. split; [reflexivity|].
        constructor; [|constructor]. split; [|exact HG].
        intros ->. simpl in Hlen. lia.
      * destruct gap; [|simpl in Hlen; lia]. split; [reflexivity|constructor].
    + pose proof (r_gap _ _ _ Em) as Hc.
      destruct (IH (c :: before) t le (gap ++ [c])) as (T & e & HT & Hres).
      * simpl in Hf. lia.
      * rewrite Hl. simpl. now rewrite <- app_assoc.
      * rewrite Hs. now rewrite <- app_assoc.
      * rewrite length_app. simpl. lia.
      * rewrite forallb_app, HG. simpl. now rewrite Hc.
      * exists T, e. split; [exact HT|]. cbv zeta in *.
        now rewrite <- app_assoc in Hres.
  - assert (Hin : In s' (m r (MState before after []))) by (rewrite Em; now left).
    pose proof (r_progress _ _ Hin) as Hp. cbn [post] in Hp.
    destruct (m_reads r _ _ Hin) as (w & _ & Hr & _).
    pose proof Hr as [Hr1 Hr2]. cbn [post pre] in Hr1, Hr2.
    replace (length (post s') <? length after) with true
      by (symmetry; now apply Nat.ltb_lt).
    cbn [tokens_loop]. rewrite tokens_loop_acc.
    destruct (IH (pre s') (post s') (length (pre s')) []) as (T2 & e2 & HT2 & Hres).
    + lia.
    + rewrite Hl, Hr1, Hr2, rev_app_distr, rev_involutive.
      now rewrite <- app_assoc.
    + rewrite Hl, Hr1, Hr2. rewrite app_assoc.
      replace (rev before ++ w) with (rev (rev w ++ before))
        by (now rewrite rev_app_distr, rev_involutive).
      rewrite skipn_app, length_rev, Nat.sub_diag.
      rewrite skipn_all2 by (rewrite length_rev; lia). reflexivity.
    + simpl. lia.
    + reflexivity.
    + cbv zeta in Hres. destruct Hres as [Hcat Hok].
      cbn [m_start m_end m_text mk_mobj pre]. rewrite HT2. cbn [fst snd].
      rewrite (reads_consumed Hr).
      set (acc := (if le <? length before
                   then [] ++ [(plain, slice line le (length before))]
                   else []) ++ [(markdown, w)]).
      exists (acc ++ T2), e2. split; [reflexivity|]. cbv zeta.
      assert (Hslice : slice line le (length before) = gap).
      { unfold slice. rewrite Hs.
        replace (length before - le) with (length gap) by lia.
        now rewrite firstn_app, Nat.sub_diag, firstn_all, app_nil_r. }
      assert (Hacc : concat (List.map snd acc) = gap ++ w /\
                     Forall (scan_token_ok r G line) acc).
      { unfold acc. rewrite Hslice.
        assert (Hmd : scan_token_ok r G line (markdown, w)).
        { exists (MState before after []), s'. auto. }
        destruct (Nat.ltb_spec le (length before)) as [Hlt|Hge].
        - cbn [app List.map concat snd]. rewrite app_nil_r. split; [reflexivity|].
          constructor; [|constructor; [exact Hmd|constructor]].
          split; [|exact HG]. intros ->. simpl in Hg. lia.
        - destruct gap; [|simpl in Hg; lia].
          cbn [app List.map concat snd]. rewrite app_nil_r. split; [reflexivity|].
          constructor; [exact Hmd|constructor]. }
      destruct Hacc as [Hacc1 Hacc2]. unfold token in *.
      destruct (e2 <? length line).
      * rewrite <- app_assoc, map_app, concat_app, Hcat, Hacc1, Hr1.
        split; [now rewrite <- app_assoc|].
        apply Forall_app. now split.
      * rewrite map_app, concat_app, Hcat, Hacc1, Hr1.
        split; [now rewrite <- app_assoc|].
        apply Forall_app. now split.
Qed.

End TokensOfScan.

(** The tokens of a line are the line cut into pieces: tokens between
    matches are made of delimiter characters, matched tokens are
    matches of the inline pattern. *)
Lemma tokenize_scan (l : str) :
  l <> [] ->
  concat (List.map snd (tokenize l)) = l /\
  Forall (scan_token_ok inline_re (oneof delims) l) (tokenize l).
Proof.
  intros Hne. unfold tokenize, finditer.
  destruct (@scan_tokens inline_re (oneof delims)
              (m_consuming inline_re inline_consuming)
              (fun b c t => @inline_gap b t c) l
              (S (length l)) [] l 0 [])
    as (T & e & HT & Hcat & Hok); auto.
  rewrite HT. simpl app in Hcat.
  destruct (if e <? length l then T ++ [(plain, slice_from l e)] else T)
    as [|tok toks] eqn:E.
  - simpl in Hcat. now subst l.
  - split; assumption.
Qed.

Lemma tokenize_concat (l : str) : concat (List.map snd (tokenize l)) = l.
Proof.
  destruct l as [|c l]; [reflexivity|].
  now apply tokenize_scan.
Qed.

Lemma tokenize_ok (l : str) : l <> [] -> Forall token_ok (tokenize l).
Proof.
  intros Hne. destruct (tokenize_scan Hne) as [_ H].
  eapply Forall_impl; [|exact H].
  intros [[|] w] Hw; simpl in *; [exact Hw|].
  destruct Hw as (s & s' & Hin & Hr & _).
  apply inline_shape in Hin as (w' & Hr' & Hs).
  rewrite <- (reads_consumed Hr), (reads_consumed Hr'). exact Hs.
Qed.

(** ** The paragraphs of a text *)

Lemma blank_nil_false (l : str) : blank l = false -> l <> [].
Proof. intros H ->. discriminate. Qed.

(** The runs of a line that is not blank. *)
Lemma runs_of_line (line : str) :
  blank line = false -> xml_text line = true ->
  forall lu p,
  exists rs lu',
    runs_loop lu (tokenize line) p = Ok (p ++ rs, lu') /\
    Forall2 emitted (tokenize line) rs.
Proof.
  intros Hb Hxml. apply runs_loop_ok.
  - apply tokenize_ok, blank_nil_false, Hb.
  - now rewrite tokenize_concat.
Qed.

Lemma lines_loop_spans (lines : list str) :
  Forall (fun l => xml_text l = true) lines ->
  forall first_paragraph lu frame,
    (first_paragraph = true -> frame = [[]]) ->
    exists frame' rs,
      lines_loop lines first_paragraph lu frame = Ok frame' /\
      spans frame' = spans frame ++ rs /\
      Forall2 emitted
              (flat_map tokenize (filter (fun l => negb (blank l)) lines)) rs.
Proof.
  unfold spans.
  induction 1 as [|line rest Hline _ IH]; intros fp lu frame Hfp.
  - exists frame, []. split; [reflexivity|]. split; [now rewrite app_nil_r|].
    constructor.
  - cbn [lines_loop filter]. destruct (blank line) eqn:Hb; cbn [negb].
    + destruct fp; cbn [negb].
      * now apply IH.
      * destruct (IH false lu (frame ++ [[]])) as (frame' & rs & H1 & H2 & H3);
          [discriminate|].
        exists frame', rs. split; [exact H1|]. split; [|exact H3].
        rewrite H2, concat_app. simpl. now rewrite app_nil_r.
    + destruct (@runs_of_line line Hb Hline lu []) as (rs1 & lu1 & Hr & Hf).
      rewrite Hr. cbn [app flat_map].
      destruct fp.
      * rewrite (Hfp eq_refl).
        destruct (IH false lu1 [[] ++ rs1]) as (frame' & rs & H1 & H2 & H3);
          [discriminate|].
        exists frame', (rs1 ++ rs). split; [exact H1|]. split.
        -- rewrite H2. simpl. now rewrite app_nil_r.
        -- now apply Forall2_app.
      * destruct (IH false lu1 (frame ++ [rs1])) as (frame' & rs & H1 & H2 & H3);
          [discriminate|].
        exists frame', (rs1 ++ rs). split; [exact H1|]. split.
        -- rewrite H2, concat_app. simpl. now rewrite app_nil_r, <- app_assoc.
        -- now apply Forall2_app.
Qed.

(** On a text the presentation takes the formatter does not raise; its
    spans are the tokens of the lines that are not blank, rendered one
    by one. *)
Lemma parse_markdown_formatting_spans (text : str) :
  xml_text text = true ->
  exists frame,
    parse_markdown_formatting text = Ok frame /\
    Forall2 emitted (flat_map tokenize (rendered_lines text)) (spans frame).
Proof.
  intros Hxml. unfold parse_markdown_formatting, rendered_lines.
  destruct (@lines_loop_spans (split nl text)
              (@forallb_split xml_char nl text Hxml)
              true None [[]] (fun _ => eq_refl))
    as (frame & rs & H1 & H2 & H3).
  exists frame. split; [exact H1|]. now rewrite H2.
Qed.






(** ** A stray bold marker *)















(* ================================================================== *)
(** ** Removing the bold markers *)
(* ================================================================== *)

Lemma convert_nil : convert_markdown_to_pptx_format [] = [].
Proof. reflexivity. Qed.

Lemma convert_bold (t : str) :
  convert_markdown_to_pptx_format (star :: star :: t)
  = convert_markdown_to_pptx_format t.
Proof. reflexivity. Qed.

Lemma convert_other (c : char) (t : str) :
  startswith (py "**") (c :: t) = false ->
  convert_markdown_to_pptx_format (c :: t)
  = c :: convert_markdown_to_pptx_format t.
Proof.
  intros H. unfold convert_markdown_to_pptx_format, replace.
  change (py "**") with [star; star] in *. cbn [replace_from].
  now rewrite H.
Qed.

(** The cases of the scan, as an induction principle: the text is
    empty, begins with a marker, or begins with a character that does
    not start a marker. *)
Lemma convert_ind (P : str -> Prop) :
  P [] ->
  (forall t, P t -> P (star :: star :: t)) ->
  (forall c t, startswith (py "**") (c :: t) = false -> P t -> P (c :: t)) ->
  forall t, P t.
Proof.
  intros H0 H2 H1 t.
  assert (H : forall n t, length t <= n -> P t).
  { clear t. induction n as [|n IH]; intros [|c t] Hl; simpl in Hl;
      try exact H0; try lia.
    destruct (startswith (py "**") (c :: t)) eqn:E.
    - apply startswith_spec in E. destruct E as (u & E).
      change (py "**") with [star; star] in E. cbn [app] in E.
      injection E as -> ->.
      apply H2, IH. simpl in Hl. lia.
    - apply H1; [exact E|]. apply IH. lia. }
  now apply (H (length t)).
Qed.

Lemma convert_head (t : str) :
  startswith [star] t = false ->
  startswith [star] (convert_markdown_to_pptx_format t) = false.
Proof.
  destruct t as [|c t]; [reflexivity|]. intros H.
  rewrite convert_other.
  - exact H.
  - change (py "**") with [star; star]. unfold star in *.
    cbn [startswith] in *.
    destruct (42 =? c)%N; cbn [andb] in *; [discriminate|reflexivity].
Qed.

Lemma convert_no_bold (t : str) :
  contains (py "**") (convert_markdown_to_pptx_format t) = false.
Proof.
  induction t as [| t IH | c t Hc IH] using convert_ind.
  - reflexivity.
  - now rewrite convert_bold.
  - rewrite (convert_other _ _ Hc). cbn [contains]. rewrite IH, orb_false_r.
    change (py "**") with [star; star] in *. unfold star in *.
    cbn [startswith] in *.
    destruct (42 =? c)%N eqn:E1; [|reflexivity]. cbn [andb] in *.
    assert (Hs : startswith [42%N] t = false).
    { destruct t as [|d t]; [reflexivity|]. cbn [startswith] in *.
      destruct (42 =? d)%N; cbn [andb] in *; [discriminate|reflexivity]. }
    apply convert_head in Hs.
    destruct (convert_markdown_to_pptx_format t) as [|d u]; [reflexivity|].
    cbn [startswith] in *. exact Hs.
Qed.

Lemma convert_absent (t : str) :
  contains (py "**") t = false -> convert_markdown_to_pptx_format t = t.
Proof.
  induction t as [|c t IH]; [reflexivity|]. intros H.
  cbn [contains] in H. apply orb_false_iff in H. destruct H as [H1 H2].
  rewrite (convert_other _ _ H1). f_equal. now apply IH.
Qed.

(** [convert_markdown_to_pptx_format]: no bold marker is left in the
    result, whatever the text (in a run of asterisks the pairs go and
    an odd one stays), so that converting twice is converting once. *)
Theorem convert_leaves_no_bold_marker (text : str) :
  contains (py "**") (convert_markdown_to_pptx_format text) = false /\
  convert_markdown_to_pptx_format (convert_markdown_to_pptx_format text)
  = convert_markdown_to_pptx_format text.
Proof.
  split; [apply convert_no_bold|apply convert_absent, convert_no_bold].
Qed.

(** [convert_markdown_to_pptx_format] removes asterisks only, and an
    even number of them: every other character stays, in order, and
    the length drops by twice the number of markers removed. *)
Theorem convert_removes_pairs_of_asterisks (text : str) :
  without_stars (convert_markdown_to_pptx_format text) = without_stars text /\
  exists k,
    occurrences star text
    = occurrences star (convert_markdown_to_pptx_format text) + 2 * k /\
    length text = length (convert_markdown_to_pptx_format text) + 2 * k.
Proof.
  induction text as [| t IH | c t Hc IH] using convert_ind.
  - split; [reflexivity|]. exists 0. split; reflexivity.
  - rewrite convert_bold. destruct IH as (IH1 & k & IH2 & IH3). split.
    + exact IH1.
    + exists (S k). unfold occurrences in *. cbn [count_occ length].
      destruct (N.eq_dec star star) as [_|n]; [|now elim n]. lia.
  - rewrite (convert_other _ _ Hc). destruct IH as (IH1 & k & IH2 & IH3). split.
    + unfold without_stars in *. cbn [filter]. rewrite IH1. reflexivity.
    + exists k. unfold occurrences in *. cbn [count_occ length].
      destruct (N.eq_dec c star); lia.
Qed.

(* ================================================================== *)
(** ** Selecting the files of a period *)
(* ================================================================== *)

Lemma dt_leb_ltb (a b : datetime) : dt_leb a b = negb (dt_ltb b a).
Proof.
  destruct a as [y1 m1 d1], b as [y2 m2 d2]. unfold dt_leb, dt_ltb.
  cbn [dt_year dt_month dt_day].
  destruct (N.ltb_spec y1 y2), (N.eqb_spec y1 y2), (N.ltb_spec y2 y1),
    (N.eqb_spec y2 y1); cbn [orb andb negb]; try lia; try reflexivity;
  destruct (N.ltb_spec m1 m2), (N.eqb_spec m1 m2), (N.ltb_spec m2 m1),
    (N.eqb_spec m2 m1); cbn [orb andb negb]; try lia; try reflexivity;
  destruct (N.leb_spec d1 d2), (N.ltb_spec d2 d1); cbn [negb];
    try lia; reflexivity.
Qed.

Lemma dt_leb_refl (a : datetime) : dt_leb a a = true.
Proof.
  unfold dt_leb. rewrite !N.eqb_refl, N.leb_refl. cbn [andb].
  now rewrite !orb_true_r.
Qed.

(** The match of the date pattern at the head of a name: there is at
    most one, and it reads the first ten characters. *)
Lemma file_date_match (n : str) :
  m file_date_re (MState [] n [])
  = if date_shaped (firstn 10 n)
    then [MState (rev (firstn 10 n)) (skipn 10 n) [(1, firstn 10 n)]]
    else [].
Proof.
  unfold file_date_re, date_shaped, chr. generalize digit. intros p.
  do 10 (destruct n as [|? n];
         [ cbn [firstn m cat flat_map app List.map post pre caps];
           repeat match goal with
                  | |- context [if ?b then _ else _] =>
                      destruct b; cbn [flat_map app List.map post pre caps m]
                  end; reflexivity | ]).
  cbn [firstn skipn m cat flat_map app List.map post pre caps].
  repeat match goal with
         | |- context [if ?b then _ else _] =>
             destruct b; cbn [flat_map app List.map post pre caps m andb]
         end; try reflexivity.
  unfold set_cap, consumed. cbn [post pre caps length rev app].
  replace (S (S (S (S (S (S (S (S (S (S (length n)))))))))) - length n)
    with 10 by lia.
  reflexivity.
Qed.

Lemma file_date_group (n : str) :
  match re_match file_date_re n with
  | Some mt => date_shaped (firstn 10 n) = true
               /\ group mt 1 = Some (firstn 10 n)
  | None => date_shaped (firstn 10 n) = false
  end.
Proof.
  unfold re_match, match_at. rewrite file_date_match.
  destruct (date_shaped (firstn 10 n)); [|reflexivity].
  split; [reflexivity|]. unfold group, mk_mobj. cbn [m_caps caps group_of].
  reflexivity.
Qed.

Section FilterFilesProperties.

Variable path : Type.
Variable name : path -> str.
Variable strptime : str -> option datetime.


Lemma filter_loop_period (date_from date_to : option str)
      (files : list path) :
  forall filtered,
    filter_loop name strptime files date_from date_to filtered
    = Ok (filtered ++ filter (fun f => in_period strptime date_from date_to (name f)) files).
Proof.
  induction files as [|f rest IH]; intros acc.
  - cbn [filter_loop filter]. now rewrite app_nil_r.
  - cbn [filter_loop filter]. unfold in_period at 1, date_of_name.
    pose proof (file_date_group (name f)) as Hm.
    destruct (re_match file_date_re (name f)) as [mt|].
    + destruct Hm as [Hs Hg]. rewrite Hs, Hg.
      destruct (strptime (firstn 10 (name f))) as [d|]; [|apply IH].
      destruct (parse_bound strptime date_from) as [| |lo];
        cbn [after andb]; try apply IH.
      * destruct (parse_bound strptime date_to) as [| |hi];
          cbn [before]; try apply IH.
        -- rewrite IH, <- app_assoc. reflexivity.
        -- rewrite dt_leb_ltb.
           destruct (dt_ltb hi d); cbn [negb]; [apply IH|].
           rewrite IH, <- app_assoc. reflexivity.
      * rewrite dt_leb_ltb.
        destruct (dt_ltb d lo); cbn [negb andb]; [apply IH|].
        destruct (parse_bound strptime date_to) as [| |hi];
          cbn [before]; try apply IH.
        -- rewrite IH, <- app_assoc. reflexivity.
        -- rewrite dt_leb_ltb.
           destruct (dt_ltb hi d); cbn [negb]; [apply IH|].
           rewrite IH, <- app_assoc. reflexivity.
    + rewrite Hm. apply IH.
Qed.

Lemma filter_files_period (files : list path) (date_from date_to : option str) :
  filter_files_by_date name strptime files date_from date_to
  = Ok (filter (fun f => in_period strptime date_from date_to (name f)) files).
Proof. unfold filter_files_by_date. now rewrite filter_loop_period. Qed.

Lemma in_period_split (date_from date_to : option str) (n : str) :
  in_period strptime date_from date_to n
  = in_period strptime date_from None n && in_period strptime None date_to n.
Proof.
  unfold in_period. destruct (date_of_name strptime n); [|reflexivity].
  cbn [parse_bound before after].
  destruct (after _ d), (before _ d); reflexivity.
Qed.

End FilterFilesProperties.

Lemma filter_filter {A : Type} (p q : A -> bool) (l : list A) :
  filter q (filter p l) = filter (fun x => p x && q x) l.
Proof.
  induction l as [|a l IH]; [reflexivity|]. cbn [filter].
  destruct (p a); cbn [filter andb]; [|exact IH].
  destruct (q a); now rewrite IH.
Qed.

Lemma filter_false {A : Type} (p : A -> bool) (l : list A) :
  (forall x, p x = false) -> filter p l = [].
Proof.
  intros H. induction l as [|a l IH]; [reflexivity|]. cbn [filter].
  now rewrite H.
Qed.

(** [filter_files_by_date] never raises, and keeps, in their order,
    exactly the files whose name begins with ten characters of the form
    dddd-dd-dd that [strptime] accepts as a date within the period;
    the rest of the name plays no part.  An end of the period that is
    [None] or the empty string does not bound it. *)
Theorem filter_files_keeps_the_period
        (path : Type) (name : path -> str)
        (strptime : str -> option datetime)
        (files : list path) (date_from date_to : option str) :
  filter_files_by_date name strptime files date_from date_to
  = Ok (filter (fun file_path =>
                  in_period strptime date_from date_to (name file_path))
               files).
Proof. apply filter_files_period. Qed.

(** [filter_files_by_date]: both ends of the period belong to it.  A
    file whose name begins with a date is kept by the period that
    starts and ends on that very date. *)
Theorem filter_files_bounds_are_inclusive
        (path : Type) (name : path -> str)
        (strptime : str -> option datetime)
        (file_path : path) (day rest : str) (d : datetime) :
  name file_path = day ++ rest ->
  date_shaped day = true ->
  strptime day = Some d ->
  filter_files_by_date name strptime [file_path] (Some day) (Some day)
  = Ok [file_path].
Proof.
  intros Hn Hs Hd. rewrite filter_files_period. cbn [filter].
  assert (Hl : length day = 10).
  { unfold date_shaped in Hs.
    do 10 (destruct day as [|? day]; [discriminate|]).
    destruct day; [reflexivity|discriminate]. }
  assert (Hf : firstn 10 (name file_path) = day).
  { rewrite Hn, <- Hl, firstn_app, Nat.sub_diag, firstn_all.
    cbn [firstn]. apply app_nil_r. }
  unfold in_period, date_of_name. rewrite Hf, Hs, Hd.
  destruct day as [|c day]; [discriminate|].
  cbn [parse_bound]. rewrite Hd. cbn [after before].
  now rewrite dt_leb_refl.
Qed.

Lemma filter_files_bounds_are_inclusive_witness :
  filter_files_by_date (fun n : str => n) strptime_september
                       [py "2025-09-15-b.md"]
                       (Some (py "2025-09-15")) (Some (py "2025-09-15"))
  = Ok [py "2025-09-15-b.md"].
Proof.
  apply (@filter_files_bounds_are_inclusive
           str (fun n => n) strptime_september (py "2025-09-15-b.md")
           (py "2025-09-15") (py "-b.md") (DateTime 2025 9 15));
    reflexivity.
Defined.

(** [filter_files_by_date]: a bound that is given and that [strptime]
    rejects empties the selection.  The bound is parsed inside the
    [try] of each file, and its [ValueError] skips the file. *)
Theorem filter_files_rejected_bound_drops_all
        (path : Type) (name : path -> str)
        (strptime : str -> option datetime)
        (files : list path) (date_from date_to : option str) :
  parse_bound strptime date_from = Invalid
  \/ parse_bound strptime date_to = Invalid ->
  filter_files_by_date name strptime files date_from date_to = Ok [].
Proof.
  intros H. rewrite filter_files_period. f_equal. apply filter_false.
  intros f. unfold in_period.
  destruct (date_of_name strptime (name f)); [|reflexivity].
  destruct H as [-> | ->]; cbn [after before]; [reflexivity|].
  apply andb_false_r.
Qed.

Lemma filter_files_rejected_bound_drops_all_witness :
  parse_bound strptime_september (Some (py "2025-13-01")) = Invalid /\
  filter_files_by_date (fun n : str => n) strptime_september september_files
                       (Some (py "2025-13-01")) None = Ok [].
Proof.
  split; [reflexivity|].
  apply (@filter_files_rejected_bound_drops_all
           str (fun n => n) strptime_september september_files
           (Some (py "2025-13-01")) None).
  left. reflexivity.
Defined.

(** [filter_files_by_date]: selecting a period is selecting from its
    start and then up to its end, and selecting again what was selected
    changes nothing. *)
Theorem filter_files_composes
        (path : Type) (name : path -> str)
        (strptime : str -> option datetime)
        (files : list path) (date_from date_to : option str) :
  exists since kept,
    filter_files_by_date name strptime files date_from None = Ok since /\
    filter_files_by_date name strptime since None date_to = Ok kept /\
    filter_files_by_date name strptime files date_from date_to = Ok kept /\
    filter_files_by_date name strptime kept date_from date_to = Ok kept.
Proof.
  exists (filter (fun f => in_period strptime date_from None (name f)) files),
         (filter (fun f => in_period strptime date_from date_to (name f)) files).
  rewrite !filter_files_period. split; [reflexivity|]. split; [|split].
  - f_equal. rewrite filter_filter. apply filter_ext. intros f.
    symmetry. apply in_period_split.
  - reflexivity.
  - f_equal. rewrite filter_filter. apply filter_ext. intros f.
    now destruct (in_period strptime date_from date_to (name f)).
Qed.

(* ================================================================== *)
(** ** The focal points of the content slide *)
(* ================================================================== *)

(** The matches of a pattern that is one group: the group holds the
    text of the match. *)
Lemma finditer_from_group1 (r : regex) (fuel : nat) :
  forall before after,
    Forall (fun mo => group mo 1 = Some (m_text mo))
           (finditer_from (Grp 1 r) fuel before after).
Proof.
  induction fuel as [|n IH]; intros before after; [constructor|].
  cbn [finditer_from].
  destruct (m (Grp 1 r) (MState before after [])) as [|s' rest] eqn:Em.
  - destruct after; [constructor|apply IH].
  - assert (Hin : In s' (m (Grp 1 r) (MState before after [])))
      by (rewrite Em; now left).
    apply in_m_grp in Hin as (s1 & _ & ->).
    assert (Hg : group (mk_mobj (MState before after [])
                                (set_cap 1 (MState before after []) s1)) 1
                 = Some (m_text (mk_mobj (MState before after [])
                                   (set_cap 1 (MState before after []) s1)))).
    { unfold group, mk_mobj, set_cap, consumed.
      cbn [m_caps m_text caps post group_of Nat.eqb]. reflexivity. }
    destruct (length (post (set_cap 1 (MState before after []) s1))
              <? length after).
    + constructor; [exact Hg|apply IH].
    + destruct after; constructor; try exact Hg; try constructor; apply IH.
Qed.

(** The parts of a split and the tokens of the scan hold the same
    text. *)
Lemma split_loop_tokens (r : regex) (t : str) (ms : list mobj) :
  ngroups r = 1 ->
  Forall (fun mo => group mo 1 = Some (m_text mo)) ms ->
  forall last_end,
    concat (List.map part_text (split_loop r t ms last_end))
    = concat (List.map snd (fst (tokens_loop t ms last_end [])))
      ++ slice_from t (snd (tokens_loop t ms last_end [])).
Proof.
  intros Hn. induction 1 as [|mt ms Hg _ IH]; intros le.
  - cbn [split_loop tokens_loop List.map concat fst snd part_text app].
    apply app_nil_r.
  - cbn [split_loop tokens_loop]. rewrite tokens_loop_acc. cbn [fst snd].
    rewrite Hn. cbn [seq List.map app concat part_text].
    rewrite Hg, IH. cbn [part_text].
    rewrite !map_app, !concat_app, <- !app_assoc.
    cbn [List.map concat snd app].
    destruct (Nat.ltb_spec le (m_start mt)) as [Hlt|Hge].
    + cbn [List.map concat snd app]. now rewrite !app_nil_r.
    + unfold slice. replace (m_start mt - le) with 0 by lia.
      cbn [firstn List.map concat app]. now rewrite !app_nil_r.
Qed.

(** Splitting loses nothing: the parts of a split by a consuming
    pattern that is one group, put end to end, are the text. *)
Lemma re_split_concat (r : regex) (t : str) :
  ngroups (Grp 1 r) = 1 ->
  consuming r = true ->
  concat (List.map part_text (re_split (Grp 1 r) t)) = t.
Proof.
  intros Hn Hc. unfold re_split, finditer.
  rewrite (@split_loop_tokens (Grp 1 r) t _ Hn (finditer_from_group1 r _ _ _)).
  destruct (@scan_tokens (Grp 1 r) (fun _ => true)
              (m_consuming (Grp 1 r) Hc) (fun _ _ _ _ => eq_refl) t
              (S (length t)) [] t 0 [])
    as (T & e & HT & Hcat & _); auto.
  rewrite HT. cbn [fst snd]. cbn [app] in Hcat.
  destruct (Nat.ltb_spec e (length t)) as [Hlt|Hge].
  - rewrite map_app, concat_app in Hcat. cbn [List.map concat snd] in Hcat.
    now rewrite app_nil_r in Hcat.
  - unfold slice_from. rewrite skipn_all2 by exact Hge.
    now rewrite app_nil_r.
Qed.

(** Cutting markers off both ends of a text that begins and ends with
    them leaves a stretch of the text between marker characters, also
    where the two ends overlap. *)
Lemma slice_mid_ends (G : char -> bool) (a b p : str) :
  forallb G a = true -> forallb G b = true ->
  startswith a p = true -> endswith b p = true ->
  exists a' b',
    p = a' ++ slice_mid p (length a) (length b) ++ b' /\
    forallb G a' = true /\ forallb G b' = true.
Proof.
  intros Ha Hb Hs He.
  apply startswith_spec in Hs as (u & ->).
  unfold endswith in He. apply startswith_spec in He as (v & Hv).
  apply (f_equal (@rev char)) in Hv.
  rewrite rev_involutive, rev_app_distr, rev_involutive in Hv.
  unfold slice_mid. rewrite skipn_app, Nat.sub_diag, skipn_all, length_app.
  cbn [skipn app].
  apply app_eq_app in Hv as (l & [[H1 H2] | [H1 H2]]).
  - subst b. rewrite length_app.
    replace (length a + length u - (length l + length u) - length a)
      with 0 by lia.
    cbn [firstn]. exists a, u. split; [reflexivity|]. split; [exact Ha|].
    rewrite forallb_app in Hb. now apply andb_true_iff in Hb as [_ Hb].
  - subst u. rewrite length_app.
    replace (length a + (length l + length b) - length b - length a)
      with (length l) by lia.
    rewrite firstn_app, Nat.sub_diag, firstn_all. cbn [firstn].
    rewrite app_nil_r. exists a, b. auto.
Qed.

(** A part of a focal point becomes a run that holds the part less
    marker characters at its ends at most. *)
Lemma focal_run_piece (part : str) :
  part <> [] -> xml_text part = true ->
  exists r, focal_run part = Ok r /\ focal_piece part r.
Proof.
  intros Hne Hxml. unfold focal_run.
  set (clean_text := if is_bold part then slice_mid part 2 2
                     else if is_italic part then slice_mid part 1 1
                     else if is_code part then slice_mid part 1 1
                     else if is_strikethrough part then slice_mid part 2 2
                     else part).
  assert (Hc : exists a b,
             part = a ++ clean_text ++ b /\
             forallb (oneof focal_markers) a = true /\
             forallb (oneof focal_markers) b = true).
  { unfold clean_text.
    destruct (is_bold part) eqn:B.
    { unfold is_bold in B. apply andb_true_iff in B as [B1 B2].
      now apply (@slice_mid_ends (oneof focal_markers) (py "**") (py "**")). }
    destruct (is_italic part) eqn:I.
    { unfold is_italic in I. apply orb_true_iff in I as [I|I].
      - apply andb_true_iff in I as [I1 I2].
        now apply (@slice_mid_ends (oneof focal_markers) (py "_") (py "_")).
      - apply andb_true_iff in I as [I _]. apply andb_true_iff in I as [I1 I2].
        now apply (@slice_mid_ends (oneof focal_markers) (py "*") (py "*")). }
    destruct (is_code part) eqn:C.
    { unfold is_code in C. apply andb_true_iff in C as [C1 C2].
      now apply (@slice_mid_ends (oneof focal_markers) (py "`") (py "`")). }
    destruct (is_strikethrough part) eqn:S.
    { unfold is_strikethrough in S. apply andb_true_iff in S as [S1 S2].
      now apply (@slice_mid_ends (oneof focal_markers) (py "~~") (py "~~")). }
    exists [], []. now rewrite app_nil_r. }
  destruct Hc as (a & b & E & Ha & Hb).
  assert (Hx : xml_text clean_text = true).
  { rewrite E in Hxml. apply xml_text_app_inv in Hxml as [_ Hxml].
    now apply xml_text_app_inv in Hxml as [Hxml _]. }
  rewrite (set_text_ok _ Hx). unfold set_font_strikethrough.
  eexists. split; [reflexivity|].
  destruct (is_strikethrough part); cbn [r_text r_strike r_link];
    (split; [exact Hne|]); (split; [reflexivity|]); (split; [reflexivity|]);
    exists a, b; auto.
Qed.

Lemma focal_consuming :
  consuming (alt [bold_re; under_re; star_re; code_re; strike_re]) = true.
Proof. reflexivity. Qed.

(** The runs of the parts of a split: one for each part that is not
    empty. *)
Lemma parts_loop_pieces (parts : list (option str)) :
  xml_text (concat (List.map part_text parts)) = true ->
  forall p,
  exists pieces runs,
    parts_loop parts p = Ok (p ++ runs) /\
    concat pieces = concat (List.map part_text parts) /\
    Forall2 focal_piece pieces runs.
Proof.
  induction parts as [|[[|c w]|] parts IH]; intros Hxml p;
    cbn [parts_loop List.map concat part_text app] in *.
  - exists [], []. rewrite app_nil_r. repeat split; constructor.
  - apply (IH Hxml).
  - apply (@xml_text_app_inv (c :: w)) in Hxml as [Hcw Hrest].
    destruct (@focal_run_piece (c :: w)) as (r & Hr & Hp);
      [discriminate|exact Hcw|].
    rewrite Hr.
    destruct (IH Hrest (p ++ [r])) as (pieces & runs & H1 & H2 & H3).
    exists ((c :: w) :: pieces), (r :: runs). split.
    + rewrite H1, <- app_assoc. reflexivity.
    + split; [cbn [concat]; now rewrite H2|now constructor].
  - apply (IH Hxml).
Qed.

(** The paragraph of a focal point the presentation takes. *)
Lemma focal_paragraph_pieces (point : str) :
  xml_text point = true ->
  exists p, focal_paragraph point = Ok p /\ focal_rendering point p.
Proof.
  intros Hxml. unfold focal_paragraph. rewrite (set_text_ok _ Hxml).
  cbv zeta.
  pose proof (@re_split_concat
                (alt [bold_re; under_re; star_re; code_re; strike_re])
                point eq_refl focal_consuming) as Hc.
  fold focal_inline_re in Hc.
  destruct (@parts_loop_pieces (re_split focal_inline_re point))
    with (p := [plain_run ppt_bullet]) as (pieces & runs & H1 & H2 & H3);
    [now rewrite Hc|].
  exists (plain_run ppt_bullet :: runs). split; [exact H1|].
  exists pieces, runs. rewrite H2, Hc. auto.
Qed.

(** The paragraph of a focal point the presentation refuses. *)
Lemma focal_paragraph_raise (point : str) :
  xml_text point = false -> focal_paragraph point = Raise ValueError.
Proof.
  intros H. unfold focal_paragraph. now rewrite (set_text_raise _ H).
Qed.

Lemma focal_points_loop_later (focal_points : list str) :
  forall i frame,
    if forallb xml_text focal_points
    then exists ps,
        focal_points_loop (S i) focal_points frame = Ok (frame ++ ps) /\
        Forall2 focal_rendering focal_points ps
    else focal_points_loop (S i) focal_points frame = Raise ValueError.
Proof.
  induction focal_points as [|point rest IH]; intros i frame;
    cbn [focal_points_loop forallb Nat.eqb].
  - exists []. split; [now rewrite app_nil_r|constructor].
  - destruct (xml_text point) eqn:Hx; cbn [andb].
    + destruct (@focal_paragraph_pieces point Hx) as (p & Hp & Hr).
      rewrite Hp. specialize (IH (S i) (frame ++ [p])).
      destruct (forallb xml_text rest); [|exact IH].
      destruct IH as (ps & H1 & H2). exists (p :: ps).
      split; [|now constructor].
      rewrite H1, <- app_assoc. reflexivity.
    + now rewrite (focal_paragraph_raise _ Hx).
Qed.

(** What [format_focal_points_text] returns. *)
Lemma format_focal_points_run (focal_points : list str) :
  if forallb xml_text focal_points
  then exists frame,
      format_focal_points_text focal_points = Ok frame /\
      match focal_points with
      | [] => frame = [[]]
      | _ :: _ => Forall2 focal_rendering focal_points frame
      end
  else format_focal_points_text focal_points = Raise ValueError.
Proof.
  unfold format_focal_points_text.
  destruct focal_points as [|point rest].
  - exists [[]]. split; reflexivity.
  - cbn [focal_points_loop forallb Nat.eqb].
    destruct (xml_text point) eqn:Hx; cbn [andb].
    + destruct (@focal_paragraph_pieces point Hx) as (p & Hp & Hr).
      rewrite Hp. pose proof (@focal_points_loop_later rest 0 [p]) as IH.
      destruct (forallb xml_text rest); [|exact IH].
      destruct IH as (ps & H1 & H2). exists (p :: ps).
      split; [exact H1|now constructor].
    + now rewrite (focal_paragraph_raise _ Hx).
Qed.

(** [format_focal_points_text] on focal points the presentation takes
    (none holds U+FFFE, U+FFFF or a surrogate): without focal points
    the frame keeps its one empty paragraph; otherwise there is one
    paragraph for each point, in order, that begins with the bullet
    run, and whose further runs are the point cut into consecutive
    pieces, each run holding its piece as it is or less marker
    characters (asterisk, underscore, backquote, tilde) at its two
    ends.  So nothing is added, nothing is moved and nothing but marker
    characters at the ends of a piece is dropped, whitespace included;
    no run is struck through or linked.  As soon as one focal point
    holds a character the presentation refuses, the function raises
    [ValueError]. *)
Theorem focal_points_keep_all_but_markers (focal_points : list str) :
  if forallb xml_text focal_points
  then exists frame,
      format_focal_points_text focal_points = Ok frame /\
      match focal_points with
      | [] => frame = [[]]
      | _ :: _ =>
          Forall2 (fun point p =>
                     exists pieces runs,
                       p = plain_run ppt_bullet :: runs /\
                       concat pieces = point /\
                       Forall2 focal_piece pieces runs)
                  focal_points frame
      end
  else format_focal_points_text focal_points = Raise ValueError.
Proof. exact (format_focal_points_run focal_points). Qed.

(** No marker alternative matches where the text ahead does not begin
    with a marker character. *)
Lemma focal_alternatives_fail (s : mstate) :
  match post s with
  | c :: _ => noneof focal_markers c = true
  | [] => True
  end ->
  m focal_inline_re s = [].
Proof.
  intros H.
  assert (Hf : forall d w, oneof focal_markers d = true ->
                           startswith (d :: w) (post s) = false).
  { intros d w Hd. destruct (post s) as [|c t]; [reflexivity|].
    cbn [startswith]. destruct (N.eqb_spec d c) as [->|]; [|reflexivity].
    unfold noneof in H. now rewrite Hd in H. }
  apply no_match. intros s' Hin. unfold focal_inline_re in Hin.
  apply in_m_grp in Hin as (s1 & Hin & _). cbn [alt] in Hin.
  unfold bold_re, under_re, star_re, code_re, strike_re in Hin.
  cbn [cat] in Hin.
  repeat (apply in_m_alt in Hin as [Hin|Hin]);
    rewrite m_lit_fail in Hin; try exact Hin; apply Hf; reflexivity.
Qed.

Lemma finditer_from_none (r : regex) (fuel : nat) :
  forall before after,
    (forall u v, after = u ++ v -> m r (MState (rev u ++ before) v []) = []) ->
    finditer_from r fuel before after = [].
Proof.
  induction fuel as [|n IH]; intros before after H; [reflexivity|].
  cbn [finditer_from]. pose proof (H [] after eq_refl) as H0.
  cbn [rev app] in H0. rewrite H0.
  destruct after as [|c t]; [reflexivity|]. apply IH.
  intros u v E. specialize (H (c :: u) v). cbn [rev app] in H.
  rewrite <- app_assoc in H. apply H. now rewrite E.
Qed.

Lemma focal_plain_flags (c : char) (t : str) :
  noneof focal_markers c = true ->
  is_bold (c :: t) = false /\ is_italic (c :: t) = false /\
  is_code (c :: t) = false /\ is_strikethrough (c :: t) = false.
Proof.
  intros H.
  assert (Hf : forall d w, oneof focal_markers d = true ->
                           startswith (d :: w) (c :: t) = false).
  { intros d w Hd. cbn [startswith].
    destruct (N.eqb_spec d c) as [->|]; [|reflexivity].
    unfold noneof in H. now rewrite Hd in H. }
  unfold is_bold, is_italic, is_code, is_strikethrough.
  assert (B1 : startswith (py "**") (c :: t) = false)
    by (apply (Hf 42%N [42%N]); reflexivity).
  assert (B2 : startswith (py "*") (c :: t) = false)
    by (apply (Hf 42%N []); reflexivity).
  assert (B3 : startswith (py "_") (c :: t) = false)
    by (apply (Hf 95%N []); reflexivity).
  assert (B4 : startswith (py "`") (c :: t) = false)
    by (apply (Hf 96%N []); reflexivity).
  assert (B5 : startswith (py "~~") (c :: t) = false)
    by (apply (Hf 126%N [126%N]); reflexivity).
  rewrite B1, B2, B3, B4, B5. auto.
Qed.

Lemma focal_paragraph_plain (point : str) :
  point <> [] -> forallb (noneof focal_markers) point = true ->
  xml_text point = true ->
  focal_paragraph point = Ok [plain_run ppt_bullet; plain_run point].
Proof.
  intros Hne Hp Hxml. unfold focal_paragraph, re_split, finditer.
  rewrite (set_text_ok _ Hxml). cbv zeta.
  rewrite finditer_from_none.
  - cbn [split_loop slice_from skipn parts_loop].
    destruct point as [|c t]; [now elim Hne|]. cbn [parts_loop app].
    cbn [forallb] in Hp. apply andb_true_iff in Hp as [Hc _].
    destruct (@focal_plain_flags c t Hc) as (B & I & C & S).
    unfold focal_run. rewrite B, I, C, S, (set_text_ok _ Hxml). reflexivity.
  - intros u v E. apply focal_alternatives_fail. cbn [post].
    destruct v as [|c v]; [exact I|].
    rewrite E, forallb_app in Hp. apply andb_true_iff in Hp as [_ Hp].
    cbn [forallb] in Hp. now apply andb_true_iff in Hp as [Hp _].
Qed.

Lemma focal_points_loop_plain (focal_points : list str) :
  Forall (fun point => point <> [] /\
                       forallb (noneof focal_markers) point = true /\
                       xml_text point = true)
         focal_points ->
  forall i frame,
    focal_points_loop (S i) focal_points frame
    = Ok (frame ++ List.map (fun point => [plain_run ppt_bullet;
                                           plain_run point])
                            focal_points).
Proof.
  induction 1 as [|point rest (H1 & H2 & H3) _ IH]; intros i frame;
    cbn [focal_points_loop List.map Nat.eqb].
  - now rewrite app_nil_r.
  - rewrite (focal_paragraph_plain H1 H2 H3), IH, <- app_assoc. reflexivity.
Qed.

(** [format_focal_points_text]: a focal point without an asterisk, an
    underscore, a backquote or a tilde (and without a character the
    presentation refuses) is rendered as the bullet run and one run
    without style that holds the point as it is; a link written in
    markdown stays as it is written. *)
Theorem focal_points_without_markers_are_literal (focal_points : list str) :
  focal_points <> [] ->
  Forall (fun point => point <> [] /\
                       forallb (noneof focal_markers) point = true /\
                       xml_text point = true)
         focal_points ->
  format_focal_points_text focal_points
  = Ok (List.map (fun point => [plain_run ppt_bullet; plain_run point])
                 focal_points).
Proof.
  intros Hne H. unfold format_focal_points_text.
  destruct focal_points as [|point rest]; [now elim Hne|].
  inversion H as [|? ? (H1 & H2 & H3) Hrest]; subst.
  cbn [focal_points_loop Nat.eqb List.map].
  rewrite (focal_paragraph_plain H1 H2 H3).
  exact (focal_points_loop_plain Hrest 0 _).
Qed.

Lemma focal_points_without_markers_are_literal_witness :
  format_focal_points_text
    [py "Agents can browse"; py "See [the docs](https://docs.github.com)"]
  = Ok [[plain_run ppt_bullet; plain_run (py "Agents can browse")];
        [plain_run ppt_bullet;
         plain_run (py "See [the docs](https://docs.github.com)")]].
Proof.
  apply (@focal_points_without_markers_are_literal
           [py "Agents can browse";
            py "See [the docs](https://docs.github.com)"]).
  - discriminate.
  - repeat constructor; discriminate.
Defined.

(* ================================================================== *)
(** ** Retrying for any number of attempts *)
(* ================================================================== *)

Lemma total_sleep_app (n : nat) (sl d : list N) :
  total_sleep (World n (sl ++ d))
  = (total_sleep (World n sl) + fold_right N.add 0 d)%N.
Proof.
  unfold total_sleep. cbn [slept].
  induction sl as [|a sl IH]; cbn [app fold_right]; [reflexivity|].
  rewrite IH. lia.
Qed.

Lemma backoff_succ (d : N) (j : nat) :
  backoff d (S j) = backoff d j ++ [d * 2 ^ N.of_nat j]%N.
Proof. unfold backoff. rewrite seq_S, map_app. reflexivity. Qed.

(** The waits of [j] retries add up to [retry_delay * (2 ** j - 1)]. *)
Lemma backoff_total (d : N) (j : nat) :
  fold_right N.add 0%N (backoff d j) = (d * (2 ^ N.of_nat j - 1))%N.
Proof.
  induction j as [|j IH].
  - cbn. lia.
  - rewrite backoff_succ, fold_right_app. cbn [fold_right].
    assert (H : forall (l : list N) (a : N),
               fold_right N.add a l = (fold_right N.add 0 l + a)%N).
    { induction l as [|x l IHl]; intros a; cbn [fold_right]; [lia|].
      rewrite IHl. lia. }
    rewrite H, IH, Nat2N.inj_succ, N.pow_succ_r'.
    assert (Hp : (2 ^ N.of_nat j <> 0)%N) by (apply N.pow_nonzero; lia).
    set (p := (2 ^ N.of_nat j)%N) in *. cbn [fold_right].
    replace (2 * p - 1)%N with ((p - 1) + p)%N by lia.
    rewrite N.mul_add_distr_l. lia.
Qed.

Lemma map_seq_shift (f : nat -> N) (a j : nat) :
  List.map f (seq a (S j)) = f a :: List.map f (seq (S a) j).
Proof. reflexivity. Qed.

Section RetryLoops.

Variable net : str -> nat -> outcome.

(** The loop of [fetch_og_image_from_url] from attempt [a] on, with [k]
    attempts left. *)
Lemma ppt_fetch_loop_backoff (url : str) (max_retries : nat) (d : N) (k : nat) :
  forall a w,
    a + k = max_retries ->
    exists v r,
      r <= k /\ (0 < k -> 0 < r) /\
      ppt_fetch_loop net url max_retries d (seq a k) w
      = (Ok v,
         World (requests w + r)
               (slept w ++ List.map (fun i => d * 2 ^ N.of_nat i)%N
                                    (seq a (r - 1)))) /\
      (forall i, i < r - 1 -> fails_at net url (requests w + i)) /\
      (r < k -> exists html, net url (requests w + (r - 1)) = Body html) /\
      (v <> None -> exists html, net url (requests w + (r - 1)) = Body html
                                 /\ 0 < r).
Proof.
  induction k as [|k IH]; intros a w Hk.
  - exists None, 0. cbn [seq ppt_fetch_loop]. unfold ret.
    rewrite Nat.add_0_r, app_nil_r. destruct w.
    repeat split; try lia; try easy.
  - cbn [seq ppt_fetch_loop]. unfold urlopen_read.
    destruct (net url (requests w)) as [e|html] eqn:En.
    + destruct (Nat.ltb_spec a (max_retries - 1)) as [Hlt|Hge].
      * destruct (IH (S a) (World (S (requests w))
                                  (slept w ++ [d * 2 ^ N.of_nat a]%N)))
          as (v & r & Hr & Hpos & Hrun & Hfail & Hbody & Hv); [lia|].
        assert (0 < r) by (apply Hpos; lia).
        exists v, (S r). unfold bind, sleep. cbn [requests slept] in *.
        rewrite Hrun. split; [lia|]. split; [lia|]. split.
        { f_equal. f_equal; [lia|].
          replace (S r - 1) with (S (r - 1)) by lia.
          rewrite map_seq_shift, <- app_assoc. reflexivity. }
        split.
        { intros i Hi. destruct i as [|i].
          - rewrite Nat.add_0_r. now exists e.
          - replace (requests w + S i) with (S (requests w) + i) by lia.
            apply Hfail. lia. }
        split.
        { intros Hlt'. destruct Hbody as [h Hh]; [lia|]. exists h.
          replace (requests w + (S r - 1)) with (S (requests w) + (r - 1))
            by lia. exact Hh. }
        { intros Hne. destruct (Hv Hne) as (h & Hh & _). exists h.
          split; [|lia].
          replace (requests w + (S r - 1)) with (S (requests w) + (r - 1))
            by lia. exact Hh. }
      * assert (k = 0) by lia. subst k. cbn [seq ppt_fetch_loop]. unfold ret.
        exists None, 1. cbn [requests slept Nat.sub seq List.map].
        rewrite app_nil_r. replace (requests w + 1) with (S (requests w)) by lia.
        repeat split; try lia; try easy.
    + exists (match re_search og_image_re html with
              | Some og_image_match => group1_or_group2 og_image_match
              | None => None
              end), 1.
      cbn [Nat.sub seq List.map]. rewrite app_nil_r, Nat.add_0_r.
      replace (requests w + 1) with (S (requests w)) by lia.
      split; [lia|]. split; [lia|]. split.
      { destruct (re_search og_image_re html); reflexivity. }
      split; [intros i Hi; lia|]. split; intros _; eauto.
Qed.

Variable is_image : str -> bool.

(** The loop of [create_cover_slide]. *)
Lemma cover_image_loop_backoff (url : str) (max_retries : nat) (d : N)
      (k : nat) :
  forall a w,
    a + k = max_retries ->
    exists v r,
      r <= k /\ (0 < k -> 0 < r) /\
      cover_image_loop net is_image url max_retries d (seq a k) w
      = (Ok v,
         World (requests w + r)
               (slept w ++ List.map (fun i => d * 2 ^ N.of_nat i)%N
                                    (seq a (r - 1)))) /\
      (forall i, i < r - 1 ->
                 picture_at net is_image url (requests w + i) = None) /\
      match v with
      | Some image_data =>
          0 < r /\
          picture_at net is_image url (requests w + (r - 1))
          = Some image_data
      | None =>
          r = k /\
          forall i, i < k ->
                    picture_at net is_image url (requests w + i) = None
      end.
Proof.
  induction k as [|k IH]; intros a w Hk.
  - exists None, 0. cbn [seq cover_image_loop]. unfold ret.
    rewrite Nat.add_0_r, app_nil_r. destruct w.
    repeat split; try lia; try easy.
  - cbn [seq cover_image_loop].
    assert (Hstep :
              (image_data <- urlopen_read net url ;; add_picture is_image image_data) w
              = (match picture_at net is_image url (requests w) with
                 | Some image_data => Ok image_data
                 | None => Raise (match net url (requests w) with
                                  | Fails e => e
                                  | Body _ => OtherError
                                  end)
                 end, World (S (requests w)) (slept w))).
    { unfold bind, urlopen_read, add_picture, picture_at, ret, raise.
      destruct (net url (requests w)) as [e|html]; [reflexivity|].
      destruct (is_image html); reflexivity. }
    rewrite Hstep. clear Hstep.
    destruct (picture_at net is_image url (requests w)) as [image_data|] eqn:En.
    + exists (Some image_data), 1.
      cbn [Nat.sub seq List.map]. rewrite app_nil_r, Nat.add_0_r.
      replace (requests w + 1) with (S (requests w)) by lia.
      repeat split; try lia; try easy.
    + destruct (Nat.ltb_spec a (max_retries - 1)) as [Hlt|Hge].
      * destruct (IH (S a) (World (S (requests w))
                                  (slept w ++ [d * 2 ^ N.of_nat a]%N)))
          as (v & r & Hr & Hpos & Hrun & Hfail & Hv); [lia|].
        assert (0 < r) by (apply Hpos; lia).
        exists v, (S r). unfold bind, sleep. cbn [requests slept] in *.
        rewrite Hrun. split; [lia|]. split; [lia|]. split.
        { f_equal. f_equal; [lia|].
          replace (S r - 1) with (S (r - 1)) by lia.
          rewrite map_seq_shift, <- app_assoc. reflexivity. }
        split.
        { intros i Hi. destruct i as [|i].
          - now rewrite Nat.add_0_r.
          - replace (requests w + S i) with (S (requests w) + i) by lia.
            apply Hfail. lia. }
        destruct v as [image_data|].
        { destruct Hv as [_ Hv]. split; [lia|].
          replace (requests w + (S r - 1)) with (S (requests w) + (r - 1))
            by lia. exact Hv. }
        { destruct Hv as [-> Hv]. split; [reflexivity|].
          intros i Hi. destruct i as [|i].
          - now rewrite Nat.add_0_r.
          - replace (requests w + S i) with (S (requests w) + i) by lia.
            apply Hv. lia. }
      * assert (k = 0) by lia. subst k. cbn [seq cover_image_loop]. unfold ret.
        exists None, 1. cbn [requests slept Nat.sub seq List.map].
        rewrite app_nil_r. replace (requests w + 1) with (S (requests w)) by lia.
        repeat split; try lia.
        intros i Hi. assert (i = 0) by lia. subst i.
        now rewrite Nat.add_0_r.
Qed.

End RetryLoops.

(** [fetch_og_image_from_url] of [markdown_to_ppt.py], for any
    [max_retries] and [retry_delay]: it never raises; it stops at the
    first request that is answered, so that every request before the
    last one failed; it issues [r <= max_retries] requests and sleeps
    after each but the last, [retry_delay * 2 ** attempt] seconds after
    attempt [attempt], which adds up to
    [retry_delay * (2 ** (r - 1) - 1)]. *)
Theorem ppt_fetch_backs_off_exponentially
        (net : str -> nat -> outcome) (url : str)
        (max_retries : nat) (retry_delay : N) (w : world) :
  exists v r w',
    ppt_fetch_og_image_from_url net url max_retries retry_delay w
    = (Ok v, w') /\
    r <= max_retries /\
    requests w' = requests w + r /\
    slept w' = slept w ++ backoff retry_delay (r - 1) /\
    total_sleep w'
    = (total_sleep w + retry_delay * (2 ^ N.of_nat (r - 1) - 1))%N /\
    (forall i, i < r - 1 -> fails_at net url (requests w + i)) /\
    (r < max_retries ->
     exists html, net url (requests w + (r - 1)) = Body html).
Proof.
  destruct (@ppt_fetch_loop_backoff net url max_retries retry_delay
              max_retries 0 w eq_refl)
    as (v & r & Hr & _ & Hrun & Hfail & Hbody & _).
  exists v, r. eexists. unfold ppt_fetch_og_image_from_url.
  split; [exact Hrun|]. cbn [requests slept]. fold (backoff retry_delay (r - 1)).
  split; [exact Hr|]. split; [reflexivity|]. split; [reflexivity|].
  split; [|split; assumption].
  rewrite total_sleep_app, backoff_total. destruct w; reflexivity.
Qed.

(* ================================================================== *)
(** ** The slides of a document *)
(* ================================================================== *)

(** What a run of [create_cover_slide] does, for a presentation with
    the layout it asks for and texts the presentation takes. *)
Lemma create_cover_slide_run
      (net : str -> nat -> outcome) (is_image : str -> bool)
      (title image_url : str) (layouts : nat) (speaker_notes : str)
      (max_retries : nat) (retry_delay : N) (w : world) :
  3 < layouts ->
  xml_text title = true ->
  xml_text speaker_notes = true ->
  exists s r frame,
    create_cover_slide net is_image title image_url layouts speaker_notes
                       max_retries retry_delay w
    = (Ok s, World (requests w + r)
                   (slept w ++ backoff retry_delay (r - 1))) /\
    r <= max_retries /\
    sl_title s = title /\
    sl_overlay s = match sl_picture s with
                   | Some _ => true
                   | None => false
                   end /\
    sl_notes s = frame /\
    (if truthy speaker_notes
     then parse_markdown_formatting speaker_notes = Ok frame
     else frame = [[]]) /\
    (forall i, i < r - 1 ->
               picture_at net is_image image_url (requests w + i) = None) /\
    match sl_picture s with
    | Some image_data =>
        0 < r /\
        picture_at net is_image image_url (requests w + (r - 1))
        = Some image_data
    | None =>
        forall i, i < r ->
                  picture_at net is_image image_url (requests w + i) = None
    end /\
    (sl_picture s = None ->
     r = if truthy image_url && negb (str_eqb image_url changelog_index)
         then max_retries else 0).
Proof.
  intros Hlay Htitle Hxml.
  assert (Hnotes : exists frame,
             (if truthy speaker_notes
              then lift (parse_markdown_formatting speaker_notes)
              else ret [[]]) = ret frame /\
             (if truthy speaker_notes
              then parse_markdown_formatting speaker_notes = Ok frame
              else frame = [[]])).
  { destruct (truthy speaker_notes).
    - destruct (@parse_markdown_formatting_spans speaker_notes Hxml)
        as (frame & Hf & _).
      exists frame. rewrite Hf. now split.
    - exists [[]]. now split. }
  destruct Hnotes as (frame & Hn1 & Hn2).
  unfold create_cover_slide, slide_layout.
  rewrite Hn1, (set_text_ok _ Htitle).
  replace (3 <? layouts) with true by (symmetry; now apply Nat.ltb_lt).
  unfold bind at 1. unfold ret at 1.
  destruct (truthy image_url && negb (str_eqb image_url changelog_index)).
  - destruct (@cover_image_loop_backoff net is_image image_url max_retries
                retry_delay max_retries 0 w eq_refl)
      as (v & r & Hr & _ & Hrun & Hfail & Hv).
    fold (backoff retry_delay (r - 1)) in Hrun.
    eexists _, r, frame. unfold bind at 1. rewrite Hrun.
    unfold lift, bind, ret. split; [reflexivity|].
    cbn [sl_title sl_overlay sl_picture sl_notes].
    split; [exact Hr|]. split; [reflexivity|]. split; [reflexivity|].
    split; [reflexivity|]. split; [exact Hn2|]. split; [exact Hfail|].
    destruct v as [image_data|].
    + split; [exact Hv|discriminate].
    + destruct Hv as [-> Hv]. split; [exact Hv|reflexivity].
  - eexists _, 0, frame. unfold lift, bind, ret.
    rewrite Nat.add_0_r. cbn [Nat.sub backoff seq List.map].
    rewrite app_nil_r. destruct w as [n sl]. cbn [requests slept].
    split; [reflexivity|]. cbn [sl_title sl_overlay sl_picture sl_notes].
    repeat split; auto; intros; lia.
Qed.

(** [create_cover_slide]: no failure of the download reaches the
    caller.  For a presentation that has the layout asked for (more
    than three layouts) and a title and notes the presentation takes,
    the slide is made whatever the network does, with the title as
    given and the notes formatted.  An attempt gives the picture when
    its request is answered and [add_picture] takes the answer for an
    image; every other attempt counts as failed, whether the request
    raised or delivered something that is no image.  The picture is the
    one of the first attempt that gives one; at most [max_retries]
    requests are issued, with a wait of [retry_delay * 2 ** attempt]
    after each but the last; the overlay is there exactly when a
    picture is; and without a picture every attempt was made and
    failed (none is made for an empty or the excluded URL). *)
Theorem cover_slide_survives_download_failures
        (net : str -> nat -> outcome) (is_image : str -> bool)
        (title image_url : str) (layouts : nat) (speaker_notes : str)
        (max_retries : nat) (retry_delay : N) (w : world) :
  3 < layouts ->
  xml_text title = true ->
  xml_text speaker_notes = true ->
  exists s r w' frame,
    create_cover_slide net is_image title image_url layouts speaker_notes
                       max_retries retry_delay w = (Ok s, w') /\
    r <= max_retries /\
    requests w' = requests w + r /\
    slept w' = slept w ++ backoff retry_delay (r - 1) /\
    sl_title s = title /\
    sl_overlay s = match sl_picture s with
                   | Some _ => true
                   | None => false
                   end /\
    sl_notes s = frame /\
    (if truthy speaker_notes
     then parse_markdown_formatting speaker_notes = Ok frame
     else frame = [[]]) /\
    (forall i, i < r - 1 ->
               picture_at net is_image image_url (requests w + i) = None) /\
    match sl_picture s with
    | Some image_data =>
        0 < r /\
        picture_at net is_image image_url (requests w + (r - 1))
        = Some image_data
    | None =>
        forall i, i < r ->
                  picture_at net is_image image_url (requests w + i) = None
    end /\
    (sl_picture s = None ->
     r = if truthy image_url && negb (str_eqb image_url changelog_index)
         then max_retries else 0).
Proof.
  intros Hlay Htitle Hxml.
  destruct (@create_cover_slide_run net is_image title image_url layouts
              speaker_notes max_retries retry_delay w Hlay Htitle Hxml)
    as (s & r & frame & Hrun & H).
  exists s, r. eexists. exists frame. split; [exact Hrun|].
  cbn [requests slept]. tauto.
Qed.

(** A server that answers every request with a page of text: three
    requests, waits of one and two seconds, and a slide without
    picture and without overlay. *)
Lemma cover_slide_survives_download_failures_witness :
  exists s w',
    create_cover_slide net_page no_image (py "Title") example_url
                       default_layouts (py "Some **notes**") 3 1 world0
    = (Ok s, w') /\
    sl_picture s = None /\ sl_overlay s = false /\
    sl_title s = py "Title" /\
    requests w' = 3 /\ slept w' = [1; 2]%N.
Proof.
  destruct (@cover_slide_survives_download_failures
              net_page no_image (py "Title") example_url default_layouts
              (py "Some **notes**") 3 1 world0)
    as (s & r & w' & frame & Hrun & _ & Hreq & Hsl & Ht & Hov & _ & _ & _
        & Hpic & Hnone);
    [unfold default_layouts; lia|reflexivity|reflexivity|].
  exists s, w'. split; [exact Hrun|].
  assert (Hp : sl_picture s = None).
  { destruct (sl_picture s) as [image_data|]; [|reflexivity].
    destruct Hpic as [_ Hpic]. discriminate Hpic. }
  rewrite Hp in Hov. specialize (Hnone Hp). cbn in Hnone. subst r.
  repeat split; assumption.
Defined.

(* ================================================================== *)
(** ** The extracted fields are trimmed *)
(* ================================================================== *)

Lemma last_default (t : str) (d d' : char) : t <> [] -> last t d = last t d'.
Proof.
  induction t as [|c t IH]; intros H; [now elim H|].
  destruct t as [|c' t]; [reflexivity|]. cbn [last] in *. apply IH. discriminate.
Qed.

Lemma last_app_nonempty (a b : str) (d : char) :
  b <> [] -> last (a ++ b) d = last b d.
Proof.
  intros Hb. induction a as [|c a IH]; [reflexivity|].
  cbn [app]. destruct (a ++ b) as [|c' t] eqn:E.
  - apply app_eq_nil in E as [_ E]. now elim Hb.
  - cbn [last]. exact IH.
Qed.

Lemma lstrip_head (t : str) :
  match lstrip t with
  | [] => True
  | c :: _ => isspace c = false
  end.
Proof.
  induction t as [|c t IH]; [exact I|]. cbn [lstrip].
  destruct (isspace c) eqn:E; [exact IH|exact E].
Qed.

Lemma rstrip_last (t : str) (d : char) :
  rstrip t <> [] -> isspace (last (rstrip t) d) = false.
Proof.
  unfold rstrip. intros H. pose proof (lstrip_head (rev t)) as Hh.
  destruct (lstrip (rev t)) as [|c u]; [now elim H|].
  cbn [rev]. rewrite last_app_nonempty by discriminate. exact Hh.
Qed.

(** A trimmed text is a stretch of the text it was trimmed from. *)
Lemma strip_inside (t : str) :
  exists a b, t = a ++ strip t ++ b /\
              forallb isspace a = true /\ forallb isspace b = true.
Proof.
  destruct (lstrip_decomp t) as (a & Ha & Hsa).
  destruct (rstrip_decomp (lstrip t)) as (b & Hb & Hsb).
  exists a, b. unfold strip. rewrite <- Hb. auto.
Qed.

Lemma trimmed_strip (t : str) : trimmed (strip t) = true.
Proof.
  unfold trimmed. destruct (strip t) as [|c u] eqn:E; [reflexivity|].
  assert (Hne : rstrip (lstrip t) <> []) by (unfold strip in E; now rewrite E).
  pose proof (@rstrip_last (lstrip t) c Hne) as Hl. unfold strip in E. rewrite E in Hl.
  rewrite Hl. destruct (rstrip_decomp (lstrip t)) as (b & Hb & _).
  rewrite E in Hb. pose proof (lstrip_head t) as Hh. rewrite Hb in Hh.
  cbn [app] in Hh. now rewrite Hh.
Qed.

Lemma strip_forallb (p : char -> bool) (t : str) :
  forallb p t = true -> forallb p (strip t) = true.
Proof.
  intros H. destruct (strip_inside t) as (a & b & E & _).
  rewrite E, !forallb_app in H.
  apply andb_true_iff in H as [_ H]. now apply andb_true_iff in H as [H _].
Qed.

Lemma strip_not_blank (t : str) : blank t = false -> strip t <> [].
Proof.
  intros H E. destruct (strip_inside t) as (a & b & Et & Ha & Hb).
  rewrite E in Et. cbn [app] in Et. unfold blank in H.
  rewrite Et, forallb_app, Ha, Hb in H. discriminate.
Qed.

(** What follows the bullet on a trimmed line is not blank. *)
Lemma after_bullet_not_blank (bullet l : str) :
  2 <= length bullet -> isspace (last bullet 0%N) = true ->
  startswith bullet (strip l) = true ->
  strip (slice_from (strip l) 2) <> [].
Proof.
  intros Hlen Hsp Hs. apply strip_not_blank.
  pose proof (trimmed_strip l) as Ht.
  apply startswith_spec in Hs as (u & Hu). rewrite Hu in *.
  assert (Hb : bullet <> []) by (intros ->; simpl in Hlen; lia).
  assert (Hne : bullet ++ u <> [])
    by (intros E; apply app_eq_nil in E as [E _]; contradiction).
  unfold trimmed in Ht. destruct (bullet ++ u) as [|c x] eqn:E; [now elim Hne|].
  apply andb_true_iff in Ht as [_ Ht]. apply negb_true_iff in Ht.
  rewrite <- E in *. clear E.
  assert (Hune : u <> []).
  { intros ->. rewrite app_nil_r in Ht.
    rewrite (@last_default bullet c 0%N Hb) in Ht. congruence. }
  unfold slice_from. rewrite skipn_app.
  apply blank_last.
  - intros E. apply app_eq_nil in E as [_ E].
    replace (2 - length bullet) with 0 in E by lia. cbn [skipn] in E.
    contradiction.
  - replace (2 - length bullet) with 0 by lia. cbn [skipn].
    rewrite last_app_nonempty by exact Hune.
    rewrite last_app_nonempty in Ht by exact Hune.
    rewrite (@last_default u 0%N c Hune). exact Ht.
Qed.

Lemma focal_of_line_clean (bullet l : str) :
  2 <= length bullet -> isspace (last bullet 0%N) = true ->
  Forall clean_point (focal_of_line bullet l).
Proof.
  intros Hlen Hsp. unfold focal_of_line, is_bullet_line, is_bold_line.
  destruct (startswith bullet (strip l)) eqn:B1; cbn [orb].
  { constructor; [|constructor]. split; [|apply trimmed_strip].
    now apply (@after_bullet_not_blank bullet). }
  destruct (startswith (py "- ") (strip l)) eqn:B2.
  { constructor; [|constructor]. split; [|apply trimmed_strip].
    now apply (@after_bullet_not_blank (py "- ")). }
  destruct (startswith (py "**") (strip l)) eqn:B3; cbn [andb];
    [|constructor].
  destruct (contains (py "**") (slice_from (strip l) 2)); constructor;
    [|constructor].
  split; [|apply trimmed_strip].
  intros E. rewrite E in B3. discriminate.
Qed.

Lemma focal_of_clean (bullet content : str) :
  2 <= length bullet -> isspace (last bullet 0%N) = true ->
  Forall clean_point (focal_of bullet content).
Proof.
  intros Hlen Hsp. rewrite focal_of_lines by (intros ->; simpl in Hlen; lia).
  generalize (split nl (content_block content)). intros ls.
  induction ls as [|l ls IH]; cbn [flat_map]; [constructor|].
  apply Forall_app. split; [now apply focal_of_line_clean|exact IH].
Qed.

(** Every focal point that [parse_markdown_file] returns, in either
    script, is non-empty and has no whitespace at either end: a bullet
    line with nothing after the bullet gives no focal point. *)
Theorem focal_points_are_nonempty_and_trimmed
        (net : str -> nat -> outcome) (content : str) (w : world) :
  exists d1 w1 d2 w2,
    ppt_parse_markdown_file net content w = (Ok d1, w1) /\
    pandoc_parse_markdown_file net content w = (Ok d2, w2) /\
    Forall clean_point (focal_points d1) /\
    Forall clean_point (focal_points d2).
Proof.
  destruct (ppt_parse_total net content w)
    as (d1 & w1 & _ & _ & H1 & _ & _ & _ & F1 & _).
  destruct (pandoc_parse_total net content w)
    as (d2 & w2 & _ & H2 & _ & _ & _ & F2 & _).
  exists d1, w1, d2, w2. rewrite F1, F2.
  repeat split; try assumption; apply focal_of_clean;
    try reflexivity; simpl; lia.
Qed.

(** The text a section heading captures has no line break. *)
Lemma heading_group_one_line (label content : str) :
  one_line (group1 (re_search (heading_re label) content)) = true.
Proof.
  unfold group1. destruct (re_search (heading_re label) content) as [mo|] eqn:E;
    [|reflexivity].
  apply search_from_some in E as (u & v & s' & rest & _ & Hm & ->).
  assert (Hin : In s' (m (heading_re label) (MState (rev u ++ []) v [])))
    by (rewrite Hm; now left).
  unfold heading_re in Hin. cbn [cat] in Hin.
  apply in_m_cat in Hin as (s1 & H1 & H2).
  apply in_m_lit in H1 as [_ Hc1]. cbn [caps] in Hc1.
  apply in_m_rest_of_line in H2 as (x & _ & Hx & _ & _ & Hc).
  unfold group, mk_mobj. cbn [m_caps]. rewrite Hc. cbn [group_of Nat.eqb].
  exact Hx.
Qed.

Lemma section_clean (label content : str) :
  one_line (section_of (heading_re label) content) = true /\
  trimmed (section_of (heading_re label) content) = true.
Proof.
  unfold section_of. split; [|apply trimmed_strip].
  apply strip_forallb, heading_group_one_line.
Qed.

Lemma split_lines_one_line (t l : str) : In l (split nl t) -> one_line l = true.
Proof.
  revert l. induction t as [|c t IH]; intros l H.
  - destruct H as [<-|[]]. reflexivity.
  - cbn [split] in H. destruct (N.eqb_spec c nl) as [->|Hc].
    + destruct H as [<-|H]; [reflexivity|now apply IH].
    + destruct (split nl t) as [|l0 ls] eqn:E.
      * destruct H as [<-|[]]. unfold one_line, dot. cbn [forallb].
        apply N.eqb_neq in Hc. now rewrite Hc.
      * destruct H as [<-|H].
        -- unfold one_line, dot in *. cbn [forallb].
           apply N.eqb_neq in Hc. rewrite Hc. cbn [negb andb].
           apply IH. now left.
        -- apply IH. now right.
Qed.

Lemma title_clean (content : str) :
  title_of content <> [] /\ one_line (title_of content) = true.
Proof.
  rewrite title_of_first_h1. unfold first_h1.
  destruct (List.find is_h1 (split nl content)) as [l|] eqn:E.
  - apply find_some in E as [Hin Hh]. unfold is_h1 in Hh.
    apply andb_true_iff in Hh as [_ Hlen]. apply Nat.ltb_lt in Hlen.
    pose proof (@split_lines_one_line content l Hin) as Ho. split.
    + intros E. apply (f_equal (@length char)) in E.
      rewrite length_skipn in E. simpl in E. lia.
    + unfold one_line in *. rewrite <- (firstn_skipn 2 l), forallb_app in Ho.
      now apply andb_true_iff in Ho as [_ Ho].
  - split; [discriminate|reflexivity].
Qed.

(** What [parse_markdown_file] returns, in either script: a title
    that is never empty and has no line break; a date and a link that
    are one line each without whitespace at either end; and notes
    without whitespace at either end. *)
Theorem extracted_fields_are_clean
        (net : str -> nat -> outcome) (content : str) (w : world) :
  exists d1 w1 d2 w2,
    ppt_parse_markdown_file net content w = (Ok d1, w1) /\
    pandoc_parse_markdown_file net content w = (Ok d2, w2) /\
    Forall (fun d => title d <> [] /\ one_line (title d) = true /\
                     one_line (date d) = true /\ trimmed (date d) = true /\
                     one_line (link d) = true /\ trimmed (link d) = true /\
                     trimmed (speaker_notes d) = true)
           [d1; d2].
Proof.
  destruct (ppt_parse_total net content w)
    as (d1 & w1 & _ & _ & H1 & T1 & D1 & L1 & _ & N1 & _).
  destruct (pandoc_parse_total net content w)
    as (d2 & w2 & _ & H2 & T2 & D2 & L2 & _ & N2 & _).
  exists d1, w1, d2, w2. split; [exact H1|]. split; [exact H2|].
  destruct (title_clean content) as [Ht1 Ht2].
  destruct (section_clean (py "## Article Date") content) as [Hd1 Hd2].
  destruct (section_clean (py "## Article Url") content) as [Hl1 Hl2].
  fold date_re in Hd1, Hd2. fold link_re in Hl1, Hl2.
  constructor; [|constructor; [|constructor]].
  - rewrite T1, D1, L1, N1. repeat split; try assumption.
    unfold ppt_speaker_notes. cbv zeta. apply trimmed_strip.
  - rewrite T2, D2, L2, N2. repeat split; try assumption.
    unfold section_of. apply trimmed_strip.
Qed.

(* ================================================================== *)
(** ** The extracted fields hold characters of the text *)
(* ================================================================== *)

(** A match leaves a part of the text ahead, and the groups it
    captures are parts of the text ahead. *)
Lemma m_caps_forallb (p : char -> bool) (r : regex) :
  forall s s', In s' (m r s) ->
    forallb p (post s) = true ->
    Forall (fun kw : nat * str => forallb p (snd kw) = true) (caps s) ->
    forallb p (post s') = true /\
    Forall (fun kw : nat * str => forallb p (snd kw) = true) (caps s').
Proof.
  induction r as [|q|a IHa b IHb|a IHa b IHb|g r IH|n r IH| | |];
    intros s s' H Hp Hc.
  - destruct H as [<-|[]]. auto.
  - apply in_m_cls in H as (c & _ & [Hr _] & Hcs). rewrite Hcs.
    split; [|exact Hc]. rewrite Hr in Hp. cbn [app forallb] in Hp.
    now apply andb_true_iff in Hp as [_ Hp].
  - apply in_m_cat in H as (s1 & H1 & H2).
    destruct (IHa _ _ H1 Hp Hc) as [Hp1 Hc1]. exact (IHb _ _ H2 Hp1 Hc1).
  - apply in_m_alt in H as [H|H]; eauto.
  - simpl in H.
    refine (@rep_loop_closure (m r) g
              (fun s s' =>
                 forallb p (post s) = true ->
                 Forall (fun kw : nat * str => forallb p (snd kw) = true)
                        (caps s) ->
                 forallb p (post s') = true /\
                 Forall (fun kw : nat * str => forallb p (snd kw) = true)
                        (caps s'))
              _ _ _ _ _ H Hp Hc).
    + intros s0 Hp0 Hc0. auto.
    + intros s0 s1 s2 H1 _ Hrest Hp0 Hc0.
      destruct (IH _ _ H1 Hp0 Hc0) as [Hp1 Hc1]. exact (Hrest Hp1 Hc1).
  - apply in_m_grp in H as (s1 & H1 & ->).
    destruct (IH _ _ H1 Hp Hc) as [Hp1 Hc1]. cbn [set_cap post caps].
    split; [exact Hp1|]. constructor; [|exact Hc1].
    cbn [snd]. unfold consumed. now apply forallb_firstn.
  - simpl in H. destruct (pre s) as [|c t].
    + destruct H as [<-|[]]. auto.
    + destruct (c =? nl)%N; [|easy]. destruct H as [<-|[]]. auto.
  - simpl in H. destruct (post s) as [|c t] eqn:E.
    + destruct H as [<-|[]]. rewrite E. auto.
    + destruct (c =? nl)%N; [|easy]. destruct H as [<-|[]]. rewrite E. auto.
  - simpl in H. destruct (post s) as [|c t] eqn:E; [|easy].
    destruct H as [<-|[]]. rewrite E. auto.
Qed.

(** A group of a search result is a part of the text searched. *)
Lemma search_group_forallb (p : char -> bool) (r : regex) (t : str)
      (mo : mobj) (n : nat) (g : str) :
  forallb p t = true -> re_search r t = Some mo -> group mo n = Some g ->
  forallb p g = true.
Proof.
  intros Hp Hs Hg.
  apply search_from_some in Hs as (u & v & s' & rest & E & Hm & ->).
  assert (Hin : In s' (m r (MState (rev u ++ []) v [])))
    by (rewrite Hm; now left).
  assert (Hv : forallb p v = true).
  { rewrite E, forallb_app in Hp. now apply andb_true_iff in Hp as [_ Hp]. }
  destruct (@m_caps_forallb p r _ _ Hin Hv (Forall_nil _)) as [_ Hc].
  unfold group in Hg. cbn [m_caps mk_mobj] in Hg.
  apply group_of_in in Hg. rewrite Forall_forall in Hc.
  exact (Hc _ Hg).
Qed.

Lemma group1_forallb (p : char -> bool) (r : regex) (t : str) :
  forallb p t = true -> forallb p (group1 (re_search r t)) = true.
Proof.
  intros Hp. unfold group1.
  destruct (re_search r t) as [mo|] eqn:E; [|reflexivity].
  destruct (group mo 1) as [g|] eqn:G; [|reflexivity].
  exact (@search_group_forallb p r t mo 1 g Hp E G).
Qed.

Lemma title_of_xml (content : str) :
  xml_text content = true -> xml_text (title_of content) = true.
Proof.
  intros H. unfold title_of.
  destruct (re_search title_re content) as [mo|] eqn:E; [|reflexivity].
  rewrite <- E. now apply group1_forallb.
Qed.

Lemma section_of_xml (r : regex) (content : str) :
  xml_text content = true -> xml_text (section_of r content) = true.
Proof.
  intros H. unfold section_of. apply strip_forallb. now apply group1_forallb.
Qed.

Lemma focal_of_line_xml (bullet l : str) :
  xml_text l = true -> forallb xml_text (focal_of_line bullet l) = true.
Proof.
  intros H. unfold focal_of_line.
  assert (Hs : xml_text (strip l) = true) by now apply strip_forallb.
  destruct (is_bullet_line bullet l).
  - cbn [forallb]. rewrite andb_true_r.
    apply strip_forallb. unfold slice_from. now apply forallb_skipn.
  - destruct (is_bold_line l); [|reflexivity].
    cbn [forallb]. now rewrite Hs.
Qed.

Lemma focal_of_xml (content : str) :
  xml_text content = true ->
  forallb xml_text (focal_of ppt_bullet content) = true.
Proof.
  intros H. rewrite focal_of_lines by discriminate.
  assert (Hb : xml_text (content_block content) = true)
    by (unfold content_block; now apply group1_forallb).
  pose proof (@forallb_split xml_char nl _ Hb) as Hl.
  induction Hl as [|l ls Hx _ IH]; [reflexivity|].
  cbn [flat_map]. rewrite forallb_app, IH, andb_true_r.
  now apply focal_of_line_xml.
Qed.

Lemma slice_xml (t : str) (a b : nat) :
  xml_text t = true -> xml_text (slice t a b) = true.
Proof. intros H. apply forallb_firstn, forallb_skipn, H. Qed.

Lemma ppt_speaker_notes_xml (content : str) :
  xml_text content = true -> xml_text (ppt_speaker_notes content) = true.
Proof.
  intros H. unfold ppt_speaker_notes. apply strip_forallb.
  assert (Hs : forall a b, xml_text (strip (slice content a b)) = true)
    by (intros a b; apply strip_forallb; now apply slice_xml).
  repeat match goal with
         | |- context [if ?c then _ else _] => destruct c
         end;
    rewrite ?xml_text_app, ?Hs; reflexivity.
Qed.

(* ================================================================== *)
(** ** The two slides of a document *)
(* ================================================================== *)

Lemma backoff_total_le_3 (r : nat) :
  r <= 3 -> (fold_right N.add 0 (backoff 1 (r - 1)) <= 3)%N.
Proof.
  intros H. destruct r as [|[|[|[|r]]]]; try lia; cbn; lia.
Qed.

Lemma truthy_date_notes (a b c : str) :
  truthy (py "Date: " ++ a ++ py " - Link: " ++ b ++ [nl; nl] ++ c) = true.
Proof. reflexivity. Qed.

(** [create_single_slide] on a document that holds only characters the
    presentation takes (no U+FFFE, no U+FFFF, no surrogate).  When no
    presentation is passed, or one with more than three slide layouts,
    the document gives its two slides whatever the network does.  Both
    slides carry the title the extractor found, the content slide has
    the date and one paragraph for each focal point, and the two have
    the same notes, made of the one text that begins with the date and
    the link, so that the notes are never left out.  The whole costs at
    most six requests and six seconds of waiting.  When the
    presentation passed has three slide layouts or fewer, the document
    is read, which may cost up to three requests, and the function
    raises [IndexError] where the cover slide asks for the fourth
    layout. *)
Theorem single_slide_is_total_and_bounded
        (net : str -> nat -> outcome) (is_image : str -> bool)
        (content : str) (prs : option nat) (w : world) :
  xml_text content = true ->
  if 3 <? match prs with
          | None => default_layouts
          | Some layouts => layouts
          end
  then
    exists cover slide2 w' notes_frame,
      create_single_slide net is_image content prs w
      = (Ok (cover, slide2), w') /\
      requests w' <= requests w + 6 /\
      (total_sleep w' <= total_sleep w + 6)%N /\
      sl_title cover = title_of content /\
      cs_title slide2 = title_of content /\
      cs_date slide2 = section_of date_re content /\
      match focal_of ppt_bullet content with
      | [] => cs_points slide2 = [[]]
      | _ :: _ =>
          Forall2 focal_rendering (focal_of ppt_bullet content)
                  (cs_points slide2)
      end /\
      sl_notes cover = notes_frame /\
      cs_notes slide2 = notes_frame /\
      parse_markdown_formatting
        (py "Date: " ++ section_of date_re content ++ py " - Link: "
         ++ section_of link_re content ++ [nl; nl]
         ++ ppt_speaker_notes content) = Ok notes_frame
  else
    exists w',
      create_single_slide net is_image content prs w
      = (Raise IndexError, w') /\
      requests w' <= requests w + 3.
Proof.
  intros Hxml.
  set (layouts := match prs with
                  | None => default_layouts
                  | Some layouts => layouts
                  end).
  destruct (ppt_parse_total net content w)
    as (d & w1 & literal & fetched & Hparse & Ht & Hd & Hl & Hfp & Hsn & _ & _
        & Hfetch).
  assert (Hw1 : exists r1, r1 <= 3 /\
                  w1 = World (requests w + r1)
                             (slept w ++ backoff 1 (r1 - 1))).
  { destruct (truthy (link d)).
    - destruct (@ppt_fetch_loop_backoff net (link d) 3 1 3 0 w eq_refl)
        as (v & r & Hr & _ & Hrun & _).
      unfold ppt_fetch_og_image_from_url in Hfetch. rewrite Hrun in Hfetch.
      exists r. split; [exact Hr|]. now injection Hfetch as _ <-.
    - destruct Hfetch as [_ ->]. exists 0. split; [lia|].
      destruct w as [n sl]. cbn [requests slept Nat.sub backoff seq List.map].
      now rewrite Nat.add_0_r, app_nil_r. }
  destruct Hw1 as (r1 & Hr1 & Hw1).
  set (text := py "Date: " ++ date d ++ py " - Link: " ++ link d ++ [nl; nl]
               ++ speaker_notes d).
  destruct (Nat.ltb_spec 3 layouts) as [Hlay|Hlay];
    unfold create_single_slide; unfold bind at 1; rewrite Hparse;
    cbv zeta; fold layouts; fold text.
  - assert (Hxt : xml_text (title d) = true)
      by (rewrite Ht; now apply title_of_xml).
    assert (Hxd : xml_text (date d) = true)
      by (rewrite Hd; now apply section_of_xml).
    assert (Hxtext : xml_text text = true).
    { unfold text. rewrite !xml_text_app, Hxd, Hl, Hsn.
      rewrite (section_of_xml link_re content Hxml).
      rewrite (ppt_speaker_notes_xml content Hxml). reflexivity. }
    destruct (@create_cover_slide_run net is_image (title d) (image d)
                layouts text 3 1 w1 Hlay Hxt Hxtext)
      as (cover & r2 & frame & Hcover & Hr2 & Hct & _ & Hcn & Hframe & _).
    unfold text in Hframe at 1. rewrite truthy_date_notes in Hframe.
    unfold bind at 1. rewrite Hcover.
    unfold slide_layout.
    assert (Elay : (3 <? layouts) = true) by now apply Nat.ltb_lt.
    rewrite Elay. cbv iota. rewrite Elay.
    rewrite (set_text_ok _ Hxt), (set_text_ok _ Hxd), Hframe.
    assert (Hxf : forallb xml_text (focal_points d) = true)
      by (rewrite Hfp; now apply focal_of_xml).
    pose proof (format_focal_points_run (focal_points d)) as Hfocal.
    rewrite Hxf in Hfocal.
    destruct Hfocal as (points & Hpoints & Hrendering).
    rewrite Hpoints. unfold lift, bind, ret.
    eexists _, _, _, frame. split; [reflexivity|].
    cbn [cs_title cs_date cs_notes cs_points requests].
    subst w1. cbn [requests slept].
    split; [lia|]. split.
    { rewrite !total_sleep_app.
      pose proof (backoff_total_le_3 Hr1). pose proof (backoff_total_le_3 Hr2).
      assert (total_sleep (World (requests w + r1 + r2) (slept w))
              = total_sleep w) by (destruct w; reflexivity).
      lia. }
    unfold text in Hframe. rewrite Hd, Hl, Hsn in Hframe.
    rewrite Hfp in Hrendering.
    repeat split; auto; congruence.
  - unfold create_cover_slide, slide_layout.
    replace (3 <? layouts) with false by (symmetry; apply Nat.ltb_ge; lia).
    unfold bind, raise. exists w1. split; [reflexivity|].
    subst w1. cbn [requests]. lia.
Qed.

(** A document with a link and an image, on a network that answers
    every request with a page of text: one request for the page of the
    link, which has no image tag, three for the picture, which is none;
    the two slides are made, without picture. *)
Lemma single_slide_is_total_and_bounded_witness :
  exists cover slide2 w' notes_frame,
    create_single_slide net_page no_image doc_link_and_image None world0
    = (Ok (cover, slide2), w') /\
    requests w' <= requests world0 + 6 /\
    (total_sleep w' <= total_sleep world0 + 6)%N /\
    sl_title cover = title_of doc_link_and_image /\
    cs_title slide2 = title_of doc_link_and_image /\
    cs_date slide2 = section_of date_re doc_link_and_image /\
    cs_points slide2 = [[]] /\
    sl_notes cover = notes_frame /\
    cs_notes slide2 = notes_frame /\
    parse_markdown_formatting
      (py "Date: " ++ section_of date_re doc_link_and_image ++ py " - Link: "
       ++ section_of link_re doc_link_and_image ++ [nl; nl]
       ++ ppt_speaker_notes doc_link_and_image) = Ok notes_frame.
Proof.
  exact (@single_slide_is_total_and_bounded net_page no_image
           doc_link_and_image None world0 eq_refl).
Defined.

(* ================================================================== *)
(** ** Lines and path segments *)
(* ================================================================== *)

Lemma split_not_nil (sep : char) (t : str) : split sep t <> [].
Proof.
  destruct t as [|c t]; cbn [split]; [discriminate|].
  destruct (c =? sep)%N; [discriminate|].
  destruct (split sep t); discriminate.
Qed.

(** Splitting before and after a separator. *)
Lemma split_app_sep (sep : char) (x y : str) :
  split sep (x ++ sep :: y) = split sep x ++ split sep y.
Proof.
  induction x as [|c x IH]; cbn [app split].
  - now rewrite N.eqb_refl.
  - destruct (c =? sep)%N; rewrite IH; [reflexivity|].
    pose proof (split_not_nil sep x) as Hx.
    destruct (split sep x) as [|l ls]; [now elim Hx|]. reflexivity.
Qed.

Lemma split_without_sep (sep : char) (t : str) :
  forallb (fun c => negb (c =? sep)%N) t = true -> split sep t = [t].
Proof.
  induction t as [|c t IH]; intros H; [reflexivity|].
  cbn [forallb] in H. apply andb_true_iff in H as [Hc Ht].
  cbn [split]. apply negb_true_iff in Hc. rewrite Hc, (IH Ht). reflexivity.
Qed.

Lemma split_pieces_without_sep (sep : char) (t l : str) :
  In l (split sep t) -> forallb (fun c => negb (c =? sep)%N) l = true.
Proof.
  revert l. induction t as [|c t IH]; intros l H.
  - destruct H as [<-|[]]. reflexivity.
  - cbn [split] in H. destruct (c =? sep)%N eqn:Hc.
    + destruct H as [<-|H]; [reflexivity|now apply IH].
    + destruct (split sep t) as [|l0 ls] eqn:E.
      * destruct H as [<-|[]]. cbn [forallb]. now rewrite Hc.
      * destruct H as [<-|H].
        -- cbn [forallb]. rewrite Hc. cbn [negb andb]. apply IH. now left.
        -- apply IH. now right.
Qed.

Lemma last_in (A : Type) (l : list A) (d : A) : l <> [] -> In (last l d) l.
Proof.
  induction l as [|a l IH]; intros H; [now elim H|].
  destruct l as [|b l]; [now left|]. right. apply IH. discriminate.
Qed.

Lemma last_app_list (A : Type) (a b : list A) (d : A) :
  b <> [] -> last (a ++ b) d = last b d.
Proof.
  intros Hb. induction a as [|c a IH]; [reflexivity|].
  cbn [app]. destruct (a ++ b) as [|c' t] eqn:E.
  - apply app_eq_nil in E as [_ E]. now elim Hb.
  - cbn [last]. exact IH.
Qed.

Lemma basename_no_slash (p : str) : no_slash (basename p) = true.
Proof.
  unfold basename, no_slash. apply (@split_pieces_without_sep slash p).
  apply last_in, split_not_nil.
Qed.

Lemma basename_segment (dir name : str) :
  no_slash name = true -> basename (dir ++ slash :: name) = name.
Proof.
  intros H. unfold basename. fold slash. rewrite split_app_sep.
  rewrite last_app_list by apply split_not_nil.
  now rewrite (@split_without_sep slash name H).
Qed.

Lemma cover_markdown_last_segment (title dir name date : str) :
  no_slash name = true ->
  dir ++ slash :: name <> changelog_index ->
  create_cover_slide_markdown title (dir ++ slash :: name) date
  = py "# " ++ title ++ [nl; nl]
    ++ py "![](./media/" ++ name ++ py "){.background}" ++ [nl; nl]
    ++ py "---" ++ [nl; nl].
Proof.
  intros Hn Hc. unfold create_cover_slide_markdown. cbv zeta.
  assert (Ht : truthy (dir ++ slash :: name) = true)
    by (destruct dir; reflexivity).
  assert (Hx : str_eqb (dir ++ slash :: name) changelog_index = false).
  { destruct (str_eqb (dir ++ slash :: name) changelog_index) eqn:E;
      [|reflexivity].
    apply str_eqb_eq in E. contradiction. }
  rewrite Ht, Hx, (@basename_segment dir name Hn). cbn [andb negb app].
  now rewrite <- !app_assoc.
Qed.

(** [create_cover_slide_markdown] names the picture by the last
    segment of the URL alone: for a URL that ends in a segment [name]
    after a slash, the slide refers to [./media/name], whatever comes
    before the slash, and the reference never has a slash after
    [./media/].  The date plays no part.  A URL that ends in a slash
    gives a reference to no file at all. *)
Theorem cover_markdown_names_the_last_segment
        (title dir name date : str) :
  no_slash name = true ->
  dir ++ slash :: name <> changelog_index ->
  create_cover_slide_markdown title (dir ++ slash :: name) date
  = py "# " ++ title ++ [nl; nl]
    ++ py "![](./media/" ++ name ++ py "){.background}" ++ [nl; nl]
    ++ py "---" ++ [nl; nl]
  /\ forall image_url, no_slash (basename image_url) = true.
Proof.
  intros Hn Hc. split; [|apply basename_no_slash].
  now apply cover_markdown_last_segment.
Qed.

Lemma cover_markdown_names_the_last_segment_witness :
  create_cover_slide_markdown (py "Hello")
                              (py "https://example.org/img/a.png") (py "")
  = py "# Hello" ++ [nl; nl] ++ py "![](./media/a.png){.background}"
    ++ [nl; nl] ++ py "---" ++ [nl; nl].
Proof.
  apply (@cover_markdown_names_the_last_segment
           (py "Hello") (py "https://example.org/img") (py "a.png") (py ""));
    [reflexivity|discriminate].
Defined.

(* ================================================================== *)
(** ** The content slide of the Pandoc deck *)
(* ================================================================== *)

Lemma bullets_loop_app (focal_points : list str) :
  forall markdown,
    bullets_loop focal_points markdown
    = markdown
      ++ concat (List.map (fun point => py "- " ++ point ++ [nl]) focal_points).
Proof.
  induction focal_points as [|point rest IH]; intros markdown;
    cbn [bullets_loop List.map concat].
  - now rewrite app_nil_r.
  - rewrite IH, <- !app_assoc. reflexivity.
Qed.

Lemma split_line_then (l rest : str) :
  one_line l = true -> split nl (l ++ nl :: rest) = l :: split nl rest.
Proof.
  intros H. rewrite split_app_sep, (@split_one_line l H). reflexivity.
Qed.

Lemma split_bullets (focal_points : list str) (rest : str) :
  Forall (fun point => one_line point = true) focal_points ->
  split nl (concat (List.map (fun point => py "- " ++ point ++ [nl])
                             focal_points) ++ rest)
  = List.map (app (py "- ")) focal_points ++ split nl rest.
Proof.
  induction 1 as [|point points Hp _ IH]; [reflexivity|].
  cbn [List.map concat]. rewrite <- !app_assoc.
  change (py "- " ++ point ++ [nl] ++ ?x) with ((py "- " ++ point) ++ nl :: x).
  replace (py "- " ++ point ++ [nl] ++
           concat (List.map (fun point0 => py "- " ++ point0 ++ [nl]) points)
           ++ rest)
    with ((py "- " ++ point) ++ nl ::
          (concat (List.map (fun point0 => py "- " ++ point0 ++ [nl]) points)
           ++ rest))
    by (now rewrite <- !app_assoc).
  rewrite split_line_then, IH; [reflexivity|].
  unfold one_line in *. rewrite forallb_app, Hp. reflexivity.
Qed.

Lemma one_line_app (a b : str) :
  one_line a = true -> one_line b = true -> one_line (a ++ b) = true.
Proof. unfold one_line. intros Ha Hb. now rewrite forallb_app, Ha, Hb. Qed.

Lemma split_line2 (a b rest : str) :
  one_line a = true -> one_line b = true ->
  split nl (a ++ b ++ nl :: rest) = (a ++ b) :: split nl rest.
Proof.
  intros Ha Hb. rewrite app_assoc. apply split_line_then.
  now apply one_line_app.
Qed.

Lemma split_line3 (a b c rest : str) :
  one_line a = true -> one_line b = true -> one_line c = true ->
  split nl (a ++ b ++ c ++ nl :: rest) = (a ++ b ++ c) :: split nl rest.
Proof.
  intros Ha Hb Hc. rewrite (app_assoc b), split_line2;
    [reflexivity|assumption|now apply one_line_app].
Qed.

(** The slide, line by line. *)
Lemma content_slide_lines (title : str) (focal_points : list str)
      (date speaker_notes link : str) :
  one_line title = true ->
  Forall (fun point => one_line point = true) focal_points ->
  one_line date = true -> one_line link = true ->
  split nl (create_content_slide_markdown title focal_points date
                                          speaker_notes link)
  = [py "## " ++ title; []]
    ++ List.map (app (py "- ")) focal_points
    ++ notes_lines speaker_notes link
    ++ [[]; py "<!-- Date: " ++ date ++ py " -->"; []; py "---"; []; []].
Proof.
  intros Ht Hp Hd Hl.
  unfold create_content_slide_markdown, notes_lines. cbv zeta.
  rewrite bullets_loop_app.
  destruct (truthy speaker_notes || truthy link); [destruct (truthy link)|];
    rewrite <- ?app_assoc; cbn [app];
    rewrite (@split_line2 (py "## ") title) by (reflexivity || assumption);
    rewrite split_cons_nl, (split_bullets _ Hp), split_cons_nl.
  - rewrite (@split_line_then (py "::: notes")) by reflexivity.
    rewrite split_cons_nl.
    rewrite (@split_line2 (py "**Article Link**: ") link)
      by (reflexivity || assumption).
    rewrite split_cons_nl, split_app_sep, split_cons_nl.
    rewrite (@split_line_then (py ":::")) by reflexivity.
    rewrite split_cons_nl.
    rewrite (@split_line3 (py "<!-- Date: ") date (py " -->"))
      by (reflexivity || assumption).
    rewrite split_cons_nl, (@split_line_then (py "---")) by reflexivity.
    reflexivity.
  - rewrite (@split_line_then (py "::: notes")) by reflexivity.
    rewrite split_cons_nl, split_app_sep, split_cons_nl.
    rewrite (@split_line_then (py ":::")) by reflexivity.
    rewrite split_cons_nl.
    rewrite (@split_line3 (py "<!-- Date: ") date (py " -->"))
      by (reflexivity || assumption).
    rewrite split_cons_nl, (@split_line_then (py "---")) by reflexivity.
    reflexivity.
  - rewrite (@split_line3 (py "<!-- Date: ") date (py " -->"))
      by (reflexivity || assumption).
    rewrite split_cons_nl, (@split_line_then (py "---")) by reflexivity.
    reflexivity.
Qed.

(** [create_content_slide_markdown], line by line, for a title, focal
    points, a date and a link that are one line each: the heading and
    an empty line; one line for each focal point, in order, a hyphen
    and a space before it; the notes block, which is there exactly
    when the notes or the link are not empty, with the link line before
    the notes; then the date comment and the separator. *)
Theorem content_slide_is_laid_out_in_lines
        (title : str) (focal_points : list str)
        (date speaker_notes link : str) :
  one_line title = true ->
  Forall (fun point => one_line point = true) focal_points ->
  one_line date = true -> one_line link = true ->
  split nl (create_content_slide_markdown title focal_points date
                                          speaker_notes link)
  = [py "## " ++ title; []]
    ++ List.map (app (py "- ")) focal_points
    ++ notes_lines speaker_notes link
    ++ [[]; py "<!-- Date: " ++ date ++ py " -->"; []; py "---"; []; []].
Proof. apply content_slide_lines. Qed.

Lemma content_slide_is_laid_out_in_lines_witness :
  split nl (create_content_slide_markdown
              (py "Hello") [py "one"; py "two"] (py "2025-01-01")
              (py "Say" ++ [nl] ++ py "this") (py "https://x.org"))
  = [py "## Hello"; []; py "- one"; py "- two";
     []; py "::: notes"; []; py "**Article Link**: https://x.org"; [];
     py "Say"; py "this"; []; py ":::";
     []; py "<!-- Date: 2025-01-01 -->"; []; py "---"; []; []].
Proof.
  apply (@content_slide_is_laid_out_in_lines
           (py "Hello") [py "one"; py "two"] (py "2025-01-01")
           (py "Say" ++ [nl] ++ py "this") (py "https://x.org"));
    try reflexivity.
  repeat constructor.
Defined.

Lemma strip_head (c : char) (t : str) :
  isspace c = false -> exists u, strip (c :: t) = c :: u.
Proof.
  intros Hc. unfold strip. cbn [lstrip]. rewrite Hc.
  destruct (rstrip_decomp (c :: t)) as (ws & E & Hws).
  destruct (rstrip (c :: t)) as [|c' u].
  - cbn [app] in E. subst ws. cbn [forallb] in Hws. now rewrite Hc in Hws.
  - cbn [app] in E. injection E as <- _. now exists u.
Qed.

Lemma strip_trimmed (t : str) : trimmed t = true -> strip t = t.
Proof.
  destruct t as [|c t]; [reflexivity|]. unfold trimmed.
  intros H. apply andb_true_iff in H as [H1 H2].
  apply negb_true_iff in H1, H2.
  unfold strip. cbn [lstrip]. rewrite H1.
  destruct (rstrip_decomp (c :: t)) as (ws & E & Hws).
  destruct ws as [|x ws]; [now rewrite app_nil_r in E|].
  exfalso. rewrite E in H2.
  rewrite last_app_list in H2 by discriminate.
  assert (Hin : In (last (x :: ws) c) (x :: ws))
    by (apply last_in; discriminate).
  rewrite forallb_forall in Hws. rewrite (Hws _ Hin) in H2. discriminate.
Qed.

(** A line that begins with a character that is no whitespace and
    that neither the bullet, nor the hyphen, nor the asterisk is. *)
Lemma focal_of_line_other (bullet l : str) (b c : char) (b' : str) :
  bullet = b :: b' -> isspace c = false ->
  (b =? c)%N = false -> (45 =? c)%N = false -> (42 =? c)%N = false ->
  focal_of_line bullet (c :: l) = [].
Proof.
  intros -> Hs Hb Hh Ha. destruct (@strip_head c l Hs) as (u & E).
  unfold focal_of_line, is_bullet_line, is_bold_line. rewrite E.
  change (py "- ") with [45; 32]%N. change (py "**") with [42; 42]%N.
  cbn [startswith]. now rewrite Hb, Hh, Ha.
Qed.

Lemma focal_of_line_rule (bullet : str) (b : char) (b' : str) :
  bullet = b :: b' -> (b =? 45)%N = false ->
  focal_of_line bullet (py "---") = [].
Proof.
  intros -> Hb. unfold focal_of_line, is_bullet_line, is_bold_line.
  change (strip (py "---")) with (py "---").
  change (py "---") with [45; 45; 45]%N.
  change (py "- ") with [45; 32]%N. change (py "**") with [42; 42]%N.
  cbn [startswith]. now rewrite Hb.
Qed.

Lemma focal_of_line_hyphen (bullet point : str) (b : char) (b' : str) :
  bullet = b :: b' -> (b =? 45)%N = false ->
  clean_point point ->
  focal_of_line bullet (py "- " ++ point) = [point].
Proof.
  intros -> Hb [Hne Ht].
  assert (Hl : strip (py "- " ++ point) = py "- " ++ point).
  { apply strip_trimmed. destruct point as [|c p]; [now elim Hne|].
    unfold trimmed in Ht. apply andb_true_iff in Ht as [_ Ht].
    change (py "- " ++ c :: p) with (45%N :: ([32%N] ++ c :: p)).
    unfold trimmed.
    pose proof (@last_app_list char [45%N; 32%N] (c :: p) 45%N) as E.
    rewrite (@last_default (c :: p) 45%N c) in E by discriminate.
    assert (G : forall x : char,
               x = last (c :: p) c ->
               negb (isspace 45%N) && negb (isspace x) = true)
      by (intros x ->; rewrite Ht; reflexivity).
    apply G. apply E. discriminate. }
  unfold focal_of_line, is_bullet_line. rewrite Hl.
  change (py "- ") with [45; 32]%N. cbn [app startswith].
  rewrite Hb, !N.eqb_refl. cbn [andb orb slice_from skipn].
  now rewrite (@strip_trimmed point Ht).
Qed.

(** [create_content_slide_markdown] and the focal-point loop of
    [parse_markdown_file] are inverse to each other on the focal
    points: the lines of a content slide without notes and link, read
    by that loop, give back the focal points the slide was made from,
    for focal points as the extractor returns them (one line each, not
    empty, trimmed).  Nothing else on the slide is taken for a focal
    point. *)
Theorem content_slide_bullets_read_back
        (title : str) (focal_points : list str) (date : str) :
  one_line title = true -> one_line date = true ->
  Forall (fun point => one_line point = true /\ clean_point point)
         focal_points ->
  let slide_lines :=
    split nl (create_content_slide_markdown title focal_points date [] []) in
  focal_loop ppt_bullet slide_lines [] = focal_points /\
  focal_loop pandoc_bullet slide_lines [] = focal_points.
Proof.
  intros Ht Hd Hp. cbv zeta.
  rewrite content_slide_lines; try assumption; try reflexivity;
    [|eapply Forall_impl; [|exact Hp]; now intros p [H _]].
  cbn [notes_lines truthy str_eqb orb app].
  change (notes_lines [] []) with (@nil str). cbn [app].
  assert (H : forall bullet b b',
             bullet = b :: b' -> (b =? 45)%N = false ->
             (b =? 35)%N = false -> (b =? 60)%N = false ->
             focal_loop bullet
               ((py "## " ++ title) :: []
                :: List.map (app (py "- ")) focal_points
                   ++ [[]; py "<!-- Date: " ++ date ++ py " -->"; [];
                       py "---"; []; []]) []
             = focal_points).
  { intros bullet b b' Eb H45 H35 H60.
    rewrite focal_loop_flat_map by (rewrite Eb; discriminate).
    cbn [app flat_map].
    change (py "## " ++ title) with (35%N :: (py "# " ++ title)).
    change (py "<!-- Date: " ++ date ++ py " -->")
      with (60%N :: (py "!-- Date: " ++ date ++ py " -->")).
    rewrite (@focal_of_line_other bullet _ b 35%N b' Eb) by (reflexivity || assumption).
    rewrite flat_map_app. cbn [flat_map app].
    rewrite (@focal_of_line_other bullet _ b 60%N b' Eb) by (reflexivity || assumption).
    rewrite (@focal_of_line_rule bullet b b' Eb H45).
    assert (Hnil : focal_of_line bullet [] = []).
    { rewrite Eb. reflexivity. }
    rewrite Hnil. cbn [app]. rewrite app_nil_r.
    clear Ht Hd. induction Hp as [|p ps [_ Hc] _ IH]; [reflexivity|].
    cbn [List.map flat_map].
    rewrite (@focal_of_line_hyphen bullet p b b' Eb H45 Hc), IH.
    reflexivity. }
  split; eapply H; reflexivity.
Qed.

Lemma content_slide_bullets_read_back_witness :
  focal_loop ppt_bullet
    (split nl (create_content_slide_markdown
                 (py "Hello") [py "one"; py "**two**: 2"] (py "2025-01-01")
                 [] [])) []
  = [py "one"; py "**two**: 2"].
Proof.
  apply (@content_slide_bullets_read_back
           (py "Hello") [py "one"; py "**two**: 2"] (py "2025-01-01"));
    try reflexivity.
  repeat constructor; discriminate.
Defined.

(* ================================================================== *)
(** ** The first match of a pattern *)
(* ================================================================== *)

(** [s'] is the match the engine reports for [r] at [s]. *)
Lemma first_cat (a b : regex) (s s1 s2 : mstate) (r1 r2 : list mstate) :
  m a s = s1 :: r1 -> m b s1 = s2 :: r2 ->
  exists r, m (Cat a b) s = s2 :: r.
Proof.
  intros Ha Hb. cbn [m]. rewrite Ha. cbn [flat_map]. rewrite Hb.
  eexists. reflexivity.
Qed.

Lemma m_lit_here (w : str) :
  forall pr t cs,
    m (lit w) (MState pr (w ++ t) cs) = [MState (rev w ++ pr) t cs].
Proof.
  induction w as [|c w IH]; intros pr t cs; [reflexivity|].
  cbn [lit app]. change (m (Cat (chr c) (lit w)) ?s)
    with (flat_map (m (lit w)) (m (chr c) s)).
  unfold chr. cbn [m post pre caps]. rewrite N.eqb_refl.
  cbn [flat_map]. rewrite IH, app_nil_r. cbn [rev].
  now rewrite <- app_assoc.
Qed.

Lemma takewhile_stop (p : char -> bool) (x t : str) :
  forallb p x = true ->
  match t with
  | [] => True
  | c :: _ => p c = false
  end ->
  takewhile p (x ++ t) = x.
Proof.
  intros Hx Ht. induction x as [|c x IH]; cbn [app takewhile].
  - destruct t as [|c t]; [reflexivity|]. cbn [takewhile]. now rewrite Ht.
  - cbn [forallb] in Hx. apply andb_true_iff in Hx as [Hc Hx].
    rewrite Hc, IH by exact Hx. reflexivity.
Qed.

(** A greedy repetition of a class takes the whole stretch within the
    class first. *)
Lemma first_plus_cls (p : char -> bool) (x t pr : str)
      (cs : list (nat * str)) :
  x <> [] -> forallb p x = true ->
  match t with
  | [] => True
  | c :: _ => p c = false
  end ->
  exists r, m (Plus greedy (Cls p)) (MState pr (x ++ t) cs)
            = MState (rev x ++ pr) t cs :: r.
Proof.
  intros Hne Hx Ht. destruct x as [|c x]; [now elim Hne|].
  cbn [forallb] in Hx. apply andb_true_iff in Hx as [Hc Hx].
  unfold Plus. change (m (Cat ?a ?b) ?s) with (flat_map (m b) (m a s)).
  cbn [app]. change (m (Cls p) (MState pr (c :: x ++ t) cs))
    with (if p c then [MState (c :: pr) (x ++ t) cs] else []).
  rewrite Hc. cbn [flat_map]. rewrite m_rep_cls. cbn [post].
  rewrite (takewhile_stop p x t Hx Ht), tries_greedy. cbn [List.map].
  rewrite (@adv_app (MState (c :: pr) (x ++ t) cs) x t eq_refl).
  cbn [pre caps rev app]. rewrite <- app_assoc. eexists. reflexivity.
Qed.

(* ================================================================== *)
(** ** Dropping the background pictures *)
(* ================================================================== *)

Lemma background_needs_bang (pr t : str) (cs : list (nat * str)) :
  match t with
  | [] => True
  | c :: _ => (bang =? c)%N = false
  end ->
  m background_re (MState pr t cs) = [].
Proof.
  intros H. unfold background_re. cbn [cat]. apply m_lit_fail. cbn [post].
  destruct t as [|c t]; [reflexivity|].
  change (py "![](./media/") with (bang :: py "[](./media/").
  cbn [startswith]. now rewrite H.
Qed.

(** The scan passes over a stretch without exclamation mark. *)
Lemma finditer_skip (u : str) :
  forall fuel before rest,
    no_bang u = true -> length u < fuel ->
    finditer_from background_re fuel before (u ++ rest)
    = finditer_from background_re (fuel - length u) (rev u ++ before) rest.
Proof.
  induction u as [|c u IH]; intros fuel before rest Hu Hf.
  - cbn [length app rev]. now rewrite Nat.sub_0_r.
  - cbn [no_bang forallb] in Hu. apply andb_true_iff in Hu as [Hc Hu].
    destruct fuel as [|n]; [simpl in Hf; lia|].
    cbn [app finditer_from]. rewrite background_needs_bang.
    + rewrite IH by (try exact Hu; simpl in Hf; lia).
      cbn [length rev Nat.sub]. now rewrite <- app_assoc.
    + apply negb_true_iff in Hc. now rewrite N.eqb_sym.
Qed.

Lemma finditer_no_bang (t : str) (fuel : nat) (before : str) :
  no_bang t = true -> finditer_from background_re fuel before t = [].
Proof.
  intros H. apply finditer_from_none. intros u v E.
  apply background_needs_bang. destruct v as [|c v]; [exact I|].
  unfold no_bang in H. rewrite E, forallb_app in H.
  apply andb_true_iff in H as [_ H]. cbn [forallb] in H.
  apply andb_true_iff in H as [H _]. apply negb_true_iff in H.
  now rewrite N.eqb_sym.
Qed.

(** The reference to a picture, with the two line breaks after it. *)
Lemma background_match (name rest pr : str) :
  name <> [] -> forallb (noneof (py ")")) name = true ->
  match rest with
  | [] => True
  | c :: _ => (nl =? c)%N = false
  end ->
  let ref := py "![](./media/" ++ name ++ py "){.background}" ++ [nl; nl] in
  exists r, m background_re (MState pr (ref ++ rest) [])
            = MState (rev ref ++ pr) rest [] :: r.
Proof.
  intros Hne Hn Hr. cbv zeta. unfold background_re. cbn [cat].
  rewrite <- !app_assoc.
  destruct (@first_plus_cls (noneof (py ")")) name
              (py "){.background}" ++ [nl; nl] ++ rest)
              (rev (py "![](./media/") ++ pr) [] Hne Hn eq_refl)
    as (r1 & H1).
  destruct (@first_plus_cls (N.eqb nl) [nl; nl] rest
              (rev (py "){.background}")
               ++ rev name ++ rev (py "![](./media/") ++ pr) [])
    as (r2 & H2); [discriminate|reflexivity|exact Hr|].
  destruct (@first_cat (lit (py "){.background}")) (Plus greedy (chr nl))
              (MState (rev name ++ rev (py "![](./media/") ++ pr)
                      (py "){.background}" ++ [nl; nl] ++ rest) [])
              _ _ [] r2 (@m_lit_here _ _ _ _) H2)
    as (r3 & H3).
  destruct (@first_cat _ _ _ _ _ _ _ H1 H3) as (r4 & H4).
  destruct (@first_cat _ _ _ _ _ _ _
              (@m_lit_here (py "![](./media/") pr _ []) H4)
    as (r5 & H5).
  exists r5. rewrite H5. f_equal. f_equal.
  rewrite !rev_app_distr, <- !app_assoc. reflexivity.
Qed.

(** One reference between two stretches without exclamation mark. *)
Lemma content_no_images_one (before name rest : str) :
  no_bang before = true ->
  name <> [] -> forallb (noneof (py ")")) name = true ->
  no_bang rest = true ->
  match rest with
  | [] => True
  | c :: _ => (nl =? c)%N = false
  end ->
  content_no_images
    (before ++ (py "![](./media/" ++ name ++ py "){.background}" ++ [nl; nl])
     ++ rest)
  = before ++ rest.
Proof.
  intros Hb Hne Hn Hr Hnl.
  set (ref := py "![](./media/" ++ name ++ py "){.background}" ++ [nl; nl]).
  unfold content_no_images, re_sub, finditer.
  rewrite finditer_skip by (try exact Hb; rewrite length_app; lia).
  replace (S (length (before ++ ref ++ rest)) - length before)
    with (S (length (ref ++ rest))) by (rewrite !length_app; lia).
  destruct (@background_match name rest (rev before ++ []) Hne Hn Hnl)
    as (r & Hm).
  fold ref in Hm. cbn [finditer_from]. rewrite Hm. cbn [post pre].
  replace (length rest <? length (ref ++ rest)) with true.
  2:{ symmetry. apply Nat.ltb_lt. rewrite length_app. unfold ref.
      rewrite length_app. simpl. lia. }
  rewrite (@finditer_no_bang rest _ _ Hr). cbn [sub_loop mk_mobj m_start m_end pre].
  rewrite app_nil_r, !length_app, !length_rev. cbn [app].
  unfold slice, slice_from. cbn [skipn]. rewrite Nat.sub_0_r.
  rewrite firstn_app, Nat.sub_diag, firstn_all. cbn [firstn].
  rewrite app_nil_r. f_equal.
  rewrite app_assoc.
  replace (length ref + length before) with (length (before ++ ref))
    by (rewrite length_app; lia).
  now rewrite skipn_app, Nat.sub_diag, skipn_all.
Qed.

Lemma no_bang_app (a b : str) :
  no_bang a = true -> no_bang b = true -> no_bang (a ++ b) = true.
Proof.
  intros Ha Hb. unfold no_bang in *. rewrite forallb_app.
  apply andb_true_iff. now split.
Qed.

(** The fallback of [main] undoes the picture of a cover slide: with
    its background reference removed, the slide of a document with a
    picture is the slide the same document has without one.  This
    holds for a title without exclamation mark and a URL whose last
    segment is not empty and has no closing parenthesis. *)
Theorem dropping_the_picture_gives_the_plain_cover
        (title dir name date : str) :
  no_bang title = true ->
  name <> [] -> no_slash name = true ->
  forallb (noneof (py ")")) name = true ->
  dir ++ slash :: name <> changelog_index ->
  content_no_images
    (create_cover_slide_markdown title (dir ++ slash :: name) date)
  = create_cover_slide_markdown title [] date.
Proof.
  intros Ht Hne Hs Hn Hc.
  rewrite (@cover_markdown_last_segment title dir name date Hs Hc).
  replace (py "# " ++ title ++ [nl; nl] ++ py "![](./media/" ++ name
           ++ py "){.background}" ++ [nl; nl] ++ py "---" ++ [nl; nl])
    with ((py "# " ++ title ++ [nl; nl])
          ++ (py "![](./media/" ++ name ++ py "){.background}" ++ [nl; nl])
          ++ (py "---" ++ [nl; nl]))
    by (now rewrite <- !app_assoc).
  rewrite content_no_images_one; try assumption; try reflexivity.
  apply no_bang_app; [reflexivity|]. now apply no_bang_app.
Qed.

Lemma dropping_the_picture_gives_the_plain_cover_witness :
  content_no_images
    (create_cover_slide_markdown (py "Hello")
                                 (py "https://example.org/img/a.png") [])
  = create_cover_slide_markdown (py "Hello") [] [].
Proof.
  apply (@dropping_the_picture_gives_the_plain_cover
           (py "Hello") (py "https://example.org/img") (py "a.png") []);
    try reflexivity; discriminate.
Defined.

(** The reference of a URL that ends in a slash names no file, and the
    pattern of the fallback, which asks for a name, does not match it. *)
Lemma background_without_name (pr rest : str) :
  m background_re
    (MState pr (py "![](./media/){.background}" ++ rest) []) = [].
Proof.
  apply no_match. intros s' Hin. unfold background_re in Hin.
  cbn [cat] in Hin. apply in_m_cat in Hin as (s1 & H1 & H2).
  apply in_m_lit in H1 as [[H1 _] _]. cbn [post] in H1.
  change (py "![](./media/){.background}" ++ rest)
    with (py "![](./media/" ++ (py "){.background}" ++ rest)) in H1.
  apply app_inv_head in H1.
  apply in_m_cat in H2 as (s2 & H2 & _).
  apply in_m_plus_cls in H2 as (x & Hx & Hp & [Hr _] & _).
  rewrite <- H1 in Hr. destruct x as [|c x]; [now elim Hx|].
  cbn [app] in Hr. change (py "){.background}") with (41%N :: py "{.background}") in Hr.
  cbn [app] in Hr. injection Hr as <- _. discriminate.
Qed.

(** The fallback of [main] cannot drop the picture of a cover slide
    whose URL ends in a slash: the reference it wrote names no file,
    and the text comes back unchanged. *)
Theorem a_reference_without_name_is_kept (title dir date : str) :
  no_bang title = true ->
  dir ++ [slash] <> changelog_index ->
  content_no_images (create_cover_slide_markdown title (dir ++ [slash]) date)
  = create_cover_slide_markdown title (dir ++ [slash]) date
  /\ create_cover_slide_markdown title (dir ++ [slash]) date
     = py "# " ++ title ++ [nl; nl] ++ py "![](./media/){.background}"
       ++ [nl; nl] ++ py "---" ++ [nl; nl].
Proof.
  intros Ht Hc.
  pose proof (@cover_markdown_last_segment title dir [] date eq_refl Hc)
    as E.
  split; [|rewrite E; reflexivity].
  set (tail := py "[](./media/){.background}" ++ [nl; nl] ++ py "---"
               ++ [nl; nl]).
  assert (E2 : create_cover_slide_markdown title (dir ++ [slash]) date
               = (py "# " ++ title ++ [nl; nl]) ++ bang :: tail).
  { change (dir ++ [slash]) with (dir ++ slash :: []). rewrite E.
    rewrite <- !app_assoc. reflexivity. }
  rewrite E2.
  unfold content_no_images, re_sub, finditer.
  rewrite finditer_skip;
    [| apply no_bang_app; [reflexivity|now apply no_bang_app]
     | rewrite (length_app (py "# " ++ title ++ [nl; nl])); lia ].
  replace (S (length ((py "# " ++ title ++ [nl; nl]) ++ bang :: tail))
           - length (py "# " ++ title ++ [nl; nl]))
    with (S (S (length tail)))
    by (rewrite (length_app (py "# " ++ title ++ [nl; nl]));
        cbn [length]; lia).
  generalize (S (length tail)). intros n.
  cbn [finditer_from].
  change (bang :: tail)
    with (py "![](./media/){.background}"
          ++ ([nl; nl] ++ py "---" ++ [nl; nl])).
  rewrite background_without_name.
  change (py "![](./media/){.background}"
          ++ ([nl; nl] ++ py "---" ++ [nl; nl]))
    with (bang :: tail).
  cbv iota. rewrite (@finditer_no_bang tail _ _ eq_refl).
  reflexivity.
Qed.

Lemma a_reference_without_name_is_kept_witness :
  content_no_images
    (create_cover_slide_markdown (py "Hello") (py "https://example.org/img/")
                                 [])
  = py "# Hello" ++ [nl; nl] ++ py "![](./media/){.background}"
    ++ [nl; nl] ++ py "---" ++ [nl; nl].
Proof.
  destruct (@a_reference_without_name_is_kept
              (py "Hello") (py "https://example.org/img") [])
    as [H1 H2]; [reflexivity|discriminate|].
  change (py "https://example.org/img/")
    with (py "https://example.org/img" ++ [slash]).
  rewrite H1. exact H2.
Defined.

(* ================================================================== *)
(** ** One marked stretch on a line *)
(* ================================================================== *)

Lemma first_alt_l (a b : regex) (s s1 : mstate) (r : list mstate) :
  m a s = s1 :: r -> exists r', m (Alt a b) s = s1 :: r'.
Proof. intros H. cbn [m]. rewrite H. eexists. reflexivity. Qed.

Lemma first_alt_ex (a b : regex) (s s1 : mstate) :
  (exists r, m a s = s1 :: r) -> exists r', m (Alt a b) s = s1 :: r'.
Proof. intros [r H]. now apply first_alt_l with r. Qed.

Lemma alt_skip (a b : regex) (s : mstate) :
  m a s = [] -> m (Alt a b) s = m b s.
Proof. intros H. cbn [m]. now rewrite H. Qed.

(** A stretch between an opening and a closing marker, up to the end
    of the text: the first match takes it all. *)
Lemma first_delimited (o cl' x pr : str) (d : char) (p : char -> bool)
      (cs : list (nat * str)) :
  x <> [] -> forallb p x = true -> p d = false ->
  exists r,
    m (cat [lit o; Plus greedy (Cls p); lit (d :: cl')])
      (MState pr (o ++ x ++ d :: cl') cs)
    = MState (rev (o ++ x ++ d :: cl') ++ pr) [] cs :: r.
Proof.
  intros Hne Hx Hd. cbn [cat].
  destruct (@first_plus_cls p x (d :: cl') (rev o ++ pr) cs Hne Hx Hd)
    as (r1 & H1).
  pose proof (@m_lit_here (d :: cl') (rev x ++ rev o ++ pr) [] cs) as H2.
  rewrite app_nil_r in H2.
  destruct (@first_cat _ _ _ _ _ _ _ H1 H2) as (r3 & H3).
  destruct (@first_cat _ _ _ _ _ _ _ (@m_lit_here o pr _ cs) H3)
    as (r4 & H4).
  exists r4. rewrite H4. f_equal. f_equal.
  rewrite !rev_app_distr, <- !app_assoc. reflexivity.
Qed.

(** A line that the first match of the inline pattern takes whole is
    one token. *)
Lemma tokenize_whole (line : str) (r : list mstate) :
  line <> [] ->
  m inline_alternatives (MState [] line []) = MState (rev line) [] [] :: r ->
  tokenize line = [(markdown, line)].
Proof.
  intros Hne Hm. unfold tokenize, finditer.
  assert (Hi : m inline_re (MState [] line [])
               = MState (rev line) [] [(1, line)]
                 :: List.map (set_cap 1 (MState [] line [])) r).
  { unfold inline_re. fold inline_alternatives. cbn [m]. rewrite Hm.
    cbn [List.map]. unfold set_cap, consumed. cbn [post pre caps length].
    now rewrite Nat.sub_0_r, firstn_all. }
  cbn [finditer_from]. rewrite Hi. cbn [post pre].
  destruct line as [|c t]; [now elim Hne|].
  cbn [length Nat.ltb Nat.leb finditer_from].
  rewrite inline_at_end. unfold mk_mobj. cbn [pre post caps length].
  unfold consumed. cbn [post length].
  rewrite Nat.sub_0_r. change (S (length t)) with (length (c :: t)).
  rewrite firstn_all. cbn [tokens_loop m_start m_end m_text Nat.ltb Nat.leb app].
  rewrite length_rev. cbn [length].
  replace (S (length t) <=? length t) with false
    by (symmetry; apply Nat.leb_gt; lia).
  reflexivity.
Qed.

(** A line that is one token is one run, or raises what the token
    raises. *)
Lemma parse_one_token (line : str) (v : res (option run * option str)) :
  one_line line = true -> blank line = false ->
  tokenize line = [(markdown, line)] ->
  process_token None (markdown, line) = v ->
  parse_markdown_formatting line
  = match v with
    | Ok (Some r, _) => Ok [[r]]
    | Ok (None, _) => Ok [[]]
    | Raise e => Raise e
    end.
Proof.
  intros Ho Hb Ht Hp. unfold parse_markdown_formatting.
  rewrite (@split_one_line line Ho). cbn [lines_loop]. rewrite Hb, Ht.
  cbn [runs_loop]. unfold token in *. rewrite Hp.
  destruct v as [[[r|] lu]|e]; reflexivity.
Qed.

Lemma head_not_blank (c : char) (t : str) :
  isspace c = false -> blank (c :: t) = false.
Proof. intros H. unfold blank. cbn [forallb]. now rewrite H. Qed.

Lemma one_line_marked (o x cl : str) :
  one_line o = true -> one_line x = true -> one_line cl = true ->
  one_line (o ++ x ++ cl) = true.
Proof. intros. apply one_line_app; [|apply one_line_app]; assumption. Qed.

Lemma noneof_head (d c : char) (x : str) :
  forallb (noneof [d]) (c :: x) = true -> (d =? c)%N = false.
Proof.
  cbn [forallb]. intros H. apply andb_true_iff in H as [H _].
  now apply noneof_one.
Qed.

(** The first match of the inline pattern on a marked stretch. *)
Lemma inline_marked (k : marking) (x : str) :
  x <> [] -> forallb (noneof [marker_char k]) x = true ->
  exists r,
    m inline_alternatives (MState [] (marker k ++ x ++ marker k) [])
    = MState (rev (marker k ++ x ++ marker k)) [] [] :: r.
Proof.
  intros Hne Hx. unfold inline_alternatives. cbn [alt].
  assert (Hd : noneof [marker_char k] (marker_char k) = false)
    by (unfold noneof, oneof; cbn [existsb]; now rewrite N.eqb_refl).
  destruct x as [|c x]; [now elim Hne|].
  pose proof (noneof_head _ _ _ Hx) as Hc.
  destruct k; cbn [marker marker_char] in *.
  - destruct (@first_delimited (py "**") (py "*") (c :: x) [] 42%N
                (noneof (py "*")) [] Hne Hx Hd) as (r & H).
    rewrite app_nil_r in H.
    apply first_alt_ex. exists r. exact H.
  - rewrite alt_skip
      by (apply m_lit_fail; reflexivity).
    destruct (@first_delimited (py "_") [] (c :: x) [] 95%N
                (noneof (py "_")) [] Hne Hx Hd) as (r & H).
    rewrite app_nil_r in H.
    apply first_alt_ex. exists r. exact H.
  - rewrite alt_skip.
    2:{ apply m_lit_fail. cbn [post].
        change (py "**") with [42; 42]%N. change (py "*") with [42]%N.
        cbn [app startswith]. now rewrite Hc, andb_false_r. }
    rewrite alt_skip by (apply m_lit_fail; reflexivity).
    destruct (@first_delimited (py "*") [] (c :: x) [] 42%N
                (noneof (py "*")) [] Hne Hx Hd) as (r & H).
    rewrite app_nil_r in H.
    apply first_alt_ex. exists r. exact H.
  - rewrite !alt_skip by (apply m_lit_fail; reflexivity).
    destruct (@first_delimited (py "`") [] (c :: x) [] 96%N
                (noneof (py "`")) [] Hne Hx Hd) as (r & H).
    rewrite app_nil_r in H.
    apply first_alt_ex. exists r. exact H.
  - rewrite !alt_skip by (apply m_lit_fail; reflexivity).
    destruct (@first_delimited (py "~~") (py "~") (c :: x) [] 126%N
                (noneof (py "~")) [] Hne Hx Hd) as (r & H).
    rewrite app_nil_r in H.
    apply first_alt_ex. exists r. exact H.
Qed.

(** What a marked stretch is rendered as. *)
Lemma process_marked (k : marking) (x : str) :
  x <> [] -> forallb (noneof [marker_char k]) x = true ->
  process_token None (markdown, marker k ++ x ++ marker k)
  = if xml_text x then Ok (Some (styled k x), None) else Raise ValueError.
Proof.
  intros Hne Hx. destruct x as [|c x]; [now elim Hne|].
  pose proof (@noneof_head _ _ _ Hx) as Hc.
  destruct k; cbn [marker marker_char styled] in *.
  - apply process_token_styles with (k := false); try reflexivity.
    + unfold is_bold. now rewrite startswith_delimited, endswith_delimited.
    + unfold is_italic.
      rewrite (@startswith_delimited (py "**") (c :: x) (py "**")).
      cbn [negb]. rewrite andb_false_r. reflexivity.
    + apply (@slice_mid_app (py "**") (c :: x) (py "**")).
  - apply process_token_styles with (k := false); try reflexivity.
    + unfold is_italic.
      now rewrite startswith_delimited, endswith_delimited.
    + apply (@slice_mid_app (py "_") (c :: x) (py "_")).
  - apply process_token_styles with (k := false); try reflexivity.
    + unfold is_bold. change (py "**") with [42; 42]%N.
      change (py "*") with [42]%N. cbn [app startswith].
      now rewrite Hc, andb_false_r.
    + unfold is_italic.
      rewrite (@startswith_delimited (py "*") (c :: x) (py "*")),
        (@endswith_delimited (py "*") (c :: x) (py "*")).
      change (py "**") with [42; 42]%N. change (py "*") with [42]%N.
      cbn [app startswith]. rewrite Hc. cbn [andb negb].
      now rewrite orb_true_r.
    + apply (@slice_mid_app (py "*") (c :: x) (py "*")).
  - apply process_token_styles with (k := false); try reflexivity.
    + unfold is_code. now rewrite startswith_delimited, endswith_delimited.
    + apply (@slice_mid_app (py "`") (c :: x) (py "`")).
  - apply process_token_styles with (k := true); try reflexivity.
    + unfold is_strikethrough.
      now rewrite startswith_delimited, endswith_delimited.
    + apply (@slice_mid_app (py "~~") (c :: x) (py "~~")).
Qed.

Lemma marker_one_line (k : marking) : one_line (marker k) = true.
Proof. destruct k; reflexivity. Qed.

Lemma marked_not_blank (k : marking) (x : str) :
  blank (marker k ++ x ++ marker k) = false.
Proof. destruct k; reflexivity. Qed.

Lemma marked_not_empty (k : marking) (x : str) :
  marker k ++ x ++ marker k <> [].
Proof. destruct k; discriminate. Qed.

(** [parse_markdown_formatting] on a line that is one marked stretch:
    the frame has one paragraph with one run, which holds the stretch
    without its markers and has the style of the marking and no other:
    bold for [**], italic for [_] and for [*], the code font for the
    backquote.  For [~~] the markers are removed and no style is set:
    the strikethrough the function asks for does not exist in
    python-pptx, and the run stays plain.  The stretch may hold any
    characters but the marker's own and a line break; if it holds one
    the presentation refuses (U+FFFE, U+FFFF, a surrogate), the
    function raises [ValueError]. *)
Theorem a_marked_line_is_one_styled_run (k : marking) (x : str) :
  x <> [] -> one_line x = true ->
  forallb (noneof [marker_char k]) x = true ->
  parse_markdown_formatting (marker k ++ x ++ marker k)
  = if xml_text x then Ok [[styled k x]] else Raise ValueError.
Proof.
  intros Hne Ho Hx. destruct (inline_marked k Hne Hx) as (r & Hm).
  rewrite (@parse_one_token (marker k ++ x ++ marker k)
             (if xml_text x then Ok (Some (styled k x), None)
              else Raise ValueError)).
  - now destruct (xml_text x).
  - apply one_line_marked; try assumption; apply marker_one_line.
  - apply marked_not_blank.
  - apply (@tokenize_whole _ r); [apply marked_not_empty|exact Hm].
  - now apply process_marked.
Qed.

(** A bold stretch with underscores inside; a struck-out stretch, which
    comes out plain; and a stretch the presentation refuses. *)
Lemma a_marked_line_is_one_styled_run_witness :
  parse_markdown_formatting (py "**very _important_**")
  = Ok [[Run (py "very _important_") true false false false None]] /\
  parse_markdown_formatting (py "~~gone~~") = Ok [[plain_run (py "gone")]] /\
  parse_markdown_formatting (py "`a" ++ [65535%N] ++ py "`")
  = Raise ValueError.
Proof.
  split; [|split].
  - apply (@a_marked_line_is_one_styled_run DoubleStar
             (py "very _important_"));
      [discriminate|reflexivity|reflexivity].
  - apply (@a_marked_line_is_one_styled_run DoubleTilde (py "gone"));
      [discriminate|reflexivity|reflexivity].
  - apply (@a_marked_line_is_one_styled_run Backquote
             (py "a" ++ [65535%N]));
      [discriminate|reflexivity|reflexivity].
Defined.

(** The first match of the inline pattern on a link. *)
Lemma inline_link (x u : str) :
  x <> [] -> forallb (noneof (py "]")) x = true ->
  u <> [] -> forallb (noneof (py ")")) u = true ->
  exists r,
    m inline_alternatives
      (MState [] (py "[" ++ x ++ py "](" ++ u ++ py ")") [])
    = MState (rev (py "[" ++ x ++ py "](" ++ u ++ py ")")) [] [] :: r.
Proof.
  intros Hx1 Hx2 Hu1 Hu2. unfold inline_alternatives. cbn [alt].
  rewrite !alt_skip by (apply m_lit_fail; reflexivity).
  apply first_alt_ex. unfold link_alt_re. cbn [cat].
  destruct (@first_plus_cls (noneof (py ")")) u (py ")")
              (rev (py "](") ++ rev x ++ rev (py "[") ++ []) []
              Hu1 Hu2 eq_refl) as (r1 & H1).
  pose proof (@m_lit_here (py ")")
                (rev u ++ rev (py "](") ++ rev x ++ rev (py "[") ++ [])
                [] []) as H0.
  rewrite app_nil_r in H0.
  destruct (@first_cat _ _ _ _ _ _ _ H1 H0) as (r2 & H2).
  destruct (@first_cat _ _ _ _ _ _ _
              (@m_lit_here (py "](") (rev x ++ rev (py "[") ++ [])
                 (u ++ py ")") []) H2) as (r3 & H3).
  destruct (@first_plus_cls (noneof (py "]")) x (py "](" ++ u ++ py ")")
              (rev (py "[") ++ []) [] Hx1 Hx2 eq_refl) as (r4 & H4).
  destruct (@first_cat _ _ _ _ _ _ _ H4 H3) as (r5 & H5).
  destruct (@first_cat _ _ _ _ _ _ _
              (@m_lit_here (py "[") [] (x ++ py "](" ++ u ++ py ")") []) H5)
    as (r6 & H6).
  exists r6. rewrite H6. f_equal. f_equal.
  rewrite !rev_app_distr, <- ?app_assoc, ?app_nil_r. reflexivity.
Qed.

Lemma process_link (x u : str) :
  x <> [] -> forallb (noneof (py "]")) x = true ->
  u <> [] -> forallb (noneof (py ")")) u = true ->
  process_token None (markdown, py "[" ++ x ++ py "](" ++ u ++ py ")")
  = if xml_text x
    then Ok (Some (Run x false false false false (Some u)), Some u)
    else Raise ValueError.
Proof.
  intros Hx1 Hx2 Hu1 Hu2.
  destruct (link_match Hx1 Hx2 Hu1 Hu2) as (mo & Hm & G1 & G2).
  set (w := py "[" ++ x ++ py "](" ++ u ++ py ")") in *.
  assert (B : is_bold w = false) by reflexivity.
  assert (I : is_italic w = false) by reflexivity.
  assert (C : is_code w = false) by reflexivity.
  assert (K : is_strikethrough w = false) by reflexivity.
  assert (L : is_link w = true).
  { unfold is_link. apply andb_true_iff. split; [reflexivity|].
    apply contains_spec. exists (py "[" ++ x), (u ++ py ")").
    unfold w. now rewrite <- !app_assoc. }
  unfold process_token. rewrite B, I, C, K, L, Hm, G1, G2.
  unfold set_text. now destruct (xml_text x).
Qed.

(** [parse_markdown_formatting] on a line that is one link
    [[text](url)]: one run that shows the text, without style, and
    carries the URL as its hyperlink.  The text may hold anything but
    a closing bracket, the URL anything the presentation takes but a
    closing parenthesis (and neither a line break); if the text holds
    a character the presentation refuses (U+FFFE, U+FFFF, a
    surrogate), the function raises [ValueError]. *)
Theorem a_link_is_one_run_with_its_target (x u : str) :
  x <> [] -> one_line x = true -> forallb (noneof (py "]")) x = true ->
  u <> [] -> one_line u = true -> forallb (noneof (py ")")) u = true ->
  xml_text u = true ->
  parse_markdown_formatting (py "[" ++ x ++ py "](" ++ u ++ py ")")
  = if xml_text x
    then Ok [[Run x false false false false (Some u)]]
    else Raise ValueError.
Proof.
  intros Hx1 Hxo Hx2 Hu1 Huo Hu2 _.
  destruct (inline_link Hx1 Hx2 Hu1 Hu2) as (r & Hm).
  rewrite (@parse_one_token (py "[" ++ x ++ py "](" ++ u ++ py ")")
             (if xml_text x
              then Ok (Some (Run x false false false false (Some u)), Some u)
              else Raise ValueError)).
  - now destruct (xml_text x).
  - repeat (apply one_line_app; try assumption; try reflexivity).
  - reflexivity.
  - apply (@tokenize_whole _ r); [discriminate|exact Hm].
  - now apply process_link.
Qed.

Lemma a_link_is_one_run_with_its_target_witness :
  parse_markdown_formatting (py "[the docs](https://docs.github.com)")
  = Ok [[Run (py "the docs") false false false false
             (Some (py "https://docs.github.com"))]].
Proof.
  apply (@a_link_is_one_run_with_its_target
           (py "the docs") (py "https://docs.github.com"));
    try reflexivity; discriminate.
Defined.

(* ================================================================== *)
(** ** The paragraphs of a text, line by line *)
(* ================================================================== *)

Lemma lines_loop_later (lines : list str) :
  Forall (fun l => xml_text l = true) lines ->
  forall lu frame,
    exists ps,
      lines_loop lines false lu frame = Ok (frame ++ ps) /\
      Forall2 paragraph_of lines ps.
Proof.
  induction 1 as [|line rest Hline _ IH]; intros lu frame.
  - exists []. split; [cbn; now rewrite app_nil_r|constructor].
  - cbn [lines_loop]. destruct (blank line) eqn:Hb; cbn [negb].
    + destruct (IH lu (frame ++ [[]])) as (ps & H1 & H2).
      exists ([] :: ps). split.
      * etransitivity; [exact H1|]. now rewrite <- app_assoc.
      * constructor; [|exact H2]. unfold paragraph_of. now rewrite Hb.
    + destruct (@runs_of_line line Hb Hline lu []) as (rs & lu1 & Hr & Hf).
      rewrite Hr. cbn [app].
      destruct (IH lu1 (frame ++ [rs])) as (ps & H1 & H2).
      exists (rs :: ps). split.
      * etransitivity; [exact H1|]. now rewrite <- app_assoc.
      * constructor; [|exact H2]. unfold paragraph_of. now rewrite Hb.
Qed.

Lemma lines_loop_first (lines : list str) :
  Forall (fun l => xml_text l = true) lines ->
  forall lu,
    exists frame,
      lines_loop lines true lu [[]] = Ok frame /\
      match from_first_text lines with
      | [] => frame = [[]]
      | line :: rest => Forall2 paragraph_of (line :: rest) frame
      end.
Proof.
  induction 1 as [|line rest Hline Hrest IH]; intros lu.
  - exists [[]]. split; reflexivity.
  - cbn [lines_loop from_first_text]. destruct (blank line) eqn:Hb; cbn [negb].
    + apply IH.
    + destruct (@runs_of_line line Hb Hline lu []) as (rs & lu1 & Hr & Hf).
      rewrite Hr. cbn [app].
      destruct (@lines_loop_later rest Hrest lu1 [rs]) as (ps & H1 & H2).
      exists (rs :: ps). split; [exact H1|].
      constructor; [|exact H2]. unfold paragraph_of. now rewrite Hb.
Qed.

(** [parse_markdown_formatting] keeps the lines of a text apart.  For
    a text the presentation takes (no U+FFFE, no U+FFFF, no surrogate)
    the frame has one paragraph for each line from the first line that
    is not blank on, in order, an empty one for a blank line; blank
    lines before the first text are dropped, and a text without any
    line that is not blank leaves the frame with its one empty
    paragraph. *)
Theorem paragraphs_follow_the_lines (text : str) :
  xml_text text = true ->
  exists frame,
    parse_markdown_formatting text = Ok frame /\
    match from_first_text (split nl text) with
    | [] => frame = [[]]
    | line :: rest => Forall2 paragraph_of (line :: rest) frame
    end.
Proof.
  intros Hxml. apply lines_loop_first.
  exact (@forallb_split xml_char nl text Hxml).
Qed.

(** A blank line, then two lines with a blank line between them: three
    paragraphs, the second one empty. *)
Lemma paragraphs_follow_the_lines_witness :
  exists p1 p3,
    parse_markdown_formatting ([nl] ++ doc_inline_sample) = Ok [p1; []; p3] /\
    Forall2 emitted (tokenize (py "Use **bold** and _italic_")) p1 /\
    Forall2 emitted
            (tokenize (py "See [the docs](https://docs.github.com) ~~soon~~"))
            p3.
Proof.
  destruct (@paragraphs_follow_the_lines ([nl] ++ doc_inline_sample) eq_refl)
    as (frame & Hrun & Hps).
  assert (E : from_first_text (split nl ([nl] ++ doc_inline_sample))
              = [py "Use **bold** and _italic_"; [];
                 py "See [the docs](https://docs.github.com) ~~soon~~"])
    by reflexivity.
  rewrite E in Hps.
  inversion Hps as [|l1 p1 ls1 ps1 H1 Hps1]; subst.
  inversion Hps1 as [|l2 p2 ls2 ps2 H2 Hps2]; subst.
  inversion Hps2 as [|l3 p3 ls3 ps3 H3 Hps3]; subst.
  inversion Hps3; subst.
  unfold paragraph_of in H1, H2, H3.
  change (blank (py "Use **bold** and _italic_")) with false in H1.
  change (blank []) with true in H2.
  change (blank (py "See [the docs](https://docs.github.com) ~~soon~~"))
    with false in H3.
  cbv iota in H1, H2, H3. subst p2.
  exists p1, p3. auto.
Defined.

(* ================================================================== *)
(** ** The image of a document is a bare URL *)
(* ================================================================== *)




